(** * The stateless conversational agent of the todo backend

    A shallow embedding of the phase-4 backend's conversational core:

    - [app/mcp/server.py]   the five task tools and their database session,
    - [app/ai/agent.py]     [TodoAgent.run] and [TodoAgent._execute_tool_call],
    - [app/routers/chat.py] the chat request handler and its helpers.

    Python values that cross the tool boundary (argument payloads, result
    dicts) are kept dynamically typed ([pyval]); the rows of the relational
    store are records; every function that touches the store, the clock, the
    id generator or the language model runs in a state-and-exception monad
    over one [world].  What the environment answers (clock readings, fresh
    ids, storage faults, model completions, JSON and date parsing) is not
    fixed: it is a parameter of the whole development. *)

From stdpp Require Import gmap strings list fin_maps sorting.
From Stdlib Require Import ZArith.
From Stdlib Require Import Ascii.
From Stdlib Require String.

#[local] Open Scope Z_scope.
#[local] Set Warnings "-register-all".

(** ** Python values *)

(** The JSON-shaped fragment of Python's values: what [json.loads] yields
    and what the tools put into their result dicts. *)
Inductive pyval : Type :=
  | PNone
  | PBool (b : bool)
  | PInt (z : Z)
  | PStr (s : string)
  | PList (l : list pyval)
  | PDict (d : gmap string pyval).

(** A Python [dict] with string keys. *)
Abbreviation pydict := (gmap string pyval).

(** ** Exceptions *)

(** The exception classes the code tells apart ([except ValueError],
    [except HTTPException], [except Exception]); [str(e)] is the message. *)
Inductive exn : Type :=
  | ValueError (msg : string)
  | TypeError (msg : string)
  | JSONDecodeError (msg : string)
  | DatabaseError (msg : string)
  | APIError (msg : string)
  | HTTPException (status_code : Z) (detail : string)
  | Exception (msg : string).

Definition exn_str (e : exn) : string :=
  match e with
  | ValueError m | TypeError m | JSONDecodeError m
  | DatabaseError m | APIError m | Exception m => m
  | HTTPException c d => d
  end.

Definition is_HTTPException (e : exn) : bool :=
  match e with HTTPException _ _ => true | _ => false end.

(** ** Strings *)

Module Str.

(** A Python [str] is held as its UTF-8 encoding.  In that encoding every
    character is one leading byte followed by continuation bytes, which
    are the bytes of the form [10xxxxxx]. *)
Definition is_continuation (c : ascii) : bool :=
  match c with
  | Ascii _ _ _ _ _ _ b6 b7 => b7 && negb b6
  end.

(** The number of characters (code points) of a string: the bytes that
    are not continuation bytes. *)
Fixpoint code_points (s : string) : nat :=
  match s with
  | EmptyString => O
  | String c s' =>
      if is_continuation c then code_points s' else S (code_points s')
  end.

(** [len(s)]: Python counts characters, not bytes. *)
Definition len (s : string) : Z := Z.of_nat (code_points s).

(** [sep.join(l)]. *)
Definition join (sep : string) (l : list string) : string :=
  String.concat sep l.

(** [s.split(",")]: the pieces between the commas, of which there is
    always at least one (so the first branch of the inner [match] is
    never taken). *)
Fixpoint split_comma (s : string) : list string :=
  match s with
  | EmptyString => [EmptyString]
  | String c s' =>
      if Ascii.eqb c ","%char then EmptyString :: split_comma s'
      else match split_comma s' with
           | [] => [String c EmptyString]
           | w :: ws => String c w :: ws
           end
  end.

(** [s.replace('Z', '+00:00')]. *)
Fixpoint replace_Z (s : string) : string :=
  match s with
  | EmptyString => EmptyString
  | String c s' =>
      if Ascii.eqb c "Z"%char then "+00:00" +:+ replace_Z s'
      else String c (replace_Z s')
  end.

(** [c in s] for a one-character string. *)
Fixpoint has_char (c : ascii) (s : string) : bool :=
  match s with
  | EmptyString => false
  | String c' s' => Ascii.eqb c c' || has_char c s'
  end.

(** [x in l] for a list of strings. *)
Definition mem (x : string) (l : list string) : bool :=
  bool_decide (x ∈ l).

End Str.

(** ** Rows of the relational store *)

(** [datetime] values, as a count of microseconds. *)
Abbreviation datetime := Z.

(** A row of the table [tasks], after [class Task] of [app/models.py]
    (the phase-3 declaration; the tools of phase 4 import the module of
    the same name and use these columns).  The primary key [id] is the
    key under which the row is stored (see [world]); its default is
    [generate_uuid], those of the two timestamps are [datetime.utcnow]. *)
Record Task : Type := mkTask {
  task_title : string;
  task_description : option string;
  task_completed : bool;
  task_priority : string;
  task_status : string;
  task_tags : string;
  task_recurrence_pattern : option string;
  task_recurrence_interval : Z;
  task_due_date : option datetime;
  task_user_id : string;
  task_created_at : datetime;
  task_updated_at : datetime;
}.

(** A row of the table [conversations], after [class Conversation] of
    [app/models.py]; the primary key [id], which the database assigns, is
    the key under which the row is stored. *)
Record Conversation : Type := mkConversation {
  conv_user_id : string;
  conv_title : option string;
  conv_created_at : datetime;
  conv_updated_at : datetime;
  conv_is_active : bool;
}.

(** A row of the table [messages], after [class Message] of
    [app/models.py].  The id is [None] until the database assigns it. *)
Record Message : Type := mkMessage {
  msg_id : option Z;
  msg_conversation_id : Z;
  msg_role : string;
  msg_content : string;
  msg_created_at : datetime;
}.

(** ** The world *)

(** The committed contents of the three tables, the two id sequences, and
    two counters: [tick] counts the consultations of the environment (each
    clock reading, generated id and storage operation takes the next
    answer), [llm_calls] the completions requested from the model. *)
Record world : Type := mkWorld {
  tasks : gmap string Task;
  conversations : gmap Z Conversation;
  messages : list Message;
  conversation_seq : Z;
  message_seq : Z;
  tick : nat;
  llm_calls : nat;
}.

Definition set_tasks (f : gmap string Task → gmap string Task) (w : world) : world :=
  mkWorld (f (tasks w)) (conversations w) (messages w)
          (conversation_seq w) (message_seq w) (tick w) (llm_calls w).

Definition set_conversations (f : gmap Z Conversation → gmap Z Conversation)
    (w : world) : world :=
  mkWorld (tasks w) (f (conversations w)) (messages w)
          (conversation_seq w) (message_seq w) (tick w) (llm_calls w).

Definition set_messages (f : list Message → list Message) (w : world) : world :=
  mkWorld (tasks w) (conversations w) (f (messages w))
          (conversation_seq w) (message_seq w) (tick w) (llm_calls w).

Definition set_conversation_seq (z : Z) (w : world) : world :=
  mkWorld (tasks w) (conversations w) (messages w)
          z (message_seq w) (tick w) (llm_calls w).

Definition set_message_seq (z : Z) (w : world) : world :=
  mkWorld (tasks w) (conversations w) (messages w)
          (conversation_seq w) z (tick w) (llm_calls w).

Definition next_tick (w : world) : world :=
  mkWorld (tasks w) (conversations w) (messages w)
          (conversation_seq w) (message_seq w) (S (tick w)) (llm_calls w).

Definition count_llm_call (w : world) : world :=
  mkWorld (tasks w) (conversations w) (messages w)
          (conversation_seq w) (message_seq w) (tick w) (S (llm_calls w)).

(** ** The monad: state over [world], with exceptions *)

(** A computation either returns ([inr]) or raises ([inl]); the world it
    leaves behind is kept in both cases, since what was committed before an
    exception stays committed. *)
Definition M (A : Type) : Type := world → (exn + A) * world.

Definition ret {A} (a : A) : M A := λ w, (inr a, w).

Definition raise {A} (e : exn) : M A := λ w, (inl e, w).

Definition bind {A B} (m : M A) (k : A → M B) : M B :=
  λ w, match m w with
       | (inr a, w') => k a w'
       | (inl e, w') => (inl e, w')
       end.

(** [try: m except Exception as e: h e]. *)
Definition try_except {A} (m : M A) (h : exn → M A) : M A :=
  λ w, match m w with
       | (inr a, w') => (inr a, w')
       | (inl e, w') => h e w'
       end.

Notation "x <- m ;; k" := (bind m (λ x, k))
  (at level 100, m at next level, right associativity).

(** A pure step that may fail, run inside the monad. *)
Definition lift {A} (r : exn + A) : M A :=
  match r with inr a => ret a | inl e => raise e end.

(** ** Reasoning about computations

    [outcome m Q w]: running [m] in the world [w] ends, by a return or by
    an exception, in a result and a world that satisfy [Q]. *)
Inductive outcome {A} (m : M A) (Q : exn + A → world → Prop) (w : world) : Prop :=
  | Outcome : Q (m w).1 (m w).2 → outcome m Q w.

(** ** The unit of work of a database session *)

(** What a session has been told and not yet committed.  A table with a
    primary key is a finite map from the key to the other columns, so a
    task travels with its id. *)
Inductive pending : Type :=
  | InsertTask (id : string) (t : Task)
  | UpdateTask (id : string) (t : Task)
  | DeleteTask (id : string)
  | InsertConversation (id : Z) (c : Conversation)
  | UpdateConversation (id : Z) (c : Conversation)
  | InsertMessage (m : Message).

(** An [AsyncSession]: its pending changes, oldest first.  The session
    object is passed and returned explicitly. *)
Abbreviation AsyncSession := (list pending).

(** [session.add(obj)] and [session.delete(obj)]. *)
Definition session_add (db : AsyncSession) (p : pending) : AsyncSession := db ++ [p].

(** The messages a session has added and not committed: its own queries
    see them. *)
Definition session_messages (db : AsyncSession) : list Message :=
  omap (λ p, match p with InsertMessage m => Some m | _ => None end) db.

(** Writing one pending change to the tables.  A primary key can be
    inserted once, and updated or deleted only while it is there.  The
    types of the columns are not modelled: the tables take every row,
    where the store of the program refuses a due date that carries a UTC
    offset (the column is without time zone). *)
Definition apply_pending (p : pending) (w : world) : exn + world :=
  match p with
  | InsertTask id t =>
      match tasks w !! id with
      | Some _ => inl (DatabaseError "IntegrityError: duplicate key")
      | None => inr (set_tasks (insert id t) w)
      end
  | UpdateTask id t =>
      match tasks w !! id with
      | Some _ => inr (set_tasks (insert id t) w)
      | None => inl (DatabaseError "StaleDataError")
      end
  | DeleteTask id =>
      match tasks w !! id with
      | Some _ => inr (set_tasks (delete id) w)
      | None => inl (DatabaseError "StaleDataError")
      end
  | InsertConversation id c =>
      match conversations w !! id with
      | Some _ => inl (DatabaseError "IntegrityError: duplicate key")
      | None => inr (set_conversations (insert id c) w)
      end
  | UpdateConversation id c =>
      match conversations w !! id with
      | Some _ => inr (set_conversations (insert id c) w)
      | None => inl (DatabaseError "StaleDataError")
      end
  | InsertMessage m =>
      let id := message_seq w + 1 in
      inr (set_message_seq id
             (set_messages
                (λ ms, ms ++ [mkMessage (Some id) (msg_conversation_id m)
                                (msg_role m) (msg_content m) (msg_created_at m)])
                w))
  end.

Fixpoint apply_all (db : AsyncSession) (w : world) : exn + world :=
  match db with
  | [] => inr w
  | p :: db' =>
      match apply_pending p w with
      | inr w' => apply_all db' w'
      | inl e => inl e
      end
  end.

(** ** Result dicts *)

(** A dict literal [{k1: v1, ...}]. *)
Definition dict (l : list (string * pyval)) : pydict := list_to_map l.

(** An [Optional[str]] as a Python value. *)
Definition opt_str (o : option string) : pyval :=
  match o with Some s => PStr s | None => PNone end.

(** Truth value of a string: [bool(s)]. *)
Definition truthy (s : string) : bool := negb (String.eqb s "").

(** Truth value of an optional string ([None] is false). *)
Definition truthy_opt (o : option string) : bool :=
  match o with Some s => truthy s | None => false end.

(** [task.tags.split(",") if task.tags else []]. *)
Definition tags_out (stored : string) : list string :=
  if truthy stored then Str.split_comma stored else [].

(** [",".join(tags) if tags else ""]: an absent and an empty list both
    store the empty string. *)
Definition tags_in (tags : option (list string)) : string :=
  match tags with
  | Some (t :: ts) => Str.join "," (t :: ts)
  | _ => ""
  end.

Definition PRIORITIES : list string := ["Low"; "Medium"; "High"].
Definition KANBAN_STATUSES : list string := ["ready"; "in_progress"; "done"].
Definition LIST_STATUSES : list string := ["pending"; "completed"].

Definition NOT_FOUND : string := "Task not found or access denied".

(** ** Tool calls and the working context *)

(** A [ChatCompletionMessageToolCall]: its identifier, the name of the
    function and the serialized argument payload. *)
Record tool_call : Type := mkToolCall {
  tc_id : string;
  tc_name : string;
  tc_arguments : string;
}.

(** The message of a completion: [message.content] and
    [message.tool_calls], either of which may be [None]. *)
Record completion : Type := mkCompletion {
  cm_content : option string;
  cm_tool_calls : option (list tool_call);
}.

(** [if message.tool_calls]: neither [None] nor empty. *)
Definition requests_tools (m : completion) : bool :=
  match cm_tool_calls m with
  | Some (_ :: _) => true
  | _ => false
  end.

(** The entries of the working context. *)
Inductive chat_entry : Type :=
  | Entry (role content : string)
  | AssistantEntry (content : string) (tool_calls : option (list tool_call))
  | ToolEntry (tool_call_id content : string).

(** What one pass through the loop of [run] decides. *)
Inductive iteration : Type :=
  | Continue (current_messages : list chat_entry)
  | Return (text : string).

Definition NO_CONTENT_REPLY : string :=
  "I apologize, but I couldn't complete your request.".

Definition FALLBACK_REPLY : string :=
  "I apologize, but I couldn't complete your request within the allowed time. Please try again or rephrase your request.".

(** The five tools, as the values of the table [tool_functions]. *)
Inductive tool : Type :=
  | Tool_add_task
  | Tool_list_tasks
  | Tool_update_task
  | Tool_complete_task
  | Tool_delete_task.

(** *** Binding keyword arguments *)

(** A call with the dict [kwargs] unpacked into keyword arguments,
    against a signature: every keyword must name a
    parameter and every parameter without a default must be given. *)
Definition check_signature (params required : list string) (kwargs : pydict)
    : exn + unit :=
  if negb (bool_decide (map_Forall (λ k _, k ∈ params) kwargs)) then
    inl (TypeError "got an unexpected keyword argument")
  else if negb (bool_decide (Forall (λ k, is_Some (kwargs !! k)) required)) then
    inl (TypeError "missing a required argument")
  else inr tt.

Definition ILL_TYPED : exn := TypeError "argument of another type than annotated".

(** A parameter annotated [str]. *)
Definition arg_str (kwargs : pydict) (k : string) : exn + string :=
  match kwargs !! k with
  | Some (PStr s) => inr s
  | _ => inl ILL_TYPED
  end.

(** A parameter annotated [str] with a default. *)
Definition arg_str_default (kwargs : pydict) (k dflt : string) : exn + string :=
  match kwargs !! k with
  | None => inr dflt
  | Some (PStr s) => inr s
  | Some _ => inl ILL_TYPED
  end.

(** A parameter annotated [Optional[str] = None]. *)
Definition arg_opt_str (kwargs : pydict) (k : string) : exn + option string :=
  match kwargs !! k with
  | None | Some PNone => inr None
  | Some (PStr s) => inr (Some s)
  | Some _ => inl ILL_TYPED
  end.

Definition as_str (v : pyval) : option string :=
  match v with PStr s => Some s | _ => None end.

(** A parameter annotated [Optional[List[str]] = None]. *)
Definition arg_opt_str_list (kwargs : pydict) (k : string)
    : exn + option (list string) :=
  match kwargs !! k with
  | None | Some PNone => inr None
  | Some (PList l) =>
      match mapM as_str l with
      | Some ss => inr (Some ss)
      | None => inl ILL_TYPED
      end
  | Some _ => inl ILL_TYPED
  end.

(** A parameter annotated [int] with a default. *)
Definition arg_int_default (kwargs : pydict) (k : string) (dflt : Z) : exn + Z :=
  match kwargs !! k with
  | None => inr dflt
  | Some (PInt z) => inr z
  | Some _ => inl ILL_TYPED
  end.

(** [obj[key] = value]: defined on a dict; a list wants an integer index,
    the other values support no item assignment. *)
Definition setitem (obj : pyval) (key : string) (value : pyval) : exn + pydict :=
  match obj with
  | PDict d => inr (<[key := value]> d)
  | PList _ => inl (TypeError "list indices must be integers or slices, not str")
  | _ => inl (TypeError "object does not support item assignment")
  end.

(** ** The chat request handler's data *)

Record ChatMessageRequest : Type := mkChatMessageRequest {
  req_conversation_id : option Z;
  req_message : string;
}.

Record ChatMessageResponse : Type := mkChatMessageResponse {
  resp_conversation_id : Z;
  resp_response : string;
}.

(** The authenticated caller; the handler reads its [id] only. *)
Record User : Type := mkUser {
  usr_id : string;
}.

(** [.order_by(Message.created_at.desc())]: newest first; rows with equal
    timestamps keep the order in which they were inserted. *)
Fixpoint insert_desc (m : Message) (sorted : list Message) : list Message :=
  match sorted with
  | [] => [m]
  | x :: rest =>
      if msg_created_at x <=? msg_created_at m then m :: x :: rest
      else x :: insert_desc m rest
  end.

Definition order_by_created_at_desc (rows : list Message) : list Message :=
  foldr insert_desc [] rows.

(** [.order_by(Message.created_at)]: oldest first. *)
Fixpoint insert_asc (m : Message) (sorted : list Message) : list Message :=
  match sorted with
  | [] => [m]
  | x :: rest =>
      if msg_created_at m <=? msg_created_at x then m :: x :: rest
      else x :: insert_asc m rest
  end.

Definition order_by_created_at (rows : list Message) : list Message :=
  foldr insert_asc [] rows.

(** Strictly increasing creation timestamps, in the order of the list. *)
Definition chronological (rows : list Message) : Prop :=
  StronglySorted (λ a b, msg_created_at a < msg_created_at b) rows.

(** The messages of one conversation, as the table holds them. *)
Definition conversation_rows (conversation_id : Z) (w : world) : list Message :=
  filter (λ m, msg_conversation_id m = conversation_id) (messages w).

(** A full chronological fetch of a conversation's history:
    [select(Message).where(Message.conversation_id == conversation_id)
    .order_by(Message.created_at)]. *)
Definition full_history (conversation_id : Z) (w : world) : list Message :=
  order_by_created_at (conversation_rows conversation_id w).

(** ** The signatures of the tools and the catalogue sent to the model *)

(** The parameters of each tool function, as its [def] lists them, and
    those among them that have no default. *)
Definition signature (f : tool) : list string * list string :=
  match f with
  | Tool_add_task =>
      (["user_id"; "title"; "description"; "priority"; "tags"; "due_date"],
       ["user_id"; "title"])
  | Tool_list_tasks =>
      (["user_id"; "status"; "priority"; "tags"; "limit"], ["user_id"])
  | Tool_update_task =>
      (["user_id"; "task_id"; "title"; "description"; "status"; "priority";
        "tags"; "due_date"],
       ["user_id"; "task_id"])
  | Tool_complete_task => (["user_id"; "task_id"], ["user_id"; "task_id"])
  | Tool_delete_task => (["user_id"; "task_id"], ["user_id"; "task_id"])
  end.

(** The types that the catalogue gives to parameters: ["string"],
    ["array"] with items of type ["string"], ["integer"]. *)
Inductive json_type : Type :=
  | JString
  | JArrayOfString
  | JInteger.

(** One entry of [self.tools]: the name of the function, the properties
    of its parameter object with their types, and the required ones.
    The descriptions and the enumerations are left out. *)
Record tool_schema : Type := mkToolSchema {
  sch_name : string;
  sch_properties : list (string * json_type);
  sch_required : list string;
}.

(** [self.tools], the catalogue of [TodoAgent.__init__]. *)
Definition tools : list tool_schema :=
  [ mkToolSchema "add_task"
      [("user_id", JString); ("title", JString); ("description", JString);
       ("priority", JString); ("tags", JArrayOfString); ("due_date", JString)]
      ["user_id"; "title"];
    mkToolSchema "list_tasks"
      [("user_id", JString); ("status", JString); ("priority", JString);
       ("tags", JArrayOfString); ("limit", JInteger)]
      ["user_id"];
    mkToolSchema "update_task"
      [("user_id", JString); ("task_id", JString); ("title", JString);
       ("description", JString); ("status", JString); ("priority", JString);
       ("tags", JArrayOfString); ("due_date", JString)]
      ["user_id"; "task_id"];
    mkToolSchema "complete_task"
      [("user_id", JString); ("task_id", JString)]
      ["user_id"; "task_id"];
    mkToolSchema "delete_task"
      [("user_id", JString); ("task_id", JString)]
      ["user_id"; "task_id"] ].

(** A value is of a type of the catalogue. *)
Definition has_type (ty : json_type) (v : pyval) : bool :=
  match ty, v with
  | JString, PStr _ => true
  | JArrayOfString, PList l => forallb (λ x, bool_decide (is_Some (as_str x))) l
  | JInteger, PInt _ => true
  | _, _ => false
  end.

(** An argument object conforms to an entry of the catalogue: each of
    its keys is a property of the entry and holds a value of the type of
    that property, and every required property other than ["user_id"],
    which the agent supplies itself, is there. *)
Definition conforms (s : tool_schema) (kwargs : pydict) : Prop :=
  map_Forall (λ k v, ∃ ty, (k, ty) ∈ sch_properties s ∧ has_type ty v = true) kwargs
  ∧ Forall (λ k, k = "user_id" ∨ is_Some (kwargs !! k)) (sch_required s).

(** What a well-typed argument object holds under the key [k]: nothing,
    or a value of the type [ty]. *)
Definition typed (kwargs : pydict) (k : string) (ty : json_type) : Prop :=
  match kwargs !! k with
  | Some v => has_type ty v = true
  | None => True
  end.

(** What [run] returns for a completion that asks for no tool:
    [message.content or "I apologize, ..."]. *)
Definition final_response (message : completion) : string :=
  if truthy_opt (cm_content message) then default "" (cm_content message)
  else NO_CONTENT_REPLY.

(** ** A sample environment

    Concrete answers of the environment and concrete worlds, on which the
    functions below can be run. *)
Module Sample.

(** A clock that reads the number of the consultation. *)
Definition clock (n : nat) : datetime := Z.of_nat n.

Fixpoint stars (n : nat) : string :=
  match n with
  | O => ""
  | S n => String "*" (stars n)
  end.

(** An id generator that never repeats itself. *)
Definition uuids (n : nat) : string := "uuid-" +:+ stars n.

Definition reliable (n : nat) : bool := false.

Definition no_date (s : string) : option datetime := None.

Definition iso (d : datetime) : string := "".

Definition contains (column tag : string) : bool := String.eqb column tag.

(** A parser that knows three payloads by name: one that carries a
    foreign ["user_id"], the same without it, and the empty object. *)
Definition loads (s : string) : exn + pyval :=
  if String.eqb s "milk-for-mallory" then
    inr (PDict (dict [("user_id", PStr "mallory"); ("title", PStr "Buy milk")]))
  else if String.eqb s "milk" then
    inr (PDict (dict [("title", PStr "Buy milk")]))
  else if String.eqb s "{}" then inr (PDict ∅)
  else inl (JSONDecodeError "Expecting value").

Definition dumps (d : pydict) : string := "".

(** A model that always asks for the caller's tasks to be listed. *)
Definition model_lists (n : nat) (messages : list chat_entry) : exn + completion :=
  inr {| cm_content := None;
         cm_tool_calls := Some [mkToolCall "call-1" "list_tasks" "{}"] |}.

(** A model that cannot be reached. *)
Definition model_down (n : nat) (messages : list chat_entry) : exn + completion :=
  inl (APIError "Connection error.").

Definition api_key : option string := Some "sk-test".

Definition prompt : string := "You are a helpful TODO task assistant.".

Definition alice_task : Task :=
  {| task_title := "Buy milk";
     task_description := None;
     task_completed := false;
     task_priority := "Medium";
     task_status := "ready";
     task_tags := "";
     task_recurrence_pattern := None;
     task_recurrence_interval := 1;
     task_due_date := None;
     task_user_id := "alice";
     task_created_at := 0;
     task_updated_at := 0 |}.

Definition finished_task : Task :=
  {| task_title := "File the report";
     task_description := None;
     task_completed := true;
     task_priority := "High";
     task_status := "done";
     task_tags := "work";
     task_recurrence_pattern := None;
     task_recurrence_interval := 1;
     task_due_date := None;
     task_user_id := "alice";
     task_created_at := 0;
     task_updated_at := 0 |}.

Definition alice_conversation : Conversation :=
  {| conv_user_id := "alice";
     conv_title := Some "New Conversation";
     conv_created_at := 0;
     conv_updated_at := 0;
     conv_is_active := true |}.

Definition m1 : Message := mkMessage (Some 1) 1 "user" "Add a task to buy milk" 10.
Definition m2 : Message := mkMessage (Some 2) 1 "assistant" "Created: Buy milk" 20.
Definition m3 : Message := mkMessage (Some 3) 2 "user" "Show me my tasks" 25.
Definition m4 : Message := mkMessage (Some 4) 1 "user" "Mark it as done" 30.

(** Two tasks of alice, no conversation. *)
Definition w_tasks : world :=
  {| tasks := list_to_map [("t1", alice_task); ("t2", finished_task)];
     conversations := ∅;
     messages := [];
     conversation_seq := 0;
     message_seq := 0;
     tick := 0;
     llm_calls := 0 |}.

(** A conversation of alice without messages. *)
Definition w_conversation : world :=
  {| tasks := ∅;
     conversations := {[ 1 := alice_conversation ]};
     messages := [];
     conversation_seq := 1;
     message_seq := 0;
     tick := 0;
     llm_calls := 0 |}.

(** Two conversations of alice, the first with three messages. *)
Definition w_history : world :=
  {| tasks := ∅;
     conversations := list_to_map [(1, alice_conversation); (2, alice_conversation)];
     messages := [m1; m2; m3; m4];
     conversation_seq := 2;
     message_seq := 4;
     tick := 0;
     llm_calls := 0 |}.

(** A storage whose fifth operation fails and every other succeeds. *)
Definition refresh_fails (n : nat) : bool := Nat.eqb n 4.

(** A model that answers in plain text. *)
Definition model_replies (n : nat) (messages : list chat_entry) : exn + completion :=
  inr {| cm_content := Some "You have two tasks."; cm_tool_calls := None |}.

(** A deployment without an API key. *)
Definition no_api_key : option string := None.

(** A model that asks once for the caller's tasks to be listed, and then
    answers in plain text. *)
Definition model_lists_once (n : nat) (messages : list chat_entry)
    : exn + completion :=
  match n with
  | O => inr {| cm_content := None;
                cm_tool_calls := Some [mkToolCall "call-1" "list_tasks" "{}"] |}
  | S _ => inr {| cm_content := Some "You have two tasks."; cm_tool_calls := None |}
  end.

End Sample.

Section Core.

#[local] Set Default Proof Using "Type".

(** *** The environment

    Each of these is an answer the program obtains from outside: the
    clock, the UUID generator and the storage faults by the position of
    the consultation ([tick]); the model by the position of the call and
    the working context it is sent; the parsers and printers by their
    argument. *)
Variable utcnow_at : nat → datetime.
Variable uuid4_at : nat → string.
Variable db_fault_at : nat → bool.
Variable fromisoformat : string → option datetime.
Variable isoformat : datetime → string.
Variable column_contains : string → string → bool.

(** [datetime.utcnow()]. *)
Definition utcnow : M datetime :=
  λ w, (inr (utcnow_at (tick w)), next_tick w).

(** [generate_uuid()], the default of the [id] column. *)
Definition generate_uuid : M string :=
  λ w, (inr (uuid4_at (tick w)), next_tick w).

(** One exchange with the database server, which may fail. *)
Definition db_roundtrip : M unit :=
  λ w, if db_fault_at (tick w)
       then (inl (DatabaseError "connection failure"), next_tick w)
       else (inr tt, next_tick w).

(** [await session.commit()]: all pending changes or none. *)
Definition session_commit (db : AsyncSession) : M AsyncSession :=
  _ <- db_roundtrip ;;
  λ w, match apply_all db w with
       | inr w' => (inr [], w')
       | inl e => (inl e, w)
       end.

(** [select(Task).where(Task.id == task_id, Task.user_id == user_id)]
    followed by [scalar_one_or_none()]: the row under the primary key,
    if it is there and its owner is [user_id]. *)
Definition owned_row (table : gmap string Task) (task_id user_id : string)
    : option Task :=
  match table !! task_id with
  | Some t => if decide (task_user_id t = user_id) then Some t else None
  | None => None
  end.

Definition select_task (task_id user_id : string) : M (option Task) :=
  _ <- db_roundtrip ;;
  λ w, (inr (owned_row (tasks w) task_id user_id), w).

(** [await db.refresh(task)]: the row as stored. *)
Definition session_refresh (task_id : string) : M Task :=
  _ <- db_roundtrip ;;
  λ w, match tasks w !! task_id with
       | Some t => (inr t, w)
       | None => (inl (DatabaseError "InvalidRequestError: could not refresh"), w)
       end.

(** [async with get_db_session() as db: body]: commit on leaving the
    block normally (also by [return]), roll back and re-raise on an
    exception; the rollback drops the session's pending changes. *)
Definition get_db_session {A} (body : AsyncSession → M (A * AsyncSession)) : M A :=
  r <- body [] ;;
  _ <- session_commit (snd r) ;;
  ret (fst r).

(** *** The tools ([app/mcp/server.py]) *)

Definition failure (error : string) : pydict :=
  dict [("success", PBool false); ("error", PStr error)].

Definition due_date_out (t : Task) : pyval :=
  match task_due_date t with
  | Some d => PStr (isoformat d)
  | None => PNone
  end.

Definition INVALID_DUE_DATE : string :=
  "Invalid due_date format. Use ISO 8601 (YYYY-MM-DD or YYYY-MM-DDTHH:MM:SS)".

Definition add_task (user_id title : string) (description : option string)
    (priority : string) (tags : option (list string))
    (due_date : option string) : M pydict :=
  try_except
    (if negb (truthy title) || (Str.len title >? 200) then
       ret (failure "Title is required and must be 200 characters or less")
     else if truthy_opt description
             && (Str.len (default "" description) >? 1000) then
       ret (failure "Description must be 1000 characters or less")
     else if negb (Str.mem priority PRIORITIES) then
       ret (failure "Priority must be one of: Low, Medium, High")
     else
       let create (parsed_due_date : option datetime) : M pydict :=
         get_db_session (λ db,
           id <- generate_uuid ;;
           created_at <- utcnow ;;
           updated_at <- utcnow ;;
           let task :=
             {| task_user_id := user_id;
                task_title := title;
                task_description := description;
                task_priority := priority;
                task_tags := tags_in tags;
                task_due_date := parsed_due_date;
                task_completed := false;
                task_status := "ready";
                task_recurrence_pattern := None;
                task_recurrence_interval := 1;
                task_created_at := created_at;
                task_updated_at := updated_at |} in
           let db := session_add db (InsertTask id task) in
           db <- session_commit db ;;
           task <- session_refresh id ;;
           ret (dict [("success", PBool true);
                      ("data", PDict (dict [
                         ("id", PStr id);
                         ("title", PStr (task_title task));
                         ("description", opt_str (task_description task));
                         ("priority", PStr (task_priority task));
                         ("tags", PList (PStr <$> tags_out (task_tags task)));
                         ("due_date", due_date_out task);
                         ("completed", PBool (task_completed task));
                         ("status", PStr (task_status task));
                         ("created_at", PStr (isoformat (task_created_at task)))]))],
                db)) in
       if truthy_opt due_date then
         match fromisoformat (Str.replace_Z (default "" due_date)) with
         | Some d => create (Some d)
         | None => ret (failure INVALID_DUE_DATE)
         end
       else create None)
    (λ e, ret (failure ("Failed to create task: " +:+ exn_str e))).

(** The rows selected by [list_tasks]: the owner's, narrowed by each
    filter that is supplied, cut at [limit].  No order is requested; the
    rows come in the order of the table. *)
Definition matching_tasks (user_id : string) (status priority : option string)
    (tags : option (list string)) (limit : Z) (table : gmap string Task)
    : list (string * Task) :=
  let by_user := filter (λ r, task_user_id r.2 = user_id) (map_to_list table) in
  let by_status :=
    if truthy_opt status then
      filter (λ r, task_completed r.2
                   = bool_decide (default "" status = "completed")) by_user
    else by_user in
  let by_priority :=
    if truthy_opt priority then
      filter (λ r, task_priority r.2 = default "" priority) by_status
    else by_status in
  let by_tags :=
    match tags with
    | Some (tag :: more) =>
        filter (λ r, existsb (column_contains (task_tags r.2)) (tag :: more) = true)
               by_priority
    | _ => by_priority
    end in
  take (Z.to_nat limit) by_tags.

Definition select_tasks (user_id : string) (status priority : option string)
    (tags : option (list string)) (limit : Z) : M (list (string * Task)) :=
  _ <- db_roundtrip ;;
  λ w, (inr (matching_tasks user_id status priority tags limit (tasks w)), w).

Definition listed_task (r : string * Task) : pyval :=
  let task := r.2 in
  PDict (dict [
    ("id", PStr r.1);
    ("title", PStr (task_title task));
    ("description", opt_str (task_description task));
    ("priority", PStr (task_priority task));
    ("tags", PList (PStr <$> tags_out (task_tags task)));
    ("due_date", due_date_out task);
    ("completed", PBool (task_completed task));
    ("status", PStr (task_status task));
    ("created_at", PStr (isoformat (task_created_at task)))]).

Definition list_tasks (user_id : string) (status priority : option string)
    (tags : option (list string)) (limit : Z) : M pydict :=
  try_except
    (if (limit <? 1) || (limit >? 100) then
       ret (failure "Limit must be between 1 and 100")
     else if truthy_opt priority
             && negb (Str.mem (default "" priority) PRIORITIES) then
       ret (failure "Priority must be one of: Low, Medium, High")
     else if truthy_opt status
             && negb (Str.mem (default "" status) LIST_STATUSES) then
       ret (failure "Status must be one of: pending, completed")
     else
       get_db_session (λ db,
         tasks <- select_tasks user_id status priority tags limit ;;
         ret (dict [("success", PBool true);
                    ("data", PList (listed_task <$> tasks));
                    ("count", PInt (Z.of_nat (length tasks)))],
              db)))
    (λ e, ret (failure ("Failed to retrieve tasks: " +:+ exn_str e))).

(** The assignments of [update_task] to the loaded row, in the order of
    the source; [completed] is set when the new status is ["done"] and
    is not touched otherwise. *)
Definition apply_update (task : Task) (title description status priority : option string)
    (tags : option (list string)) (parsed_due_date : option datetime)
    (now : datetime) : Task :=
  {| task_title := default (task_title task) title;
     task_description :=
       match description with Some d => Some d | None => task_description task end;
     task_status := default (task_status task) status;
     task_completed :=
       match status with
       | Some st => if bool_decide (st = "done") then true else task_completed task
       | None => task_completed task
       end;
     task_priority := default (task_priority task) priority;
     task_tags :=
       match tags with Some l => Str.join "," l | None => task_tags task end;
     task_due_date :=
       match parsed_due_date with Some d => Some d | None => task_due_date task end;
     task_updated_at := now;
     task_recurrence_pattern := task_recurrence_pattern task;
     task_recurrence_interval := task_recurrence_interval task;
     task_user_id := task_user_id task;
     task_created_at := task_created_at task |}.

Definition update_task (user_id task_id : string)
    (title description status priority : option string)
    (tags : option (list string)) (due_date : option string) : M pydict :=
  try_except
    (if bool_decide (title = None) && bool_decide (description = None)
        && bool_decide (status = None) && bool_decide (priority = None)
        && bool_decide (tags = None) && bool_decide (due_date = None) then
       ret (failure "At least one field must be provided to update")
     else if match title with
             | Some t => negb (truthy t) || (Str.len t >? 200)
             | None => false
             end then
       ret (failure "Title must be between 1 and 200 characters")
     else if match description with
             | Some d => Str.len d >? 1000
             | None => false
             end then
       ret (failure "Description must be 1000 characters or less")
     else if match priority with
             | Some p => negb (Str.mem p PRIORITIES)
             | None => false
             end then
       ret (failure "Priority must be one of: Low, Medium, High")
     else if match status with
             | Some st => negb (Str.mem st KANBAN_STATUSES)
             | None => false
             end then
       ret (failure "Status must be one of: ready, in_progress, done")
     else
       let update (parsed_due_date : option datetime) : M pydict :=
         get_db_session (λ db,
           found <- select_task task_id user_id ;;
           match found with
           | None => ret (failure NOT_FOUND, db)
           | Some task =>
               now <- utcnow ;;
               let task :=
                 apply_update task title description status priority tags
                              parsed_due_date now in
               let db := session_add db (UpdateTask task_id task) in
               db <- session_commit db ;;
               task <- session_refresh task_id ;;
               ret (dict [("success", PBool true);
                          ("data", PDict (dict [
                             ("id", PStr task_id);
                             ("title", PStr (task_title task));
                             ("description", opt_str (task_description task));
                             ("priority", PStr (task_priority task));
                             ("tags", PList (PStr <$> tags_out (task_tags task)));
                             ("due_date", due_date_out task);
                             ("completed", PBool (task_completed task));
                             ("status", PStr (task_status task));
                             ("updated_at", PStr (isoformat (task_updated_at task)))]))],
                    db)
           end) in
       match due_date with
       | Some d =>
           match fromisoformat (Str.replace_Z d) with
           | Some parsed => update (Some parsed)
           | None => ret (failure INVALID_DUE_DATE)
           end
       | None => update None
       end)
    (λ e, ret (failure ("Failed to update task: " +:+ exn_str e))).

Definition mark_completed (task : Task) (now : datetime) : Task :=
  {| task_completed := true;
     task_status := "done";
     task_updated_at := now;
     task_title := task_title task;
     task_description := task_description task;
     task_priority := task_priority task;
     task_tags := task_tags task;
     task_recurrence_pattern := task_recurrence_pattern task;
     task_recurrence_interval := task_recurrence_interval task;
     task_due_date := task_due_date task;
     task_user_id := task_user_id task;
     task_created_at := task_created_at task |}.

Definition complete_task (user_id task_id : string) : M pydict :=
  try_except
    (get_db_session (λ db,
       found <- select_task task_id user_id ;;
       match found with
       | None => ret (failure NOT_FOUND, db)
       | Some task =>
           now <- utcnow ;;
           let task := mark_completed task now in
           let db := session_add db (UpdateTask task_id task) in
           db <- session_commit db ;;
           task <- session_refresh task_id ;;
           ret (dict [("success", PBool true);
                      ("data", PDict (dict [
                         ("id", PStr task_id);
                         ("title", PStr (task_title task));
                         ("completed", PBool (task_completed task));
                         ("status", PStr (task_status task));
                         ("updated_at", PStr (isoformat (task_updated_at task)))]));
                      ("message",
                       PStr ("Task '" +:+ task_title task +:+ "' marked as completed"))],
                db)
       end))
    (λ e, ret (failure ("Failed to complete task: " +:+ exn_str e))).

Definition delete_task (user_id task_id : string) : M pydict :=
  try_except
    (get_db_session (λ db,
       found <- select_task task_id user_id ;;
       match found with
       | None => ret (failure NOT_FOUND, db)
       | Some task =>
           let task_info :=
             dict [("id", PStr task_id);
                   ("title", PStr (task_title task));
                   ("deleted", PBool true)] in
           let db := session_add db (DeleteTask task_id) in
           db <- session_commit db ;;
           ret (dict [("success", PBool true);
                      ("data", PDict task_info);
                      ("message",
                       PStr ("Task '" +:+ task_title task
                             +:+ "' has been permanently deleted"))],
                db)
       end))
    (λ e, ret (failure ("Failed to delete task: " +:+ exn_str e))).

(** *** The agent ([app/ai/agent.py]) *)

Variable json_loads : string → exn + pyval.
Variable json_dumps : pydict → string.
Variable chat_completions_create : nat → list chat_entry → exn + completion.

(** [self.tool_functions]: the name-keyed table of the five tools. *)
Definition tool_functions : gmap string tool :=
  list_to_map [("add_task", Tool_add_task);
               ("list_tasks", Tool_list_tasks);
               ("update_task", Tool_update_task);
               ("complete_task", Tool_complete_task);
               ("delete_task", Tool_delete_task)].

(** Calling [tool_func] with the dict [tool_args] unpacked into keyword
    arguments: the keyword arguments are bound to
    the parameters of the tool, then the tool runs.  Binding raises
    [TypeError] on an unexpected keyword and on a missing required one.
    The tools are embedded at their annotated types; a value of another
    type is outside this embedding, and the call is taken to raise
    [TypeError] as well. *)
Definition call_tool (f : tool) (kwargs : pydict) : M pydict :=
  match f with
  | Tool_add_task =>
      _ <- lift (check_signature
                   ["user_id"; "title"; "description"; "priority"; "tags"; "due_date"]
                   ["user_id"; "title"] kwargs) ;;
      user_id <- lift (arg_str kwargs "user_id") ;;
      title <- lift (arg_str kwargs "title") ;;
      description <- lift (arg_opt_str kwargs "description") ;;
      priority <- lift (arg_str_default kwargs "priority" "Medium") ;;
      tags <- lift (arg_opt_str_list kwargs "tags") ;;
      due_date <- lift (arg_opt_str kwargs "due_date") ;;
      add_task user_id title description priority tags due_date
  | Tool_list_tasks =>
      _ <- lift (check_signature
                   ["user_id"; "status"; "priority"; "tags"; "limit"]
                   ["user_id"] kwargs) ;;
      user_id <- lift (arg_str kwargs "user_id") ;;
      status <- lift (arg_opt_str kwargs "status") ;;
      priority <- lift (arg_opt_str kwargs "priority") ;;
      tags <- lift (arg_opt_str_list kwargs "tags") ;;
      limit <- lift (arg_int_default kwargs "limit" 20) ;;
      list_tasks user_id status priority tags limit
  | Tool_update_task =>
      _ <- lift (check_signature
                   ["user_id"; "task_id"; "title"; "description"; "status";
                    "priority"; "tags"; "due_date"]
                   ["user_id"; "task_id"] kwargs) ;;
      user_id <- lift (arg_str kwargs "user_id") ;;
      task_id <- lift (arg_str kwargs "task_id") ;;
      title <- lift (arg_opt_str kwargs "title") ;;
      description <- lift (arg_opt_str kwargs "description") ;;
      status <- lift (arg_opt_str kwargs "status") ;;
      priority <- lift (arg_opt_str kwargs "priority") ;;
      tags <- lift (arg_opt_str_list kwargs "tags") ;;
      due_date <- lift (arg_opt_str kwargs "due_date") ;;
      update_task user_id task_id title description status priority tags due_date
  | Tool_complete_task =>
      _ <- lift (check_signature ["user_id"; "task_id"] ["user_id"; "task_id"] kwargs) ;;
      user_id <- lift (arg_str kwargs "user_id") ;;
      task_id <- lift (arg_str kwargs "task_id") ;;
      complete_task user_id task_id
  | Tool_delete_task =>
      _ <- lift (check_signature ["user_id"; "task_id"] ["user_id"; "task_id"] kwargs) ;;
      user_id <- lift (arg_str kwargs "user_id") ;;
      task_id <- lift (arg_str kwargs "task_id") ;;
      delete_task user_id task_id
  end.

Definition _execute_tool_call (tool_call : tool_call) (user_id : string) : M pydict :=
  let tool_name := tc_name tool_call in
  try_except
    (tool_args <- lift (json_loads (tc_arguments tool_call)) ;;
     match tool_functions !! tool_name with
     | None => ret (failure ("Unknown tool: " +:+ tool_name))
     | Some tool_func =>
         tool_args <- lift (setitem tool_args "user_id" (PStr user_id)) ;;
         result <- call_tool tool_func tool_args ;;
         ret result
     end)
    (λ e, ret (failure ("Tool execution failed: " +:+ exn_str e))).

(** [await self.client.chat.completions.create(...)] and
    [response.choices[0].message]. *)
Definition create_completion (messages : list chat_entry) : M completion :=
  λ w, (chat_completions_create (llm_calls w) messages, count_llm_call w).

(** The [for tool_call in message.tool_calls] loop of [run]. *)
Fixpoint execute_tool_calls (tool_calls : list tool_call) (user_id : string)
    (current_messages : list chat_entry) : M (list chat_entry) :=
  match tool_calls with
  | [] => ret current_messages
  | tool_call :: rest =>
      tool_result <- _execute_tool_call tool_call user_id ;;
      execute_tool_calls rest user_id
        (current_messages ++ [ToolEntry (tc_id tool_call) (json_dumps tool_result)])
  end.

(** The body of the [while] loop of [run]: one model call and the tool
    calls it asks for, under the [try] that re-raises any exception as an
    API error. *)
Definition run_iteration (current_messages : list chat_entry) (user_id : string)
    : M iteration :=
  try_except
    (message <- create_completion current_messages ;;
     let current_messages :=
       current_messages
       ++ [AssistantEntry (default "" (cm_content message))
             (if requests_tools message then cm_tool_calls message else None)] in
     if requests_tools message then
       current_messages <-
         execute_tool_calls (default [] (cm_tool_calls message)) user_id
                            current_messages ;;
       ret (Continue current_messages)
     else
       ret (Return (if truthy_opt (cm_content message)
                    then default "" (cm_content message)
                    else NO_CONTENT_REPLY)))
    (λ e, raise (Exception ("OpenAI API error: " +:+ exn_str e))).

(** The [while iterations < max_iterations] loop, by the number of
    iterations that remain. *)
Fixpoint run_loop (remaining : nat) (current_messages : list chat_entry)
    (user_id : string) : M string :=
  match remaining with
  | O => ret FALLBACK_REPLY
  | S remaining =>
      it <- run_iteration current_messages user_id ;;
      match it with
      | Return text => ret text
      | Continue current_messages => run_loop remaining current_messages user_id
      end
  end.

Definition run (messages : list chat_entry) (user_id : string)
    (max_iterations : Z) : M string :=
  run_loop (Z.to_nat max_iterations) messages user_id.

(** [get_agent()]: the agent is constructed from fixed configuration,
    and its construction raises when no API key is configured. *)
Variable configured_api_key : option string.

Definition get_agent : M unit :=
  if truthy_opt configured_api_key then ret tt
  else raise (ValueError
    "OpenAI API key not provided. Set OPENAI_API_KEY environment variable.").

(** *** The chat request handler ([app/routers/chat.py]) *)

Variable TODO_ASSISTANT_SYSTEM_PROMPT : string.

(** [select(Conversation).where(Conversation.id == conversation_id,
    Conversation.user_id == user_id)] and [scalar_one_or_none()].  Ids
    are unbounded here; the id column of the program is a signed 32-bit
    integer, and a lookup by an id outside its range fails there. *)
Definition select_conversation (conversation_id : Z) (user_id : string)
    : M (option Conversation) :=
  _ <- db_roundtrip ;;
  λ w, (inr (match conversations w !! conversation_id with
             | Some c => if decide (conv_user_id c = user_id) then Some c else None
             | None => None
             end), w).

(** [await session.flush()] for a new conversation: the insert is sent
    inside the open transaction and the id sequence hands out the next
    id; the row stays uncommitted. *)
Definition flush_new_conversation : M Z :=
  _ <- db_roundtrip ;;
  λ w, let id := conversation_seq w + 1 in
       (inr id, set_conversation_seq id w).

(** The [else] branch of [get_or_create_conversation]. *)
Definition new_conversation (session : AsyncSession) (user_id : string)
    : M (Z * Conversation * AsyncSession) :=
  created_at <- utcnow ;;
  updated_at <- utcnow ;;
  let conversation :=
    {| conv_user_id := user_id;
       conv_title := Some "New Conversation";
       conv_created_at := created_at;
       conv_updated_at := updated_at;
       conv_is_active := true |} in
  id <- flush_new_conversation ;;
  ret (id, conversation, session_add session (InsertConversation id conversation)).

Definition get_or_create_conversation (session : AsyncSession) (user_id : string)
    (conversation_id : option Z) : M (Z * Conversation * AsyncSession) :=
  match conversation_id with
  | Some id =>
      if bool_decide (id = 0) then new_conversation session user_id
      else
        found <- select_conversation id user_id ;;
        match found with
        | None => raise (HTTPException 404 "Conversation not found or access denied")
        | Some conversation =>
            now <- utcnow ;;
            let conversation :=
              {| conv_user_id := conv_user_id conversation;
                 conv_title := conv_title conversation;
                 conv_created_at := conv_created_at conversation;
                 conv_updated_at := now;
                 conv_is_active := conv_is_active conversation |} in
            ret (id, conversation,
                 session_add session (UpdateConversation id conversation))
        end
  | None => new_conversation session user_id
  end.

Definition get_conversation_messages (session : AsyncSession) (conversation_id : Z)
    (limit : Z) : M (list Message) :=
  _ <- db_roundtrip ;;
  if limit <? 0 then raise (DatabaseError "LIMIT must not be negative")
  else
    λ w,
      let of_conversation :=
        filter (λ m, msg_conversation_id m = conversation_id)
               (messages w ++ session_messages session) in
      let messages :=
        take (Z.to_nat limit) (order_by_created_at_desc of_conversation) in
      (inr (reverse messages), w).

Definition store_message (session : AsyncSession) (conversation_id : Z)
    (role content : string) : M (Message * AsyncSession) :=
  created_at <- utcnow ;;
  let message :=
    {| msg_id := None;
       msg_conversation_id := conversation_id;
       msg_role := role;
       msg_content := content;
       msg_created_at := created_at |} in
  ret (message, session_add session (InsertMessage message)).

Definition send_chat_message (request : ChatMessageRequest) (current_user : User)
    (session : AsyncSession) : M ChatMessageResponse :=
  let user_id := usr_id current_user in
  try_except
    (r <- get_or_create_conversation session user_id (req_conversation_id request) ;;
     let conversation_id := r.1.1 in
     let session := r.2 in
     messages_history <- get_conversation_messages session conversation_id 20 ;;
     r <- store_message session conversation_id "user" (req_message request) ;;
     let session := r.2 in
     let message_array :=
       [Entry "system" TODO_ASSISTANT_SYSTEM_PROMPT]
       ++ ((λ msg, Entry (msg_role msg) (msg_content msg)) <$> messages_history)
       ++ [Entry "user" (req_message request)] in
     _ <- get_agent ;;
     response_text <-
       try_except (run message_array user_id 5)
         (λ e, raise (HTTPException 500
            "AI service is currently unavailable. Please try again later.")) ;;
     r <- store_message session conversation_id "assistant" response_text ;;
     let session := r.2 in
     _ <- session_commit session ;;
     ret {| resp_conversation_id := conversation_id;
            resp_response := response_text |})
    (λ e, if is_HTTPException e then raise e
          else raise (HTTPException 500
                 "An unexpected error occurred. Please try again.")).

(** The endpoint as the framework calls it: [Depends(get_session)] opens
    a session for the request and closes it afterwards, which drops
    whatever the handler left uncommitted. *)
Definition post_chat_message (request : ChatMessageRequest) (current_user : User)
    : M ChatMessageResponse :=
  send_chat_message request current_user [].

(** *** Predicates used in the statements *)

(** A structured result: a dict with a boolean under ["success"], and
    with a string under ["error"] when that boolean is false. *)
Definition structured (d : pydict) : Prop :=
  ∃ b, d !! "success" = Some (PBool b)
       ∧ (b = false → ∃ error, d !! "error" = Some (PStr error)).

(** The row, if any, is owned by [user_id]. *)
Definition owned_by (user_id : string) (row : option Task) : Prop :=
  ∀ t, row = Some t → task_user_id t = user_id.

(** From [w] to [w'] only rows of [user_id] were created, changed or
    removed: every id holds the same row as before, or rows of
    [user_id] before and after. *)
Definition only_touches (user_id : string) (w w' : world) : Prop :=
  ∀ id, tasks w' !! id = tasks w !! id
        ∨ (owned_by user_id (tasks w !! id) ∧ owned_by user_id (tasks w' !! id)).

(** What a tool call on behalf of [user_id] leaves alone: the rows of
    everybody else, the conversations, the messages, the sequences and
    the count of model calls. *)
Definition frame (user_id : string) (w w' : world) : Prop :=
  only_touches user_id w w'
  ∧ messages w' = messages w
  ∧ conversations w' = conversations w
  ∧ conversation_seq w' = conversation_seq w
  ∧ message_seq w' = message_seq w
  ∧ llm_calls w' = llm_calls w.

(** The arguments of an [update_task] call get past its validation:
    none of its five checks rejects them and the due date, if any,
    parses. *)
Definition update_arguments_valid (title description status priority : option string)
    (tags : option (list string)) (due_date : option string) : bool :=
  negb (bool_decide (title = None) && bool_decide (description = None)
        && bool_decide (status = None) && bool_decide (priority = None)
        && bool_decide (tags = None) && bool_decide (due_date = None))
  && negb match title with
          | Some t => negb (truthy t) || (Str.len t >? 200)
          | None => false
          end
  && negb match description with
          | Some d => Str.len d >? 1000
          | None => false
          end
  && negb match priority with
          | Some p => negb (Str.mem p PRIORITIES)
          | None => false
          end
  && negb match status with
          | Some st => negb (Str.mem st KANBAN_STATUSES)
          | None => false
          end
  && match due_date with
     | Some d => bool_decide (is_Some (fromisoformat (Str.replace_Z d)))
     | None => true
     end.

(** What a run of the agent on behalf of [user_id] leaves alone: as
    [frame], but for the count of model calls. *)
Definition agent_frame (user_id : string) (w w' : world) : Prop :=
  only_touches user_id w w'
  ∧ messages w' = messages w
  ∧ conversations w' = conversations w
  ∧ conversation_seq w' = conversation_seq w
  ∧ message_seq w' = message_seq w.

(** The model capability, on every invocation, answers with a request
    for at least one tool call. *)
Definition always_requests_tools : Prop :=
  ∀ n messages, ∃ c, chat_completions_create n messages = inr c
                     ∧ requests_tools c = true.

(** The row [t] with another update timestamp and nothing else changed. *)
Definition with_updated_at (t : Task) (updated_at : datetime) : Task :=
  {| task_updated_at := updated_at;
     task_title := task_title t;
     task_description := task_description t;
     task_completed := task_completed t;
     task_priority := task_priority t;
     task_status := task_status t;
     task_tags := task_tags t;
     task_recurrence_pattern := task_recurrence_pattern t;
     task_recurrence_interval := task_recurrence_interval t;
     task_due_date := task_due_date t;
     task_user_id := task_user_id t;
     task_created_at := task_created_at t |}.

(** The call is refused: it returns a failure result and the table of
    tasks is as it was. *)
Definition refused (call : M pydict) (w : world) : Prop :=
  ∃ d w', call w = (inr d, w')
          ∧ d !! "success" = Some (PBool false)
          ∧ tasks w' = tasks w.

(** The call is refused with the error "Task not found or access
    denied". *)
Definition denied (call : M pydict) (w : world) : Prop :=
  ∃ w', call w = (inr (failure NOT_FOUND), w') ∧ tasks w' = tasks w.

(** The storage never fails. *)
Definition storage_reliable : Prop := ∀ n, db_fault_at n = false.

(** *** Predicates used in the further properties *)

(** The arguments of an [add_task] call get past its validation: none of
    its three checks rejects them and the due date, if one is given,
    parses. *)
Definition add_arguments_valid (title : string) (description : option string)
    (priority : string) (due_date : option string) : bool :=
  negb (negb (truthy title) || (Str.len title >? 200))
  && negb (truthy_opt description
           && (Str.len (default "" description) >? 1000))
  && negb (negb (Str.mem priority PRIORITIES))
  && (if truthy_opt due_date
      then bool_decide (is_Some (fromisoformat (Str.replace_Z (default "" due_date))))
      else true).

(** The arguments of a [list_tasks] call get past its validation. *)
Definition list_arguments_valid (status priority : option string) (limit : Z)
    : bool :=
  negb ((limit <? 1) || (limit >? 100))
  && negb (truthy_opt priority
           && negb (Str.mem (default "" priority) PRIORITIES))
  && negb (truthy_opt status
           && negb (Str.mem (default "" status) LIST_STATUSES)).

(** The rows of [user_id], in the order of the table:
    [select(Task).where(Task.user_id == user_id)]. *)
Definition owned_rows (user_id : string) (table : gmap string Task)
    : list (string * Task) :=
  filter (λ r, task_user_id r.2 = user_id) (map_to_list table).

(** From [w] to [w'] nothing that is stored has changed, and no model
    call was made; the position of the clock may differ. *)
Definition same_store (w w' : world) : Prop :=
  tasks w' = tasks w
  ∧ messages w' = messages w
  ∧ conversations w' = conversations w
  ∧ conversation_seq w' = conversation_seq w
  ∧ message_seq w' = message_seq w
  ∧ llm_calls w' = llm_calls w.

(** A tool call that cannot be turned into a call of a tool: its payload
    does not parse, or its name is not the name of a tool, or its payload
    is not an object, or the object has a key that is no parameter of the
    tool, or lacks a parameter that has no default (other than
    ["user_id"], which the agent supplies). *)
Inductive malformed (tool_call : tool_call) : Prop :=
  | Unparsable e :
      json_loads (tc_arguments tool_call) = inl e → malformed tool_call
  | UnknownTool v :
      json_loads (tc_arguments tool_call) = inr v →
      tool_functions !! tc_name tool_call = None → malformed tool_call
  | NotAnObject v :
      json_loads (tc_arguments tool_call) = inr v →
      (∀ d, v ≠ PDict d) → malformed tool_call
  | UnexpectedKeyword d f k :
      json_loads (tc_arguments tool_call) = inr (PDict d) →
      tool_functions !! tc_name tool_call = Some f →
      is_Some (d !! k) → k ∉ (signature f).1 → malformed tool_call
  | MissingArgument d f k :
      json_loads (tc_arguments tool_call) = inr (PDict d) →
      tool_functions !! tc_name tool_call = Some f →
      k ∈ (signature f).2 → k ≠ "user_id" → d !! k = None → malformed tool_call.

(** The errors with which the chat endpoint answers. *)
Definition CONVERSATION_NOT_FOUND : exn :=
  HTTPException 404 "Conversation not found or access denied".

Definition AI_UNAVAILABLE : exn :=
  HTTPException 500 "AI service is currently unavailable. Please try again later.".

Definition UNEXPECTED_ERROR : exn :=
  HTTPException 500 "An unexpected error occurred. Please try again.".

(** The conversation history that a request is answered with: the last
    twenty messages of the conversation, oldest first. *)
Definition history_window (conversation_id : Z) (w : world) : list Message :=
  reverse (take 20 (order_by_created_at_desc (conversation_rows conversation_id w))).

(** The working context that the handler builds: the system prompt, the
    history, the new message of the user. *)
Definition message_array (history : list Message) (message : string)
    : list chat_entry :=
  [Entry "system" TODO_ASSISTANT_SYSTEM_PROMPT]
  ++ ((λ msg, Entry (msg_role msg) (msg_content msg)) <$> history)
  ++ [Entry "user" message].

(** The request of [user_id] is served under the conversation [id]: it
    names that conversation, which is stored and belongs to [user_id]; or
    it names none (no id, or the id 0) and [id] is the next id of the
    sequence, not yet taken. *)
Definition serves (request : ChatMessageRequest) (user_id : string) (w : world)
    (id : Z) : Prop :=
  match req_conversation_id request with
  | Some i =>
      if bool_decide (i = 0)
      then id = conversation_seq w + 1 ∧ conversations w !! id = None
      else i = id ∧ ∃ c, conversations w !! id = Some c ∧ conv_user_id c = user_id
  | None => id = conversation_seq w + 1 ∧ conversations w !! id = None
  end.

(** The rows that a query for the messages of a conversation ranges
    over: those of the table and those the session has added, of that
    conversation. *)
Definition visible_rows (session : AsyncSession) (conversation_id : Z) (w : world)
    : list Message :=
  filter (λ m, msg_conversation_id m = conversation_id)
         (messages w ++ session_messages session).

(** ** Facts about computations *)

Lemma outcome_elim {A} (m : M A) Q w : outcome m Q w → Q (m w).1 (m w).2.
Proof. by intros []. Qed.

Lemma outcome_ret {A} (a : A) Q w : Q (inr a) w → outcome (ret a) Q w.
Proof. by constructor. Qed.

Lemma outcome_raise {A} e (Q : exn + A → world → Prop) w :
  Q (inl e) w → outcome (raise e) Q w.
Proof. by constructor. Qed.

Lemma outcome_bind {A B} (m : M A) (k : A → M B) Q w :
  outcome m (λ r w', match r with
                     | inr a => outcome (k a) Q w'
                     | inl e => Q (inl e) w'
                     end) w →
  outcome (bind m k) Q w.
Proof.
  intros [H]. constructor. unfold bind.
  destruct (m w) as [[e|a] w']; simpl in *; [done|]. by destruct H.
Qed.

Lemma outcome_try {A} (m : M A) (h : exn → M A) Q w :
  outcome m (λ r w', match r with
                     | inr a => Q (inr a) w'
                     | inl e => outcome (h e) Q w'
                     end) w →
  outcome (try_except m h) Q w.
Proof.
  intros [H]. constructor. unfold try_except.
  destruct (m w) as [[e|a] w']; simpl in *; [|done]. by destruct H.
Qed.

Lemma outcome_lift {A} (r : exn + A) Q w : Q r w → outcome (lift r) Q w.
Proof. intros H. constructor. by destruct r. Qed.

Lemma outcome_mono {A} (m : M A) (Q Q' : exn + A → world → Prop) w :
  outcome m Q w → (∀ r w', Q r w' → Q' r w') → outcome m Q' w.
Proof. intros [H] HQ. constructor. auto. Qed.

(** A computation that is shown to return, with a postcondition. *)
Lemma outcome_returns {A} (m : M A) w (P : A → world → Prop) :
  outcome m (λ r w', match r with inr a => P a w' | inl _ => False end) w →
  ∃ a w', m w = (inr a, w') ∧ P a w'.
Proof.
  intros [H]. destruct (m w) as [[e|a] w']; simpl in *; [done|]. eauto.
Qed.

Lemma outcome_returns_result {A} (m : M A) w (P : A → world → Prop) :
  outcome m (λ r w', ∃ a, r = inr a ∧ P a w') w →
  ∃ a w', m w = (inr a, w') ∧ P a w'.
Proof.
  intros [H]. destruct (m w) as [r w']; simpl in *.
  destruct H as (a & -> & H). eauto.
Qed.

(** What is known of a run that is given by its equation. *)
Lemma outcome_of_run {A} (m : M A) Q w r w' :
  m w = (r, w') → outcome m Q w → Q r w'.
Proof. intros E [H]. by rewrite E in H. Qed.

(** ** Facts about the tools *)

Lemma failure_success error : failure error !! "success" = Some (PBool false).
Proof. reflexivity. Qed.

Lemma failure_error error : failure error !! "error" = Some (PStr error).
Proof. reflexivity. Qed.

Lemma outcome_roundtrip Q w :
  (db_fault_at (tick w) = true →
   Q (inl (DatabaseError "connection failure")) (next_tick w)) →
  (db_fault_at (tick w) = false → Q (inr tt) (next_tick w)) →
  outcome db_roundtrip Q w.
Proof.
  intros Ht Hf. constructor. unfold db_roundtrip.
  destruct (db_fault_at (tick w)); auto.
Qed.

Lemma structured_failure error : structured (failure error).
Proof. exists false. split; [done|]. intros _. by eexists. Qed.

Lemma structured_success (l : list (string * pyval)) :
  structured (dict (("success", PBool true) :: l)).
Proof.
  exists true. split; [|done]. unfold dict. simpl. apply lookup_insert_eq.
Qed.

Lemma frame_refl user_id w : frame user_id w w.
Proof. split_and!; try done. intros id. by left. Qed.

Lemma frame_trans user_id w1 w2 w3 :
  frame user_id w1 w2 → frame user_id w2 w3 → frame user_id w1 w3.
Proof.
  intros (T1 & ? & ? & ? & ? & ?) (T2 & ? & ? & ? & ? & ?).
  split_and!; try congruence.
  intros id. destruct (T1 id) as [E1|[O1 O1']], (T2 id) as [E2|[O2 O2']].
  - left. congruence.
  - right. split; [by rewrite <- E1|done].
  - right. split; [done|by rewrite E2].
  - by right.
Qed.

(** A world that differs from [w] in its tick only. *)
Lemma frame_ticks user_id w w' :
  tasks w' = tasks w → messages w' = messages w →
  conversations w' = conversations w →
  conversation_seq w' = conversation_seq w → message_seq w' = message_seq w →
  llm_calls w' = llm_calls w →
  frame user_id w w'.
Proof. intros E ?????. split_and!; try done. intros id. left. by rewrite E. Qed.

Lemma db_roundtrip_tasks w : tasks (db_roundtrip w).2 = tasks w.
Proof. unfold db_roundtrip. by destruct (db_fault_at _). Qed.

Lemma db_roundtrip_ok w :
  storage_reliable → db_roundtrip w = (inr tt, next_tick w).
Proof. intros H. unfold db_roundtrip. by rewrite H. Qed.

Lemma outcome_utcnow Q w :
  Q (inr (utcnow_at (tick w))) (next_tick w) → outcome utcnow Q w.
Proof. by constructor. Qed.

Lemma outcome_generate_uuid Q w :
  Q (inr (uuid4_at (tick w))) (next_tick w) → outcome generate_uuid Q w.
Proof. by constructor. Qed.

Lemma owned_row_Some table task_id user_id t :
  owned_row table task_id user_id = Some t ↔
  table !! task_id = Some t ∧ task_user_id t = user_id.
Proof.
  unfold owned_row. split.
  - destruct (table !! task_id) as [t'|]; [|done].
    destruct (decide _); [|done]. by intros [= <-].
  - intros [-> ?]. by rewrite decide_True.
Qed.

Lemma owned_row_None table task_id user_id :
  owned_row table task_id user_id = None ↔
  ∀ t, table !! task_id = Some t → task_user_id t ≠ user_id.
Proof.
  unfold owned_row. split.
  - destruct (table !! task_id) as [t'|]; [|done].
    destruct (decide _) as [|Hn]; [done|]. by intros _ t [= <-].
  - intros H. destruct (table !! task_id) as [t'|]; [|done].
    destruct (decide _) as [Ho|]; [|done]. by destruct (H t' eq_refl).
Qed.

Lemma outcome_select_task task_id user_id Q w :
  (db_fault_at (tick w) = true →
   Q (inl (DatabaseError "connection failure")) (next_tick w)) →
  (db_fault_at (tick w) = false →
   owned_row (tasks w) task_id user_id = None →
   Q (inr None) (next_tick w)) →
  (db_fault_at (tick w) = false →
   ∀ t, tasks w !! task_id = Some t → task_user_id t = user_id →
        Q (inr (Some t)) (next_tick w)) →
  outcome (select_task task_id user_id) Q w.
Proof.
  intros Ht Hn Hs. constructor. unfold select_task, bind, db_roundtrip.
  destruct (db_fault_at (tick w)); simpl; [auto|].
  destruct (owned_row _ _ _) as [t|] eqn:E; [|auto].
  apply owned_row_Some in E as [??]. auto.
Qed.

Lemma outcome_select_tasks user_id status priority tags limit Q w :
  (db_fault_at (tick w) = true →
   Q (inl (DatabaseError "connection failure")) (next_tick w)) →
  (db_fault_at (tick w) = false →
   Q (inr (matching_tasks user_id status priority tags limit (tasks w)))
     (next_tick w)) →
  outcome (select_tasks user_id status priority tags limit) Q w.
Proof.
  intros Ht Hf. constructor. unfold select_tasks, bind, db_roundtrip.
  destruct (db_fault_at (tick w)); simpl; auto.
Qed.

Lemma outcome_session_commit db Q w :
  (db_fault_at (tick w) = true →
   Q (inl (DatabaseError "connection failure")) (next_tick w)) →
  (db_fault_at (tick w) = false →
   match apply_all db (next_tick w) with
   | inr w' => Q (inr []) w'
   | inl e => Q (inl e) (next_tick w)
   end) →
  outcome (session_commit db) Q w.
Proof.
  intros Ht Hf. constructor. unfold session_commit, bind, db_roundtrip.
  destruct (db_fault_at (tick w)); simpl; [auto|].
  specialize (Hf eq_refl). by destruct (apply_all db (next_tick w)).
Qed.

Lemma outcome_session_refresh task_id Q w :
  (db_fault_at (tick w) = true →
   Q (inl (DatabaseError "connection failure")) (next_tick w)) →
  (db_fault_at (tick w) = false →
   match tasks w !! task_id with
   | Some t => Q (inr t) (next_tick w)
   | None => Q (inl (DatabaseError "InvalidRequestError: could not refresh"))
               (next_tick w)
   end) →
  outcome (session_refresh task_id) Q w.
Proof.
  intros Ht Hf. constructor. unfold session_refresh, bind, db_roundtrip.
  destruct (db_fault_at (tick w)); simpl; [auto|].
  specialize (Hf eq_refl). by destruct (tasks w !! task_id).
Qed.

(** One step of symbolic execution. *)
Ltac step :=
  lazymatch goal with
  | |- outcome (bind _ _) _ _ => apply outcome_bind
  | |- outcome (try_except _ _) _ _ => apply outcome_try
  | |- outcome (ret _) _ _ => apply outcome_ret
  | |- outcome (raise _) _ _ => apply outcome_raise
  | |- outcome (lift _) _ _ => apply outcome_lift
  | |- outcome (get_db_session _) _ _ => unfold get_db_session
  | |- outcome db_roundtrip _ _ => apply outcome_roundtrip; intros ?
  | |- outcome utcnow _ _ => apply outcome_utcnow
  | |- outcome generate_uuid _ _ => apply outcome_generate_uuid
  | |- outcome (select_task _ _) _ _ =>
      apply outcome_select_task; [intros ?|intros ? ?|intros ? ? ? ?]
  | |- outcome (select_tasks _ _ _ _ _) _ _ => apply outcome_select_tasks; intros ?
  | |- outcome (if ?b then _ else _) _ _ => destruct b eqn:?
  | |- outcome (match ?x with _ => _ end) _ _ => destruct x eqn:?
  | |- outcome (session_commit _) _ _ => apply outcome_session_commit; intros ?
  | |- outcome (session_refresh _) _ _ => apply outcome_session_refresh; intros ?
  end.

Lemma frame_put user_id w w' id t' :
  tasks w' = <[id:=t']> (tasks w) →
  owned_by user_id (tasks w !! id) → task_user_id t' = user_id →
  messages w' = messages w → conversations w' = conversations w →
  conversation_seq w' = conversation_seq w → message_seq w' = message_seq w →
  llm_calls w' = llm_calls w →
  frame user_id w w'.
Proof.
  intros E Ho Ht ?????. split_and!; try done.
  intros id'. rewrite E. destruct (decide (id = id')) as [<-|Hne].
  - right. split; [done|]. rewrite lookup_insert_eq. by intros ? [= <-].
  - left. by rewrite lookup_insert_ne.
Qed.

Lemma frame_remove user_id w w' id :
  tasks w' = delete id (tasks w) →
  owned_by user_id (tasks w !! id) →
  messages w' = messages w → conversations w' = conversations w →
  conversation_seq w' = conversation_seq w → message_seq w' = message_seq w →
  llm_calls w' = llm_calls w →
  frame user_id w w'.
Proof.
  intros E Ho ?????. split_and!; try done.
  intros id'. rewrite E. destruct (decide (id = id')) as [<-|Hne].
  - right. split; [done|]. rewrite lookup_delete_eq. by intros ? [=].
  - left. by rewrite lookup_delete_ne.
Qed.

Ltac simpl_world_in H :=
  cbn [tasks conversations messages conversation_seq message_seq tick llm_calls
       next_tick set_tasks set_conversations set_messages set_conversation_seq
       set_message_seq count_llm_call apply_all apply_pending session_add app
       fst snd msg_id msg_conversation_id msg_role msg_content msg_created_at
       resp_conversation_id resp_response] in H.

Ltac simpl_world :=
  cbn [tasks conversations messages conversation_seq message_seq tick llm_calls
       next_tick set_tasks set_conversations set_messages set_conversation_seq
       set_message_seq count_llm_call apply_all apply_pending session_add app
       fst snd msg_id msg_conversation_id msg_role msg_content msg_created_at
       resp_conversation_id resp_response];
  repeat match goal with
         | H : _ |- _ => progress simpl_world_in H
         end.

(** Symbolic execution to the leaves. *)
Ltac crunch_step :=
  first
    [ step
    | progress simpl_world
    | match goal with
      | H : ?x = _ |- context [match ?x with _ => _ end] => rewrite H
      | |- context [<[?i:=_]> _ !! ?i] => rewrite lookup_insert_eq
      | |- context [match tasks ?w !! ?i with _ => _ end] =>
          destruct (tasks w !! i) eqn:?
      end
    | lazymatch goal with
      | |- match ?x with _ => _ end => destruct x eqn:?
      end ].

Ltac crunch := repeat crunch_step.

Ltac owned :=
  match goal with
  | H : ?x = _ |- owned_by _ ?x => rewrite H; by intros ? [= <-]
  | H : ?x = _ |- owned_by _ ?x => rewrite H; by intros ? [=]
  end.

(** The leaves of a tool: a structured result, in a framed world. *)
Ltac leaf :=
  split;
  [ eexists; split; [done|first [apply structured_failure|apply structured_success]]
  | first [ apply frame_ticks; done
          | eapply frame_put; simpl_world; [reflexivity|try owned; try done ..]
          | eapply frame_remove; simpl_world; [reflexivity|try owned; try done ..] ] ].

Lemma complete_task_spec user_id task_id w :
  outcome (complete_task user_id task_id)
    (λ r w', (∃ d, r = inr d ∧ structured d) ∧ frame user_id w w') w.
Proof. unfold complete_task. crunch; leaf. Qed.

Lemma delete_task_spec user_id task_id w :
  outcome (delete_task user_id task_id)
    (λ r w', (∃ d, r = inr d ∧ structured d) ∧ frame user_id w w') w.
Proof. unfold delete_task. crunch; leaf. Qed.

Lemma update_task_spec user_id task_id title description status priority tags due_date w :
  outcome (update_task user_id task_id title description status priority tags due_date)
    (λ r w', (∃ d, r = inr d ∧ structured d) ∧ frame user_id w w') w.
Proof. unfold update_task. crunch; leaf. Qed.

Lemma list_tasks_spec user_id status priority tags limit w :
  outcome (list_tasks user_id status priority tags limit)
    (λ r w', (∃ d, r = inr d ∧ structured d) ∧ frame user_id w w') w.
Proof. unfold list_tasks. crunch; leaf. Qed.

Lemma add_task_spec user_id title description priority tags due_date w :
  outcome (add_task user_id title description priority tags due_date)
    (λ r w', (∃ d, r = inr d ∧ structured d) ∧ frame user_id w w') w.
Proof. unfold add_task. crunch; leaf. Qed.

(** ** Facts about the agent *)

Lemma arg_str_lookup (kwargs : pydict) k v :
  kwargs !! k = Some (PStr v) → arg_str kwargs k = inr v.
Proof. unfold arg_str. by intros ->. Qed.

Ltac tool_spec :=
  lazymatch goal with
  | |- outcome (add_task _ _ _ _ _ _) _ _ =>
      eapply outcome_mono; [apply add_task_spec|]
  | |- outcome (list_tasks _ _ _ _ _) _ _ =>
      eapply outcome_mono; [apply list_tasks_spec|]
  | |- outcome (update_task _ _ _ _ _ _ _ _) _ _ =>
      eapply outcome_mono; [apply update_task_spec|]
  | |- outcome (complete_task _ _) _ _ =>
      eapply outcome_mono; [apply complete_task_spec|]
  | |- outcome (delete_task _ _) _ _ =>
      eapply outcome_mono; [apply delete_task_spec|]
  end.

(** A tool called with the caller's id among its keyword arguments
    returns a structured result or raises at the binding, and touches
    the caller's rows only. *)
Lemma call_tool_spec f (kwargs : pydict) user_id w :
  kwargs !! "user_id" = Some (PStr user_id) →
  outcome (call_tool f kwargs)
    (λ r w', (∀ d, r = inr d → structured d) ∧ frame user_id w w') w.
Proof.
  intros Hu. destruct f; unfold call_tool;
    repeat first [rewrite (arg_str_lookup _ _ _ Hu) | tool_spec | crunch_step];
    try (split; [done|apply frame_refl]).
  all: intros r w' [(d & -> & Hd) Hf]; split; [by intros ? [= <-]|done].
Qed.

Lemma setitem_lookup obj key value d :
  setitem obj key value = inr d → d !! key = Some value.
Proof. destruct obj; intros [= <-]. apply lookup_insert_eq. Qed.

Lemma _execute_tool_call_spec tool_call user_id w :
  outcome (_execute_tool_call tool_call user_id)
    (λ r w', (∃ d, r = inr d ∧ structured d) ∧ frame user_id w w') w.
Proof.
  unfold _execute_tool_call. crunch.
  1, 2, 4: split; [eexists; split; [done|apply structured_failure]|apply frame_refl].
  eapply outcome_mono; [by eapply call_tool_spec, setitem_lookup|].
  intros [e|d] w' [Hd Hf]; crunch;
    (split; [eexists; split; [done|]|done]);
    [apply structured_failure|by apply Hd].
Qed.

(** The tool calls of one completion never raise; they are all made on
    behalf of [user_id]. *)
Lemma execute_tool_calls_spec tool_calls user_id current_messages w :
  outcome (execute_tool_calls tool_calls user_id current_messages)
    (λ r w', (∃ ms, r = inr ms) ∧ frame user_id w w') w.
Proof.
  revert current_messages w.
  induction tool_calls as [|tc tcs IH]; intros ms w; simpl.
  - step. split; [by eexists|apply frame_refl].
  - step. eapply outcome_mono; [apply _execute_tool_call_spec|].
    intros r w1 [(d & -> & _) F1].
    eapply outcome_mono; [apply IH|].
    intros r w2 [? F2]. split; [done|]. by eapply frame_trans.
Qed.

Lemma outcome_create_completion messages Q w :
  Q (chat_completions_create (llm_calls w) messages) (count_llm_call w) →
  outcome (create_completion messages) Q w.
Proof. by constructor. Qed.

Lemma frame_agent_frame user_id w w' : frame user_id w w' → agent_frame user_id w w'.
Proof. intros (? & ? & ? & ? & ? & ?). by split_and!. Qed.

Lemma agent_frame_refl user_id w : agent_frame user_id w w.
Proof. apply frame_agent_frame, frame_refl. Qed.

Lemma agent_frame_trans user_id w1 w2 w3 :
  agent_frame user_id w1 w2 → agent_frame user_id w2 w3 → agent_frame user_id w1 w3.
Proof.
  intros (T1 & ? & ? & ? & ?) (T2 & ? & ? & ? & ?).
  split_and!; try congruence.
  intros id. destruct (T1 id) as [E1|[O1 O1']], (T2 id) as [E2|[O2 O2']].
  - left. congruence.
  - right. split; [by rewrite <- E1|done].
  - right. split; [done|by rewrite E2].
  - by right.
Qed.

(** One pass through the loop makes one model call, and leaves alone
    what the tools leave alone. *)
Lemma run_iteration_spec current_messages user_id w :
  outcome (run_iteration current_messages user_id)
    (λ _ w', frame user_id (count_llm_call w) w') w.
Proof.
  unfold run_iteration. step. step. apply outcome_create_completion.
  destruct (chat_completions_create _ _) as [e|c]; [step; apply frame_refl|].
  destruct (requests_tools c); [|repeat step; apply frame_refl].
  step. eapply outcome_mono; [apply execute_tool_calls_spec|].
  intros r w' [[ms ->] F]. by repeat step.
Qed.

(** A pass in which the model requests tools ends in [Continue]. *)
Lemma run_iteration_continues current_messages user_id w :
  always_requests_tools →
  outcome (run_iteration current_messages user_id)
    (λ r w', (∃ ms, r = inr (Continue ms)) ∧ llm_calls w' = S (llm_calls w)) w.
Proof.
  intros Htools. unfold run_iteration. step. step. apply outcome_create_completion.
  destruct (Htools (llm_calls w) current_messages) as (c & -> & ->).
  step. eapply outcome_mono; [apply execute_tool_calls_spec|].
  intros r w' [[ms ->] F]. repeat step. split; [by eexists|].
  by destruct F as (_ & _ & _ & _ & _ & ->).
Qed.

Lemma run_loop_exhausts remaining current_messages user_id w :
  always_requests_tools →
  outcome (run_loop remaining current_messages user_id)
    (λ r w', r = inr FALLBACK_REPLY
             ∧ llm_calls w' = (remaining + llm_calls w)%nat) w.
Proof.
  intros Htools. revert current_messages w.
  induction remaining as [|n IH]; intros ms w; simpl.
  - by step.
  - step. eapply outcome_mono; [by apply run_iteration_continues|].
    intros r w1 [[ms' ->] E1].
    eapply outcome_mono; [apply IH|].
    intros r w2 [-> E2]. split; [done|]. lia.
Qed.

Lemma run_spec messages user_id max_iterations w :
  outcome (run messages user_id max_iterations)
    (λ _ w', agent_frame user_id w w') w.
Proof.
  unfold run. generalize (Z.to_nat max_iterations) as n. intros n.
  revert messages w. induction n as [|n IH]; intros ms w; simpl.
  - step. apply agent_frame_refl.
  - step. eapply outcome_mono; [apply run_iteration_spec|].
    intros r w1 F1. apply frame_agent_frame in F1.
    assert (agent_frame user_id w w1) as F by done.
    destruct r as [e|[ms'|text]]; [done| |by step].
    eapply outcome_mono; [apply IH|].
    intros r w2 F2. by eapply agent_frame_trans.
Qed.

(** ** Facts about the chat request handler *)

Lemma outcome_select_conversation conversation_id user_id Q w :
  (db_fault_at (tick w) = true →
   Q (inl (DatabaseError "connection failure")) (next_tick w)) →
  (db_fault_at (tick w) = false →
   Q (inr (match conversations w !! conversation_id with
           | Some c => if decide (conv_user_id c = user_id) then Some c else None
           | None => None
           end)) (next_tick w)) →
  outcome (select_conversation conversation_id user_id) Q w.
Proof.
  intros Ht Hf. constructor. unfold select_conversation, bind, db_roundtrip.
  destruct (db_fault_at (tick w)); simpl; auto.
Qed.

Lemma outcome_flush_new_conversation Q w :
  (db_fault_at (tick w) = true →
   Q (inl (DatabaseError "connection failure")) (next_tick w)) →
  (db_fault_at (tick w) = false →
   Q (inr (conversation_seq w + 1))
     (set_conversation_seq (conversation_seq w + 1) (next_tick w))) →
  outcome flush_new_conversation Q w.
Proof.
  intros Ht Hf. constructor. unfold flush_new_conversation, bind, db_roundtrip.
  destruct (db_fault_at (tick w)); simpl; auto.
Qed.

Lemma outcome_get_conversation_messages session conversation_id limit Q w :
  (db_fault_at (tick w) = true →
   Q (inl (DatabaseError "connection failure")) (next_tick w)) →
  (db_fault_at (tick w) = false → limit < 0 →
   Q (inl (DatabaseError "LIMIT must not be negative")) (next_tick w)) →
  (db_fault_at (tick w) = false → 0 ≤ limit →
   Q (inr (reverse (take (Z.to_nat limit)
             (order_by_created_at_desc
                (filter (λ m, msg_conversation_id m = conversation_id)
                        (messages w ++ session_messages session))))))
     (next_tick w)) →
  outcome (get_conversation_messages session conversation_id limit) Q w.
Proof.
  intros Ht Hn Hf. constructor.
  unfold get_conversation_messages, bind, db_roundtrip.
  destruct (db_fault_at (tick w)); simpl; [auto|].
  destruct (Z.ltb_spec limit 0); simpl; auto.
Qed.

Ltac chat_step :=
  lazymatch goal with
  | |- outcome (select_conversation _ _) _ _ =>
      apply outcome_select_conversation; intros ?
  | |- outcome flush_new_conversation _ _ =>
      apply outcome_flush_new_conversation; intros ?
  | |- outcome (get_conversation_messages _ _ _) _ _ =>
      apply outcome_get_conversation_messages; [intros ?|intros ? ?|intros ? ?]
  | |- outcome (get_or_create_conversation _ _ _) _ _ =>
      unfold get_or_create_conversation
  | |- outcome (new_conversation _ _) _ _ => unfold new_conversation
  | |- outcome (store_message _ _ _ _) _ _ => unfold store_message
  | |- outcome get_agent _ _ => unfold get_agent
  | |- outcome (run _ _ _) _ _ =>
      eapply outcome_mono; [apply run_spec|];
      intros [?|?] ? (_ & ? & ? & ? & ?)
  end.

(** A chat request stores both messages of the exchange, or none; a
    request that fails leaves the conversations as they were, too. *)
Lemma post_chat_message_spec request current_user w :
  outcome (post_chat_message request current_user)
    (λ r w',
       match r with
       | inl e => messages w' = messages w ∧ conversations w' = conversations w
       | inr response =>
           ∃ t1 t2,
             messages w'
             = messages w
               ++ [mkMessage (Some (message_seq w + 1))
                     (resp_conversation_id response) "user"
                     (req_message request) t1;
                   mkMessage (Some (message_seq w + 1 + 1))
                     (resp_conversation_id response) "assistant"
                     (resp_response response) t2]
       end) w.
Proof.
  unfold post_chat_message, send_chat_message.
  repeat first [chat_step | crunch_step]; try (split; congruence).
  all: repeat match goal with
         | H : context [match conversations ?w !! ?i with _ => _ end] |- _ =>
             destruct (conversations w !! i) eqn:?
         end; simplify_eq; simpl_world.
  all: eexists _, _; rewrite <- app_assoc; simpl.
  all: match goal with
       | Hm : messages ?w' = messages ?w0, Hs : message_seq ?w' = message_seq ?w0 |- _ =>
           rewrite Hm, Hs
       end; reflexivity.
Qed.

(** ** Calls on rows the caller does not own *)

Ltac reliable_contra :=
  match goal with
  | R : storage_reliable, H : db_fault_at _ = true |- _ =>
      rewrite R in H; discriminate
  end.

Ltac not_owned_contra :=
  match goal with
  | N : owned_row ?tb ?i ?u = None, H : ?tb !! ?i = Some ?t |- _ =>
      exfalso; eapply owned_row_None; [exact N|exact H|done]
  end.

Ltac denied_leaf :=
  first
    [ not_owned_contra
    | eexists; split_and!;
      [ done | apply failure_success | done
      | try (intros R; first [reliable_contra | done]) ] ].

Lemma complete_task_denied user_id task_id w :
  owned_row (tasks w) task_id user_id = None →
  outcome (complete_task user_id task_id)
    (λ r w', ∃ d, r = inr d ∧ d !! "success" = Some (PBool false)
                  ∧ tasks w' = tasks w
                  ∧ (storage_reliable → d = failure NOT_FOUND)) w.
Proof. intros N. unfold complete_task. crunch; denied_leaf. Qed.

Lemma delete_task_denied user_id task_id w :
  owned_row (tasks w) task_id user_id = None →
  outcome (delete_task user_id task_id)
    (λ r w', ∃ d, r = inr d ∧ d !! "success" = Some (PBool false)
                  ∧ tasks w' = tasks w
                  ∧ (storage_reliable → d = failure NOT_FOUND)) w.
Proof. intros N. unfold delete_task. crunch; denied_leaf. Qed.

Lemma update_task_denied user_id task_id title description status priority
    tags due_date w :
  owned_row (tasks w) task_id user_id = None →
  outcome (update_task user_id task_id title description status priority
                       tags due_date)
    (λ r w', ∃ d, r = inr d ∧ d !! "success" = Some (PBool false)
                  ∧ tasks w' = tasks w
                  ∧ (storage_reliable →
                     update_arguments_valid title description status priority
                                            tags due_date = true →
                     d = failure NOT_FOUND)) w.
Proof.
  intros N. unfold update_task. crunch; denied_leaf.
  all: intros _; unfold update_arguments_valid.
  all: repeat match goal with
         | H : _ = true |- _ => rewrite H
         | H : _ = None |- _ => rewrite H
         end.
  all: simpl; rewrite ?andb_false_r; discriminate.
Qed.

(** ** Calls on a row of the caller *)

(** With reliable storage, completing one's own task succeeds and
    stores the row marked completed at the time read from the clock. *)
Lemma complete_task_owned user_id task_id t w :
  storage_reliable →
  tasks w !! task_id = Some t → task_user_id t = user_id →
  outcome (complete_task user_id task_id)
    (λ r w', ∃ d, r = inr d ∧ d !! "success" = Some (PBool true)
                  ∧ tick w' = (5 + tick w)%nat
                  ∧ tasks w'
                    = <[task_id := mark_completed t (utcnow_at (S (tick w)))]>
                        (tasks w)) w.
Proof.
  intros R Ht Ho. unfold complete_task. crunch; try reliable_contra.
  - not_owned_contra.
  - simplify_eq. eexists. by split_and!.
Qed.

(** A successful [update_task] found the caller's row and stored it
    with the assignments of [apply_update]. *)
Lemma update_task_success user_id task_id title description status priority
    tags due_date w :
  outcome (update_task user_id task_id title description status priority
                       tags due_date)
    (λ r w', ∀ d, r = inr d → d !! "success" = Some (PBool true) →
       ∃ t parsed now,
         tasks w !! task_id = Some t ∧ task_user_id t = user_id
         ∧ update_arguments_valid title description status priority
                                  tags due_date = true
         ∧ tasks w'
           = <[task_id := apply_update t title description status priority
                                       tags parsed now]> (tasks w)) w.
Proof.
  unfold update_task. crunch.
  all: intros d [= <-]; try (rewrite failure_success; discriminate).
  all: intros _; eexists _, _, _; split_and!; try done.
  all: unfold update_arguments_valid;
    repeat match goal with
      | H : _ = false |- _ => rewrite H
      | H : _ = Some _ |- _ => rewrite H
      end; done.
Qed.

(** A successful [add_task] reports the tags as they read back from
    the stored column. *)
Lemma add_task_success user_id title description priority tags due_date w :
  outcome (add_task user_id title description priority tags due_date)
    (λ r w', ∀ d, r = inr d → d !! "success" = Some (PBool true) →
       ∃ data, d !! "data" = Some (PDict data)
               ∧ data !! "tags"
                 = Some (PList (PStr <$> tags_out (tags_in tags)))) w.
Proof.
  unfold add_task. crunch.
  all: intros d [= <-]; try (rewrite failure_success; discriminate).
  all: intros _; by eexists.
Qed.

(** A successful [list_tasks] reports the selected rows, each through
    [listed_task]. *)
Lemma list_tasks_success user_id status priority tags limit w :
  outcome (list_tasks user_id status priority tags limit)
    (λ r w', ∀ d, r = inr d → d !! "success" = Some (PBool true) →
       d !! "data"
       = Some (PList (listed_task
                        <$> matching_tasks user_id status priority tags limit
                                           (tasks w)))) w.
Proof.
  unfold list_tasks. crunch.
  all: intros d [= <-]; try (rewrite failure_success; discriminate).
  all: by intros _.
Qed.

Lemma matching_tasks_stored user_id status priority tags limit table r :
  r ∈ matching_tasks user_id status priority tags limit table →
  table !! r.1 = Some r.2 ∧ task_user_id r.2 = user_id.
Proof.
  unfold matching_tasks. intros (i & Hr%list_elem_of_lookup_2 & _)%elem_of_take.
  repeat case_match;
    repeat (apply list_elem_of_filter in Hr as [? Hr]);
    by apply elem_of_map_to_list' in Hr.
Qed.


(** ** Facts about strings *)

Lemma truthy_cons c s : truthy (String c s) = true.
Proof. done. Qed.

Lemma split_comma_free s :
  Str.has_char "," s = false → Str.split_comma s = [s].
Proof.
  induction s as [|c s IH]; cbn [Str.has_char Str.split_comma]; [done|].
  intros [Hc Hs]%orb_false_elim. rewrite Ascii.eqb_sym, Hc.
  by rewrite (IH Hs).
Qed.

Lemma split_comma_app s rest :
  Str.has_char "," s = false →
  Str.split_comma (s +:+ "," +:+ rest) = s :: Str.split_comma rest.
Proof.
  induction s as [|c s IH]; cbn [Str.has_char]; [done|].
  intros [Hc Hs]%orb_false_elim.
  change (String c s +:+ "," +:+ rest) with (String c (s +:+ "," +:+ rest)).
  cbn [Str.split_comma]. rewrite Ascii.eqb_sym, Hc.
  by rewrite (IH Hs).
Qed.

(** Splitting undoes joining when no piece contains a comma and there is
    at least one piece. *)
Lemma split_comma_join t ts :
  Forall (λ s, Str.has_char "," s = false) (t :: ts) →
  Str.split_comma (Str.join "," (t :: ts)) = t :: ts.
Proof.
  revert t. induction ts as [|t' ts IH]; intros t H.
  - simpl. apply split_comma_free. by inversion H.
  - inversion H as [|?? Ht Hts]; subst.
    change (Str.join "," (t :: t' :: ts))
      with (t +:+ "," +:+ Str.join "," (t' :: ts)).
    rewrite split_comma_app by done. by rewrite IH.
Qed.

(** A joined list is the empty string only for the list of one empty
    tag. *)
Lemma join_nonempty t ts :
  t :: ts ≠ [""] → truthy (Str.join "," (t :: ts)) = true.
Proof.
  intros H. destruct ts as [|t' ts].
  - simpl. destruct t; [done|]. apply truthy_cons.
  - change (Str.join "," (t :: t' :: ts))
      with (t +:+ "," +:+ Str.join "," (t' :: ts)).
    by destruct t.
Qed.

Lemma tags_round_trip (l : list string) :
  Forall (λ s, Str.has_char "," s = false) l → l ≠ [""] →
  tags_out (tags_in (Some l)) = l.
Proof.
  intros Hfree Hne. destruct l as [|t ts]; [done|].
  unfold tags_out, tags_in. rewrite join_nonempty by done.
  by apply split_comma_join.
Qed.

(** ** Facts about the ordering of messages *)

Lemma insert_desc_oldest m sorted :
  Forall (λ x, msg_created_at m < msg_created_at x) sorted →
  insert_desc m sorted = sorted ++ [m].
Proof.
  induction 1 as [|x rest Hx _ IH]; simpl; [done|].
  destruct (Z.leb_spec (msg_created_at x) (msg_created_at m)); [lia|].
  by rewrite IH.
Qed.

Lemma insert_asc_oldest m sorted :
  Forall (λ x, msg_created_at m < msg_created_at x) sorted →
  insert_asc m sorted = m :: sorted.
Proof.
  destruct 1 as [|x rest Hx _]; simpl; [done|].
  destruct (Z.leb_spec (msg_created_at m) (msg_created_at x)); [done|lia].
Qed.

(** Rows that were inserted in chronological order come back reversed
    from a newest-first query, and unchanged from an oldest-first one. *)
Lemma order_desc_chronological rows :
  chronological rows → order_by_created_at_desc rows = reverse rows.
Proof.
  induction 1 as [|x rest _ IH Hx]; [done|].
  unfold order_by_created_at_desc in *. simpl. rewrite IH.
  rewrite insert_desc_oldest by by apply Forall_reverse.
  by rewrite reverse_cons.
Qed.

Lemma order_asc_chronological rows :
  chronological rows → order_by_created_at rows = rows.
Proof.
  induction 1 as [|x rest _ IH Hx]; [done|].
  unfold order_by_created_at in *. simpl. rewrite IH.
  by apply insert_asc_oldest.
Qed.

(** ** Rows that the caller cannot see

    A call that finds no row of the caller under the id gives the same
    result in any two worlds in which the environment is consulted at
    the same position: whether there is a row of somebody else or no row
    does not show. *)

Ltac same_run Ht N1 N2 :=
  repeat first
    [ progress cbn [tasks tick next_tick snd fst apply_all]
    | rewrite N1
    | rewrite N2
    | rewrite Ht
    | match goal with
      | |- context [if ?c then _ else _] => destruct c eqn:?
      | |- context [match ?c with Some _ => _ | None => _ end] => destruct c eqn:?
      end ];
  done.

Lemma complete_task_hidden user_id task_id w1 w2 :
  tick w1 = tick w2 →
  owned_row (tasks w1) task_id user_id = None →
  owned_row (tasks w2) task_id user_id = None →
  (complete_task user_id task_id w1).1 = (complete_task user_id task_id w2).1.
Proof.
  intros Ht N1 N2.
  cbv beta delta [complete_task try_except get_db_session bind select_task
                  db_roundtrip session_commit ret].
  same_run Ht N1 N2.
Qed.

Lemma delete_task_hidden user_id task_id w1 w2 :
  tick w1 = tick w2 →
  owned_row (tasks w1) task_id user_id = None →
  owned_row (tasks w2) task_id user_id = None →
  (delete_task user_id task_id w1).1 = (delete_task user_id task_id w2).1.
Proof.
  intros Ht N1 N2.
  cbv beta delta [delete_task try_except get_db_session bind select_task
                  db_roundtrip session_commit ret].
  same_run Ht N1 N2.
Qed.

Lemma update_task_hidden user_id task_id title description status priority
    tags due_date w1 w2 :
  tick w1 = tick w2 →
  owned_row (tasks w1) task_id user_id = None →
  owned_row (tasks w2) task_id user_id = None →
  (update_task user_id task_id title description status priority tags due_date
               w1).1
  = (update_task user_id task_id title description status priority tags due_date
                 w2).1.
Proof.
  intros Ht N1 N2.
  cbv beta zeta delta [update_task try_except get_db_session bind select_task
                       db_roundtrip session_commit ret].
  same_run Ht N1 N2.
Qed.

(** An [update_task] call whose arguments fail validation returns the
    validation error without a look at the store: the world, its count of
    consultations included, is as before. *)
Lemma update_task_validation_error user_id task_id title description status
    priority tags due_date w :
  update_arguments_valid title description status priority tags due_date
  = false →
  ∃ error,
    update_task user_id task_id title description status priority tags
                due_date w
    = (inr (failure error), w)
    ∧ error ≠ NOT_FOUND.
Proof.
  unfold update_arguments_valid, update_task, try_except. intros Hv.
  repeat match goal with
         | |- context [if ?c then ret _ else _] =>
             destruct c; [by eexists|]
         end.
  destruct due_date as [d|]; [|done].
  destruct (fromisoformat _) as [p|]; [|by eexists].
  simpl in Hv. discriminate.
Qed.

(** * The claims *)

(** ** C1: calls on another user's task *)

(** C1, as amended.  Let task [T] be stored under [task_id] and owned by
    [A], and let [B] differ from [A].  Whatever the storage does, each of
    [complete_task], [delete_task] and [update_task] called with
    [user_id = B] and that id returns a failure result and leaves the table
    of tasks, hence every stored field of [T], unchanged; and its result is
    the result of the same call in the world from which [T] has been
    removed, so that the caller cannot tell a task of somebody else from
    no task.  When the storage is reliable the error is "Task not found or
    access denied" for [complete_task] and [delete_task], and for
    [update_task] whenever its arguments pass validation; and that is also
    the answer each of them gives for an id under which nothing is
    stored.  An [update_task] call whose arguments fail validation returns
    the validation error instead, before the store is read: the world is
    as it was, no consultation of the store counted. *)
Theorem cross_user_calls_denied (A B task_id : string) (T : Task) (w : world) :
  tasks w !! task_id = Some T → task_user_id T = A → B ≠ A →
  (refused (complete_task B task_id) w
   ∧ refused (delete_task B task_id) w
   ∧ ∀ title description status priority tags due_date,
       refused (update_task B task_id title description status priority
                            tags due_date) w)
  ∧ ((complete_task B task_id w).1
     = (complete_task B task_id (set_tasks (delete task_id) w)).1
     ∧ (delete_task B task_id w).1
       = (delete_task B task_id (set_tasks (delete task_id) w)).1
     ∧ ∀ title description status priority tags due_date,
         (update_task B task_id title description status priority
                      tags due_date w).1
         = (update_task B task_id title description status priority
                        tags due_date (set_tasks (delete task_id) w)).1)
  ∧ (storage_reliable →
     (denied (complete_task B task_id) w
      ∧ denied (delete_task B task_id) w
      ∧ ∀ title description status priority tags due_date,
          update_arguments_valid title description status priority
                                 tags due_date = true →
          denied (update_task B task_id title description status priority
                              tags due_date) w)
     ∧ ∀ w0, tasks w0 !! task_id = None →
         denied (complete_task B task_id) w0
         ∧ denied (delete_task B task_id) w0
         ∧ ∀ title description status priority tags due_date,
             update_arguments_valid title description status priority
                                    tags due_date = true →
             denied (update_task B task_id title description status priority
                                 tags due_date) w0)
  ∧ (∀ title description status priority tags due_date,
       update_arguments_valid title description status priority
                              tags due_date = false →
       ∃ error,
         update_task B task_id title description status priority
                     tags due_date w
         = (inr (failure error), w)
         ∧ error ≠ NOT_FOUND).
Proof.
  intros HT HA HB.
  assert (owned_row (tasks w) task_id B = None) as N.
  { apply owned_row_None. intros t Ht. congruence. }
  assert (∀ (m : M pydict) w1 (P : pydict → Prop),
            outcome m (λ r w', ∃ d, r = inr d ∧ d !! "success" = Some (PBool false)
                                    ∧ tasks w' = tasks w1 ∧ P d) w1 →
            refused m w1 ∧ ((∀ d, P d → d = failure NOT_FOUND) → denied m w1))
    as Hcase.
  { intros m w1 P [H]. destruct (m w1) as [r w'] eqn:E; simpl in H.
    destruct H as (d & -> & Hs & Ht & HP). split.
    - by exists d, w'.
    - intros Hd. exists w'. by rewrite <- (Hd d HP). }
  assert (owned_row (tasks (set_tasks (delete task_id) w)) task_id B = None) as N0.
  { apply owned_row_None. intros t. cbn [tasks set_tasks].
    by rewrite lookup_delete_eq. }
  split; [split_and!|split; [split_and!|split; [
    intros R; split; [split_and!|intros w0 H0; split_and!]|]]].
  13: { intros * Hv. by apply update_task_validation_error. }
  - by eapply Hcase, complete_task_denied.
  - by eapply Hcase, delete_task_denied.
  - intros. by eapply Hcase, update_task_denied.
  - by apply complete_task_hidden.
  - by apply delete_task_hidden.
  - intros. by apply update_task_hidden.
  - eapply Hcase; [by apply complete_task_denied|]. simpl. auto.
  - eapply Hcase; [by apply delete_task_denied|]. simpl. auto.
  - intros * Hv. eapply Hcase; [by apply update_task_denied|]. simpl. auto.
  - eapply Hcase; [apply complete_task_denied|simpl; auto].
    apply owned_row_None. intros t. by rewrite H0.
  - eapply Hcase; [apply delete_task_denied|simpl; auto].
    apply owned_row_None. intros t. by rewrite H0.
  - intros * Hv. eapply Hcase; [apply update_task_denied|simpl; auto].
    apply owned_row_None. intros t. by rewrite H0.
Qed.

(** ** C2: the injected [user_id] *)

(** What [_execute_tool_call] does with a payload that parses to a dict:
    the tool is called with the dict in which ["user_id"] is the caller. *)
Lemma _execute_tool_call_dict (tool_call : tool_call) user_id d w :
  json_loads (tc_arguments tool_call) = inr (PDict d) →
  _execute_tool_call tool_call user_id w
  = match tool_functions !! tc_name tool_call with
    | Some f =>
        try_except (call_tool f (<["user_id" := PStr user_id]> d))
          (λ e, ret (failure ("Tool execution failed: " +:+ exn_str e))) w
    | None => (inr (failure ("Unknown tool: " +:+ tc_name tool_call)), w)
    end.
Proof.
  intros H. unfold _execute_tool_call, try_except, bind. rewrite H.
  unfold lift, ret. destruct (tool_functions !! _) as [f|]; [|done].
  cbn [setitem]. by destruct (call_tool _ _ w) as [[e|r] w'].
Qed.

(** C2.  For every tool call requested by the model, [_execute_tool_call]
    run for the authenticated [user_id] (1) creates, changes or removes
    only rows owned by [user_id], whatever the payload says; (2) when the
    payload parses to a dict and the tool is known, calls the tool with
    that dict in which ["user_id"] has been set to the caller's id; and
    (3) treats alike two payloads that differ only in their ["user_id"]
    field: same result, same world.  And (4) a whole run of the Agent
    Loop for [user_id], every tool call of which goes through
    [_execute_tool_call], creates, changes or removes only rows owned by
    [user_id]. *)
Theorem injected_user_id_is_the_caller (tool_call : tool_call) (user_id : string)
    (w : world) :
  only_touches user_id w (_execute_tool_call tool_call user_id w).2
  ∧ (∀ f d,
       tool_functions !! tc_name tool_call = Some f →
       json_loads (tc_arguments tool_call) = inr (PDict d) →
       (<["user_id" := PStr user_id]> d) !! "user_id" = Some (PStr user_id)
       ∧ _execute_tool_call tool_call user_id w
         = try_except (call_tool f (<["user_id" := PStr user_id]> d))
             (λ e, ret (failure ("Tool execution failed: " +:+ exn_str e))) w)
  ∧ (∀ other d d',
       tc_id other = tc_id tool_call → tc_name other = tc_name tool_call →
       json_loads (tc_arguments tool_call) = inr (PDict d) →
       json_loads (tc_arguments other) = inr (PDict d') →
       delete "user_id" d' = delete "user_id" d →
       _execute_tool_call other user_id w = _execute_tool_call tool_call user_id w)
  ∧ (∀ messages max_iterations,
       only_touches user_id w (run messages user_id max_iterations w).2).
Proof.
  split_and!.
  - pose proof (outcome_elim _ _ _ (_execute_tool_call_spec tool_call user_id w))
      as [_ F]. apply F.
  - intros f d Hf Hd. split; [apply lookup_insert_eq|].
    by rewrite (_execute_tool_call_dict _ _ _ _ Hd), Hf.
  - intros other d d' _ Hname Hd Hd' Hdel.
    rewrite (_execute_tool_call_dict _ _ _ _ Hd), (_execute_tool_call_dict _ _ _ _ Hd').
    rewrite Hname.
    by rewrite <- (insert_delete_eq d), <- (insert_delete_eq d'), Hdel.
  - intros messages max_iterations.
    pose proof (outcome_elim _ _ _ (run_spec messages user_id max_iterations w))
      as [F _]. apply F.
Qed.

(** ** C3: the iteration cap *)

(** C3.  If the model capability, on every invocation, requests at least
    one tool call, then [run] with [max_iterations = 5] returns, without
    raising, the fixed fallback reply, and has made exactly five model
    calls. *)
Theorem run_stops_at_the_iteration_cap (messages : list chat_entry)
    (user_id : string) (w : world) :
  always_requests_tools →
  ∃ w', run messages user_id 5 w = (inr FALLBACK_REPLY, w')
        ∧ llm_calls w' = (5 + llm_calls w)%nat.
Proof.
  intros Htools.
  pose proof (outcome_elim _ _ _
                (run_loop_exhausts 5 messages user_id w Htools)) as [Hr Hn].
  unfold run. change (Z.to_nat 5) with 5%nat.
  destruct (run_loop 5 messages user_id w) as [r w']. simpl in *.
  exists w'. by rewrite Hr.
Qed.

(** ** C4 and C5: what a chat request stores *)

(** C4.  A chat request stores both messages of the exchange or none.  If
    it fails, and so in particular if the Agent Loop fails after the user
    message has been added to the session, the table of messages is as it
    was before the request: no new row.  If it succeeds, exactly two rows
    are new, the user's message and after it the assistant's reply.  A
    state with the user's message stored and no reply is not reached. *)
Theorem chat_request_is_atomic (request : ChatMessageRequest) (current_user : User)
    (w w' : world) (r : exn + ChatMessageResponse) :
  post_chat_message request current_user w = (r, w') →
  match r with
  | inl _ => messages w' = messages w
  | inr response =>
      ∃ t1 t2,
        messages w'
        = messages w
          ++ [mkMessage (Some (message_seq w + 1))
                (resp_conversation_id response) "user" (req_message request) t1;
              mkMessage (Some (message_seq w + 1 + 1))
                (resp_conversation_id response) "assistant"
                (resp_response response) t2]
  end.
Proof.
  intros E.
  pose proof (outcome_of_run _ _ _ _ _ E
                (post_chat_message_spec request current_user w)) as H.
  destruct r as [e|response]; [by destruct H|done].
Qed.

(** What a failed request leaves behind.  [store_message] adds the user
    message to the session and the handler commits once, after the reply
    has been added; whatever its docstring says (persists immediately),
    nothing is stored before that commit.  So a request that fails, as it
    does when the agent invocation fails, leaves the table of messages and
    the table of conversations as they were before the request. *)
Lemma failed_request_stores_nothing (request : ChatMessageRequest)
    (current_user : User) (w w' : world) (e : exn) :
  post_chat_message request current_user w = (inl e, w') →
  messages w' = messages w ∧ conversations w' = conversations w.
Proof.
  intros E.
  exact (outcome_of_run _ _ _ _ _ E
           (post_chat_message_spec request current_user w)).
Qed.

(** ** C6: the last messages of a conversation *)

Lemma chronological_drop n rows : chronological rows → chronological (drop n rows).
Proof.
  intros H. revert n. induction H as [|x rest Hs IH Hx]; intros [|n]; simpl.
  - constructor.
  - constructor.
  - by constructor.
  - apply IH.
Qed.

(** C6.  Let the conversation hold [N] messages whose creation timestamps
    increase strictly in the order of insertion, and let [K < N].  With
    the storage answering, fetching the last [K] messages returns the tail
    of length [K] of the full chronological history of the conversation:
    exactly [K] messages, the most recent ones, oldest first. *)
Theorem last_messages_are_the_tail_of_history (conversation_id : Z) (K : nat)
    (w : world) :
  storage_reliable →
  chronological (conversation_rows conversation_id w) →
  (K < length (conversation_rows conversation_id w))%nat →
  let history := full_history conversation_id w in
  let fetched := drop (length history - K) history in
  (∃ w', get_conversation_messages [] conversation_id (Z.of_nat K) w
         = (inr fetched, w'))
  ∧ length fetched = K
  ∧ chronological fetched
  ∧ history = conversation_rows conversation_id w.
Proof.
  intros R Hc HK history fetched.
  assert (history = conversation_rows conversation_id w) as Hh
    by by apply order_asc_chronological.
  split_and!; [|subst fetched; rewrite length_drop, Hh; lia
               |subst fetched; rewrite Hh; by apply chronological_drop|done].
  exists (next_tick w).
  unfold get_conversation_messages, bind.
  rewrite (db_roundtrip_ok _ R).
  destruct (Z.ltb_spec (Z.of_nat K) 0); [lia|].
  rewrite Nat2Z.id. cbn [session_messages omap list_omap]. rewrite app_nil_r.
  fold (conversation_rows conversation_id w).
  rewrite order_desc_chronological by done.
  rewrite reverse_take, length_reverse, reverse_involutive.
  subst fetched. by rewrite Hh.
Qed.

(** ** C7: the tools return structured results *)

(** A computation returns a structured result in every world. *)
Lemma returns_structured (m : M pydict) user_id w :
  outcome m (λ r w', (∃ d, r = inr d ∧ structured d) ∧ frame user_id w w') w →
  ∃ d w', m w = (inr d, w') ∧ structured d.
Proof.
  intros [H]. destruct (m w) as [r w']. simpl in H.
  destruct H as [(d & -> & Hd) _]. by exists d, w'.
Qed.

(** C7.  Each of the five tools, on every input and in every world,
    whatever the storage does, returns a dict that holds a boolean under
    ["success"] and, when that boolean is false, a string under
    ["error"]; it never raises.  The same holds for
    [_execute_tool_call], through which the Agent Loop calls them, on
    every tool call: any name, any payload. *)
Theorem tools_return_structured_results :
  (∀ user_id title description priority tags due_date w,
     ∃ d w', add_task user_id title description priority tags due_date w
             = (inr d, w') ∧ structured d)
  ∧ (∀ user_id status priority tags limit w,
       ∃ d w', list_tasks user_id status priority tags limit w = (inr d, w')
               ∧ structured d)
  ∧ (∀ user_id task_id title description status priority tags due_date w,
       ∃ d w', update_task user_id task_id title description status priority
                           tags due_date w = (inr d, w')
               ∧ structured d)
  ∧ (∀ user_id task_id w,
       ∃ d w', complete_task user_id task_id w = (inr d, w') ∧ structured d)
  ∧ (∀ user_id task_id w,
       ∃ d w', delete_task user_id task_id w = (inr d, w') ∧ structured d)
  ∧ (∀ tool_call user_id w,
       ∃ d w', _execute_tool_call tool_call user_id w = (inr d, w')
               ∧ structured d).
Proof.
  split_and!; intros.
  - eapply returns_structured, add_task_spec.
  - eapply returns_structured, list_tasks_spec.
  - eapply returns_structured, update_task_spec.
  - eapply returns_structured, complete_task_spec.
  - eapply returns_structured, delete_task_spec.
  - eapply returns_structured, _execute_tool_call_spec.
Qed.

(** ** C8: completing twice *)

(** C8, as amended.  With reliable storage, for every task owned by the
    caller, [complete_task] called twice in succession returns
    [success: True] both times.  After the first call the stored row has
    [completed = True] and [status = "done"]; after the second call it is
    that same row in every field other than [updated_at], which holds the
    clock reading of the second call, and the rest of the table is as
    after the first call.  When the two readings are equal the two states
    of the table are equal.  The reading of the second call is the one
    that follows the lookup of that call. *)
Theorem complete_task_twice (user_id task_id : string) (t : Task) (w : world) :
  storage_reliable →
  tasks w !! task_id = Some t → task_user_id t = user_id →
  ∃ d1 w1 d2 w2 t1 t2,
    complete_task user_id task_id w = (inr d1, w1)
    ∧ complete_task user_id task_id w1 = (inr d2, w2)
    ∧ d1 !! "success" = Some (PBool true)
    ∧ d2 !! "success" = Some (PBool true)
    ∧ tasks w1 !! task_id = Some t1
    ∧ task_completed t1 = true ∧ task_status t1 = "done"
    ∧ t2 = with_updated_at t1 (task_updated_at t2)
    ∧ tasks w2 = <[task_id := t2]> (tasks w1)
    ∧ (task_updated_at t2 = task_updated_at t1 → tasks w2 = tasks w1)
    ∧ task_updated_at t1 = utcnow_at (S (tick w))
    ∧ task_updated_at t2 = utcnow_at (S (tick w1)).
Proof.
  intros R Ht Ho.
  destruct (outcome_returns_result _ _ _ (complete_task_owned _ _ _ w R Ht Ho))
    as (d1 & w1 & E1 & S1 & T1 & W1).
  set (t1 := mark_completed t (utcnow_at (S (tick w)))) in *.
  assert (tasks w1 !! task_id = Some t1) as Ht1 by (rewrite W1; apply lookup_insert_eq).
  destruct (outcome_returns_result _ _ _
              (complete_task_owned user_id task_id t1 w1 R Ht1 Ho))
    as (d2 & w2 & E2 & S2 & T2 & W2).
  exists d1, w1, d2, w2, t1, (mark_completed t1 (utcnow_at (S (tick w1)))).
  split_and!; try done.
  intros E. rewrite W2. apply insert_id. rewrite Ht1. f_equal.
  simpl in E. unfold mark_completed at 1. by rewrite E.
Qed.

(** ** C9: the status and the completed flag *)

(** C9.  A successful [update_task] found the task under the caller's id
    and stored it with: the new status, when one was supplied;
    [completed = True] when that status is ["done"]; and otherwise, for
    ["ready"], ["in_progress"] or no status at all, the completed flag it
    had.  No status resets the flag to false: a completed task stays
    completed, so giving it the status ["ready"] leaves it with
    [completed = True] and [status = "ready"] at once. *)
Theorem update_status_and_completed (user_id task_id : string)
    (title description status priority : option string)
    (tags : option (list string)) (due_date : option string)
    (w w' : world) (d : pydict) :
  update_task user_id task_id title description status priority tags due_date w
  = (inr d, w') →
  d !! "success" = Some (PBool true) →
  ∃ t t',
    tasks w !! task_id = Some t ∧ task_user_id t = user_id
    ∧ tasks w' !! task_id = Some t'
    ∧ task_status t' = default (task_status t) status
    ∧ task_completed t'
      = (if bool_decide (status = Some "done") then true else task_completed t)
    ∧ (task_completed t = true → task_completed t' = true)
    ∧ (∀ st, status = Some st → st ∈ KANBAN_STATUSES).
Proof.
  intros E S.
  destruct (outcome_of_run _ _ _ _ _ E
              (update_task_success user_id task_id title description status
                 priority tags due_date w) d eq_refl S)
    as (t & parsed & now & Ht & Ho & Hv & W).
  exists t, (apply_update t title description status priority tags parsed now).
  split_and!; try done.
  - rewrite W. apply lookup_insert_eq.
  - simpl. destruct status as [st|]; [|done].
    repeat case_bool_decide; simplify_eq; done.
  - simpl. intros ->. destruct status as [st|]; [|done]. by case_bool_decide.
  - intros st ->. unfold update_arguments_valid in Hv.
    repeat (apply andb_prop in Hv as [Hv ?]).
    unfold Str.mem in *. rewrite negb_involutive in *. by case_bool_decide.
Qed.

(** ** C10: tags are joined and split *)

(** C10, as amended.  [add_task] stores the tags joined by commas and
    reports them split at commas: a successful call reports
    [tags_out (tags_in tags)].  That is the input list for every list in
    which no tag contains a comma, other than the list of one empty tag
    (which is stored as the empty string and reported as no tags); and
    for the input [["a,b"]] it is [["a"; "b"]].  [list_tasks] reports each
    selected row, a row stored for the caller, with its tags column split
    in the same way. *)
Theorem tags_are_joined_and_split :
  (∀ user_id title description priority tags due_date w w' d,
     add_task user_id title description priority tags due_date w = (inr d, w') →
     d !! "success" = Some (PBool true) →
     ∃ data, d !! "data" = Some (PDict data)
             ∧ data !! "tags" = Some (PList (PStr <$> tags_out (tags_in tags))))
  ∧ (∀ l : list string,
       Forall (λ tag, Str.has_char "," tag = false) l → l ≠ [""] →
       tags_out (tags_in (Some l)) = l)
  ∧ tags_out (tags_in (Some ["a,b"])) = ["a"; "b"]
  ∧ (∀ user_id status priority tags limit w w' d,
       list_tasks user_id status priority tags limit w = (inr d, w') →
       d !! "success" = Some (PBool true) →
       ∃ rows, d !! "data" = Some (PList (listed_task <$> rows))
               ∧ ∀ r, r ∈ rows →
                   tasks w !! r.1 = Some r.2 ∧ task_user_id r.2 = user_id
                   ∧ ∃ entry, listed_task r = PDict entry
                              ∧ entry !! "tags"
                                = Some (PList (PStr <$> tags_out (task_tags r.2)))).
Proof.
  split_and!.
  - intros * E S.
    exact (outcome_of_run _ _ _ _ _ E
             (add_task_success user_id title description priority tags due_date w)
             d eq_refl S).
  - apply tags_round_trip.
  - done.
  - intros * E S. eexists. split.
    + exact (outcome_of_run _ _ _ _ _ E
               (list_tasks_success user_id status priority tags limit w)
               d eq_refl S).
    + intros r Hr. apply matching_tasks_stored in Hr as [??].
      split_and!; [done|done|]. by eexists.
Qed.

(** * Further properties of the code *)

(** ** Validation comes before the store *)

Lemma add_task_rejects (user_id title : string)
    (description : option string) (priority : string)
    (tags : option (list string)) (due_date : option string) (w : world) :
  add_arguments_valid title description priority due_date = false →
  ∃ error,
    add_task user_id title description priority tags due_date w
    = (inr (failure error), w).
Proof.
  unfold add_arguments_valid, add_task, try_except. intros Hv.
  destruct (negb (truthy title) || (Str.len title >? 200)); [by eexists|].
  destruct (truthy_opt description && _); [by eexists|].
  destruct (negb (Str.mem priority PRIORITIES)); [by eexists|].
  destruct (truthy_opt due_date); [|done].
  destruct (fromisoformat _) as [d|]; [|by eexists].
  simpl in Hv. discriminate.
Qed.

Lemma update_task_rejects (user_id task_id : string)
    (title description status priority : option string)
    (tags : option (list string)) (due_date : option string) (w : world) :
  update_arguments_valid title description status priority tags due_date
  = false →
  ∃ error,
    update_task user_id task_id title description status priority tags
                due_date w
    = (inr (failure error), w).
Proof.
  unfold update_arguments_valid, update_task, try_except. intros Hv.
  repeat match goal with
         | |- context [if ?c then ret _ else _] =>
             destruct c; [by eexists|]
         end.
  destruct due_date as [d|]; [|done].
  destruct (fromisoformat _) as [p|]; [|by eexists].
  simpl in Hv. discriminate.
Qed.

Lemma list_tasks_rejects (user_id : string)
    (status priority : option string) (tags : option (list string))
    (limit : Z) (w : world) :
  list_arguments_valid status priority limit = false →
  ∃ error,
    list_tasks user_id status priority tags limit w = (inr (failure error), w).
Proof.
  unfold list_arguments_valid, list_tasks, try_except. intros Hv.
  repeat match goal with
         | |- context [if ?c then ret _ else _] =>
             destruct c; [by eexists|]
         end.
  done.
Qed.

(** X1.  A call of [add_task], [update_task] or [list_tasks] whose
    arguments fail validation returns a failure result and leaves the
    world as it was: the clock, the id generator and the storage are not
    consulted. [list_tasks] accepts a limit from 1 to 100 only, and a
    priority or a status, when given and not empty, only from its lists. *)
Theorem validation_comes_before_the_store (user_id : string) (w : world) :
  (∀ title description priority tags due_date,
     add_arguments_valid title description priority due_date = false →
     ∃ error,
       add_task user_id title description priority tags due_date w
       = (inr (failure error), w))
  ∧ (∀ task_id title description status priority tags due_date,
       update_arguments_valid title description status priority tags due_date
       = false →
       ∃ error,
         update_task user_id task_id title description status priority tags
                     due_date w
         = (inr (failure error), w))
  ∧ (∀ status priority tags limit,
       list_arguments_valid status priority limit = false →
       ∃ error,
         list_tasks user_id status priority tags limit w
         = (inr (failure error), w)).
Proof.
  split_and!; intros.
  - by apply add_task_rejects.
  - by apply update_task_rejects.
  - by apply list_tasks_rejects.
Qed.

(** ** Creating a task *)

Lemma add_arguments_valid_inv title description priority due_date :
  add_arguments_valid title description priority due_date = true →
  negb (truthy title) || (Str.len title >? 200) = false
  ∧ truthy_opt description && (Str.len (default "" description) >? 1000) = false
  ∧ negb (Str.mem priority PRIORITIES) = false
  ∧ (truthy_opt due_date = true →
     is_Some (fromisoformat (Str.replace_Z (default "" due_date)))).
Proof.
  unfold add_arguments_valid. intros H.
  repeat (apply andb_prop in H as [H ?]).
  split_and!; try by apply negb_true_iff.
  intros E. rewrite E in *. by eapply bool_decide_eq_true_1.
Qed.

(** What a valid [add_task] call without a due date does when the
    storage is reliable.  The store of this embedding takes every due
    date; the store of the program refuses a due date that carries a UTC
    offset (one written with a final [Z], for example), so what is said
    of stored rows is said of calls that give no due date. *)
Lemma add_task_stores user_id title description priority tags due_date w :
  storage_reliable →
  add_arguments_valid title description priority due_date = true →
  truthy_opt due_date = false →
  tasks w !! uuid4_at (tick w) = None →
  outcome (add_task user_id title description priority tags due_date)
    (λ r w', ∃ d, r = inr d ∧ ∃ t,
       d !! "success" = Some (PBool true)
       ∧ tasks w' = <[uuid4_at (tick w) := t]> (tasks w)
       ∧ task_user_id t = user_id
       ∧ task_title t = title
       ∧ task_description t = description
       ∧ task_priority t = priority
       ∧ task_tags t = tags_in tags
       ∧ task_due_date t = None
       ∧ task_completed t = false
       ∧ task_status t = "ready") w.
Proof.
  intros R Hv Hd Hfresh.
  apply add_arguments_valid_inv in Hv as (V1 & V2 & V3 & _).
  unfold add_task. crunch; try reliable_contra; try congruence.
  all: eexists; split; [done|]; eexists; by split_and!.
Qed.

(** X2.  With reliable storage, an [add_task] call that gives no due date
    (none, or the empty string), whose other arguments pass validation and
    whose generated id is not taken succeeds, and the table gains under
    that id a row with the caller as owner, the given title, description
    and priority, the tags joined, no due date, not completed, in status
    "ready"; every other row is as before. *)
Theorem add_task_creates_the_row (user_id title : string)
    (description : option string) (priority : string)
    (tags : option (list string)) (due_date : option string) (w : world) :
  storage_reliable →
  add_arguments_valid title description priority due_date = true →
  truthy_opt due_date = false →
  tasks w !! uuid4_at (tick w) = None →
  ∃ d w' t,
    add_task user_id title description priority tags due_date w = (inr d, w')
    ∧ d !! "success" = Some (PBool true)
    ∧ tasks w' = <[uuid4_at (tick w) := t]> (tasks w)
    ∧ task_user_id t = user_id
    ∧ task_title t = title
    ∧ task_description t = description
    ∧ task_priority t = priority
    ∧ task_tags t = tags_in tags
    ∧ task_due_date t = None
    ∧ task_completed t = false
    ∧ task_status t = "ready".
Proof.
  intros R Hv Hd Hfresh.
  destruct (outcome_returns_result _ _ _
              (add_task_stores user_id title description priority tags
                 due_date w R Hv Hd Hfresh)) as (d & w' & E & t & H).
  by exists d, w', t.
Qed.

(** X3.  A write that the caller is told has failed: when the commit of
    [add_task] goes through and the refresh after it does not, the tool
    returns a failure result and the new row is stored all the same. *)
Theorem add_task_can_fail_after_the_write (user_id title : string)
    (description : option string) (priority : string)
    (tags : option (list string)) (due_date : option string) (w : world) :
  add_arguments_valid title description priority due_date = true →
  tasks w !! uuid4_at (tick w) = None →
  db_fault_at (3 + tick w) = false →
  db_fault_at (4 + tick w) = true →
  ∃ w' t,
    add_task user_id title description priority tags due_date w
    = (inr (failure "Failed to create task: connection failure"), w')
    ∧ tasks w' = <[uuid4_at (tick w) := t]> (tasks w)
    ∧ task_user_id t = user_id
    ∧ task_title t = title.
Proof.
  intros Hv Hfresh Hc Hr.
  apply add_arguments_valid_inv in Hv as (V1 & V2 & V3 & V4).
  enough (outcome (add_task user_id title description priority tags due_date)
            (λ r w', r = inr (failure "Failed to create task: connection failure")
                     ∧ ∃ t, tasks w' = <[uuid4_at (tick w) := t]> (tasks w)
                            ∧ task_user_id t = user_id ∧ task_title t = title) w)
    as [H].
  { destruct (add_task _ _ _ _ _ _ w) as [r w']. simpl in H.
    destruct H as (-> & t & H). by exists w', t. }
  cbn [Nat.add] in Hc, Hr.
  unfold add_task. crunch; try congruence.
  all: try (destruct (V4 ltac:(done)) as [? ?]; congruence).
  all: split; [done|]; eexists; by split_and!.
Qed.

(** ** Listing tasks *)

(** X4.  [list_tasks] reads and never writes: on every input, in every
    world and whatever the storage does, it returns a result and leaves
    every table, both sequences and the count of model calls as they were. *)
Theorem list_tasks_is_read_only (user_id : string)
    (status priority : option string) (tags : option (list string))
    (limit : Z) (w : world) :
  ∃ d w', list_tasks user_id status priority tags limit w = (inr d, w')
          ∧ same_store w w'.
Proof.
  apply outcome_returns_result. unfold list_tasks, same_store.
  crunch; eexists; by split_and!.
Qed.

Lemma list_arguments_valid_inv status priority limit :
  list_arguments_valid status priority limit = true →
  (limit <? 1) || (limit >? 100) = false
  ∧ truthy_opt priority && negb (Str.mem (default "" priority) PRIORITIES) = false
  ∧ truthy_opt status && negb (Str.mem (default "" status) LIST_STATUSES) = false.
Proof.
  unfold list_arguments_valid. intros H.
  repeat (apply andb_prop in H as [H ?]).
  split_and!; by apply negb_true_iff.
Qed.

Lemma matching_tasks_sublist user_id status priority tags limit table :
  matching_tasks user_id status priority tags limit table
  `sublist_of` owned_rows user_id table.
Proof.
  unfold matching_tasks, owned_rows.
  etrans; [apply sublist_take|].
  repeat case_match;
    repeat first [reflexivity | etrans; [apply sublist_filter|]].
Qed.

Lemma matching_tasks_filtered user_id status priority tags limit table r :
  r ∈ matching_tasks user_id status priority tags limit table →
  (truthy_opt status = true →
   task_completed r.2 = bool_decide (default "" status = "completed"))
  ∧ (truthy_opt priority = true → task_priority r.2 = default "" priority).
Proof.
  unfold matching_tasks. intros (i & Hr%list_elem_of_lookup_2 & _)%elem_of_take.
  split; intros E; rewrite E in Hr.
  - repeat case_match;
      repeat match goal with
             | H : _ ∈ filter _ _ |- _ => apply list_elem_of_filter in H as [? H]
             end; done.
  - repeat case_match;
      repeat match goal with
             | H : _ ∈ filter _ _ |- _ => apply list_elem_of_filter in H as [? H]
             end; done.
Qed.

(** X5.  With reliable storage, a [list_tasks] call whose arguments pass
    validation succeeds and reports under ["count"] the number of entries
    under ["data"], which is at most [limit]. No task is listed twice;
    each listed task is stored under the listed id and owned by the
    caller; with the status filter "completed" every listed task is
    completed, with "pending" none is; with a priority filter every listed
    task has that priority. *)
Theorem list_tasks_lists_rows_of_the_caller (user_id : string)
    (status priority : option string) (tags : option (list string))
    (limit : Z) (w : world) :
  storage_reliable →
  list_arguments_valid status priority limit = true →
  ∃ rows w',
    list_tasks user_id status priority tags limit w
    = (inr (dict [("success", PBool true);
                  ("data", PList (listed_task <$> rows));
                  ("count", PInt (Z.of_nat (length rows)))]), w')
    ∧ Z.of_nat (length rows) ≤ limit
    ∧ NoDup rows.*1
    ∧ ∀ id t, (id, t) ∈ rows →
        tasks w !! id = Some t
        ∧ task_user_id t = user_id
        ∧ (status = Some "completed" → task_completed t = true)
        ∧ (status = Some "pending" → task_completed t = false)
        ∧ (∀ p, priority = Some p → p ≠ "" → task_priority t = p).
Proof.
  intros R Hv. apply list_arguments_valid_inv in Hv as (V1 & V2 & V3).
  exists (matching_tasks user_id status priority tags limit (tasks w)).
  enough (outcome (list_tasks user_id status priority tags limit)
            (λ r w', r = inr (dict [("success", PBool true);
               ("data", PList (listed_task <$>
                  matching_tasks user_id status priority tags limit (tasks w)));
               ("count", PInt (Z.of_nat (length
                  (matching_tasks user_id status priority tags limit (tasks w)))))]))
            w) as [H].
  { destruct (list_tasks _ _ _ _ _ w) as [r w'] eqn:E. simpl in H. subst r.
    exists w'. split_and!; [done| | |].
    - apply orb_false_elim in V1 as [V1 _]. apply Z.ltb_ge in V1.
      unfold matching_tasks. rewrite length_take. lia.
    - apply (sublist_NoDup _ (map_to_list (tasks w)).*1);
        [apply NoDup_fst_map_to_list|].
      apply fmap_sublist.
      etrans; [apply matching_tasks_sublist|apply sublist_filter].
    - intros id t Hr.
      pose proof (matching_tasks_stored _ _ _ _ _ _ _ Hr) as [Hs Ho].
      pose proof (matching_tasks_filtered _ _ _ _ _ _ _ Hr) as [Fs Fp].
      simpl in *. split_and!; [done|done| | |].
      + intros ->. by rewrite Fs.
      + intros ->. by rewrite Fs.
      + intros p -> Hp. rewrite Fp; [done|].
        simpl. unfold truthy. by apply negb_true_iff, String.eqb_neq. }
  unfold list_tasks. crunch; try reliable_contra; congruence.
Qed.

(** What a valid [list_tasks] call returns when the storage is reliable. *)
Lemma list_tasks_selects user_id status priority tags limit w :
  storage_reliable →
  list_arguments_valid status priority limit = true →
  outcome (list_tasks user_id status priority tags limit)
    (λ r w',
       r = inr (dict [("success", PBool true);
            ("data", PList (listed_task <$>
               matching_tasks user_id status priority tags limit (tasks w)));
            ("count", PInt (Z.of_nat (length
               (matching_tasks user_id status priority tags limit (tasks w)))))]))
    w.
Proof.
  intros R Hv. apply list_arguments_valid_inv in Hv as (V1 & V2 & V3).
  unfold list_tasks. crunch; try reliable_contra; congruence.
Qed.

Lemma owned_rows_insert user_id id t table :
  table !! id = None → task_user_id t = user_id →
  owned_rows user_id (<[id := t]> table) ≡ₚ (id, t) :: owned_rows user_id table.
Proof.
  intros Hn Ho. unfold owned_rows.
  rewrite (map_to_list_insert _ _ _ Hn). by rewrite filter_cons_True.
Qed.

(** ** Creating a task, then listing *)

(** X6.  With reliable storage, after a valid [add_task] that gives no
    due date (none, or the empty string) and whose generated id is not
    taken, a [list_tasks] call of the same user without filters and with a
    limit that exceeds the number of tasks the user had lists the new
    task, under the generated id and with the given title, and counts one
    task more than the user had. *)
Theorem added_task_is_listed (user_id title : string)
    (description : option string) (priority : string)
    (tags : option (list string)) (due_date : option string) (limit : Z)
    (w : world) :
  storage_reliable →
  add_arguments_valid title description priority due_date = true →
  truthy_opt due_date = false →
  tasks w !! uuid4_at (tick w) = None →
  Z.of_nat (length (owned_rows user_id (tasks w))) < limit ≤ 100 →
  ∃ d1 w1 d2 w2 rows t,
    add_task user_id title description priority tags due_date w = (inr d1, w1)
    ∧ list_tasks user_id None None None limit w1 = (inr d2, w2)
    ∧ d2 !! "success" = Some (PBool true)
    ∧ d2 !! "data" = Some (PList (listed_task <$> rows))
    ∧ (uuid4_at (tick w), t) ∈ rows
    ∧ task_title t = title
    ∧ d2 !! "count"
      = Some (PInt (1 + Z.of_nat (length (owned_rows user_id (tasks w))))).
Proof.
  intros R Hv Hd Hfresh Hl.
  destruct (outcome_returns_result _ _ _
              (add_task_stores user_id title description priority tags
                 due_date w R Hv Hd Hfresh))
    as (d1 & w1 & E1 & t & _ & W1 & Ho & Ht & _).
  assert (list_arguments_valid None None limit = true) as Hlv.
  { unfold list_arguments_valid. simpl. rewrite !andb_true_r.
    destruct (Z.ltb_spec limit 1), (Z.gtb_spec limit 100); simpl; try done; lia. }
  pose proof (outcome_elim _ _ _
                (list_tasks_selects user_id None None None limit w1 R Hlv)) as E2.
  destruct (list_tasks user_id None None None limit w1) as [r w2] eqn:EL.
  simpl in E2. subst r.
  pose proof (owned_rows_insert user_id _ t (tasks w) Hfresh Ho) as Hp.
  rewrite <- W1 in Hp.
  assert (matching_tasks user_id None None None limit (tasks w1)
          = owned_rows user_id (tasks w1)) as Hm.
  { unfold matching_tasks. simpl. apply take_ge.
    fold (owned_rows user_id (tasks w1)). rewrite Hp. simpl. lia. }
  rewrite Hm in EL.
  eexists d1, w1, _, w2, (owned_rows user_id (tasks w1)), t.
  split_and!; [exact E1|exact EL|done|done| |done|].
  - rewrite Hp. apply list_elem_of_here.
  - unfold dict. simpl.
    rewrite lookup_insert_ne, lookup_insert_ne, lookup_insert_eq by done.
    rewrite Hp. simpl. do 2 f_equal. lia.
Qed.

(** ** Deleting a task *)

Lemma denied_of_outcome (m : M pydict) w :
  storage_reliable →
  outcome m (λ r w', ∃ d, r = inr d ∧ d !! "success" = Some (PBool false)
                          ∧ tasks w' = tasks w
                          ∧ (storage_reliable → d = failure NOT_FOUND)) w →
  denied m w.
Proof.
  intros R [H]. unfold denied. destruct (m w) as [r w']. simpl in H.
  destruct H as (d & -> & _ & Ht & Hd). exists w'. by rewrite (Hd R).
Qed.

(** X7.  With reliable storage, deleting one's own task succeeds, reports
    the id and the title of the task, and removes that row and no other.
    After that the id is gone for everybody: for every user, [delete_task]
    and [complete_task] with that id answer "Task not found or access
    denied" and change nothing. *)
Theorem delete_task_removes_the_row (user_id task_id : string) (t : Task)
    (w : world) :
  storage_reliable →
  tasks w !! task_id = Some t → task_user_id t = user_id →
  ∃ d w',
    delete_task user_id task_id w = (inr d, w')
    ∧ d !! "success" = Some (PBool true)
    ∧ d !! "data" = Some (PDict (dict [("id", PStr task_id);
                                       ("title", PStr (task_title t));
                                       ("deleted", PBool true)]))
    ∧ tasks w' = delete task_id (tasks w)
    ∧ ∀ anyone,
        denied (delete_task anyone task_id) w'
        ∧ denied (complete_task anyone task_id) w'.
Proof.
  intros R Ht Ho.
  enough (outcome (delete_task user_id task_id)
            (λ r w', ∃ d, r = inr d
               ∧ (d !! "success" = Some (PBool true)
                  ∧ d !! "data" = Some (PDict (dict [("id", PStr task_id);
                                                     ("title", PStr (task_title t));
                                                     ("deleted", PBool true)]))
                  ∧ tasks w' = delete task_id (tasks w))) w) as H.
  { apply outcome_returns_result in H as (d & w' & E & Hs & D & W).
    exists d, w'. split_and!; try done.
    assert (∀ anyone, owned_row (tasks w') task_id anyone = None) as N.
    { intros anyone. apply owned_row_None. intros t'.
      by rewrite W, lookup_delete_eq. }
    intros anyone. split.
    - by apply denied_of_outcome, delete_task_denied.
    - by apply denied_of_outcome, complete_task_denied. }
  unfold delete_task. crunch; try reliable_contra.
  - not_owned_contra.
  - simplify_eq. eexists. by split_and!.
Qed.

(** ** Updating a task *)

(** X8.  With reliable storage, a valid [update_task] call on one's own
    task that supplies no due date succeeds and stores the row with each
    supplied field set and each field that was not supplied as it was: the
    title, the description, the status, the priority and the tags are the
    supplied ones where one is supplied; [completed] becomes true when the
    supplied status is "done" and is as it was otherwise; the due date,
    the owner, the creation time and the recurrence settings stay; the
    update time is read from the clock; and every other row is as before.
    (The store of this embedding takes every due date, that of the program
    refuses one that carries a UTC offset: hence no due date here.) *)
Theorem update_task_keeps_what_is_not_supplied (user_id task_id : string)
    (title description status priority : option string)
    (tags : option (list string)) (t : Task) (w : world) :
  storage_reliable →
  tasks w !! task_id = Some t → task_user_id t = user_id →
  update_arguments_valid title description status priority tags None = true →
  ∃ d w' t',
    update_task user_id task_id title description status priority tags None w
    = (inr d, w')
    ∧ d !! "success" = Some (PBool true)
    ∧ tasks w' = <[task_id := t']> (tasks w)
    ∧ task_title t' = default (task_title t) title
    ∧ task_description t' = from_option Some (task_description t) description
    ∧ task_status t' = default (task_status t) status
    ∧ task_completed t'
      = (if bool_decide (status = Some "done") then true else task_completed t)
    ∧ task_priority t' = default (task_priority t) priority
    ∧ task_tags t' = from_option (Str.join ",") (task_tags t) tags
    ∧ task_due_date t' = task_due_date t
    ∧ task_user_id t' = user_id
    ∧ task_created_at t' = task_created_at t
    ∧ task_recurrence_pattern t' = task_recurrence_pattern t
    ∧ task_recurrence_interval t' = task_recurrence_interval t
    ∧ task_updated_at t' = utcnow_at (S (tick w)).
Proof.
  intros R Ht Ho Hv.
  enough (outcome (update_task user_id task_id title description status priority
                               tags None)
            (λ r w', ∃ d, r = inr d
               ∧ d !! "success" = Some (PBool true)
               ∧ tasks w'
                 = <[task_id := apply_update t title description status priority
                                  tags None (utcnow_at (S (tick w)))]> (tasks w))
            w) as H.
  { apply outcome_returns_result in H as (d & w' & E & Hs & W).
    exists d, w', (apply_update t title description status priority tags None
                     (utcnow_at (S (tick w)))).
    split_and!; try done.
    simpl. destruct status as [st|]; [|done].
    repeat case_bool_decide; simplify_eq; done. }
  unfold update_arguments_valid in Hv.
  repeat (apply andb_prop in Hv as [Hv ?]).
  repeat match goal with
         | H : negb _ = true |- _ => apply negb_true_iff in H
         end.
  unfold update_task. crunch; try reliable_contra; try congruence;
    try not_owned_contra.
  all: simplify_eq.
  all: by (eexists; split; [done|]; split_and!).
Qed.

(** * Further properties of the agent *)

(** ** Tool calls that do not reach a tool *)

(** Binding the keyword arguments comes first in every tool call. *)
Lemma call_tool_binding f (kwargs : pydict) e w :
  check_signature (signature f).1 (signature f).2 kwargs = inl e →
  call_tool f kwargs w = (inl e, w).
Proof.
  destruct f; unfold call_tool, bind; simpl; by intros ->.
Qed.

Lemma check_signature_unexpected params required (kwargs : pydict) k :
  is_Some (kwargs !! k) → k ∉ params →
  ∃ e, check_signature params required kwargs = inl e.
Proof.
  intros [v Hk] Hn. unfold check_signature.
  rewrite bool_decide_eq_false_2; [by eexists|].
  intros H. by apply Hn, (H k v).
Qed.

Lemma check_signature_missing params required (kwargs : pydict) k :
  k ∈ required → kwargs !! k = None →
  ∃ e, check_signature params required kwargs = inl e.
Proof.
  intros Hr Hk. unfold check_signature.
  destruct (negb (bool_decide (map_Forall _ kwargs))); [by eexists|].
  rewrite bool_decide_eq_false_2; [by eexists|].
  intros H. rewrite Forall_forall in H. destruct (H k Hr) as [v Hv]. congruence.
Qed.

(** X9.  A malformed tool call is answered with a failure result and
    touches nothing: the world after it is the world before it, the
    storage is not even consulted. This holds for a payload that does not
    parse, an unknown tool name, a payload that is not an object, an
    object with a key that is no parameter of the tool, and an object that
    lacks a required argument other than ["user_id"]. *)
Theorem malformed_tool_call_touches_nothing (tool_call : tool_call)
    (user_id : string) (w : world) :
  malformed tool_call →
  ∃ error, _execute_tool_call tool_call user_id w = (inr (failure error), w).
Proof.
  intros [e He|v Hv Hn|v Hv Hd|d f k Hd Hf Hk Hp|d f k Hd Hf Hk Hu Hm].
  - unfold _execute_tool_call, try_except, bind. rewrite He. by eexists.
  - unfold _execute_tool_call, try_except, bind. rewrite Hv, Hn. by eexists.
  - unfold _execute_tool_call, try_except, bind. rewrite Hv. simpl.
    destruct (tool_functions !! _); [|by eexists].
    destruct v; try (by eexists). by destruct (Hd d).
  - rewrite (_execute_tool_call_dict _ _ _ _ Hd), Hf. unfold try_except.
    destruct (check_signature_unexpected (signature f).1 (signature f).2
                (<["user_id" := PStr user_id]> d) k) as [e He]; [|done|].
    { destruct (decide (k = "user_id")) as [->|Hne].
      - rewrite lookup_insert_eq. by eexists.
      - by rewrite lookup_insert_ne. }
    rewrite (call_tool_binding _ _ _ _ He). by eexists.
  - rewrite (_execute_tool_call_dict _ _ _ _ Hd), Hf. unfold try_except.
    destruct (check_signature_missing (signature f).1 (signature f).2
                (<["user_id" := PStr user_id]> d) k) as [e He]; [done| |].
    { by rewrite lookup_insert_ne. }
    rewrite (call_tool_binding _ _ _ _ He). by eexists.
Qed.

(** ** Tool calls that conform to the catalogue *)

(** Every entry of the catalogue names a tool, lists as properties the
    parameters of that tool, and requires those without a default. *)
Lemma catalogue_matches_signatures (s : tool_schema) :
  s ∈ tools →
  ∃ f, tool_functions !! sch_name s = Some f
       ∧ (sch_properties s).*1 = (signature f).1
       ∧ sch_required s = (signature f).2.
Proof.
  unfold tools. intros H.
  repeat (apply elem_of_cons in H as [->|H]); [..|by apply elem_of_nil in H].
  - by exists Tool_add_task.
  - by exists Tool_list_tasks.
  - by exists Tool_update_task.
  - by exists Tool_complete_task.
  - by exists Tool_delete_task.
Qed.

Lemma check_signature_conforms (s : tool_schema) f (d : pydict) user_id :
  (sch_properties s).*1 = (signature f).1 → sch_required s = (signature f).2 →
  "user_id" ∈ (signature f).1 →
  conforms s d →
  check_signature (signature f).1 (signature f).2 (<["user_id" := PStr user_id]> d)
  = inr tt.
Proof.
  intros Hp Hr Hu [Ht Hq]. unfold check_signature.
  rewrite bool_decide_eq_true_2; simpl.
  - rewrite bool_decide_eq_true_2; [done|].
    rewrite <- Hr. eapply Forall_impl; [exact Hq|]. intros k [->|Hk].
    + rewrite lookup_insert_eq. by eexists.
    + destruct (decide (k = "user_id")) as [->|Hne].
      * rewrite lookup_insert_eq. by eexists.
      * by rewrite lookup_insert_ne.
  - apply map_Forall_insert_2; [done|].
    intros k v Hk. destruct (Ht k v Hk) as (ty & Hin & _).
    rewrite <- Hp. apply list_elem_of_fmap. by exists (k, ty).
Qed.

Lemma conforms_typed (s : tool_schema) (d : pydict) user_id k ty :
  NoDup (sch_properties s).*1 → conforms s d →
  (k, ty) ∈ sch_properties s → k ≠ "user_id" →
  typed (<["user_id" := PStr user_id]> d) k ty.
Proof.
  intros Hn [Ht _] Hin Hne. unfold typed. rewrite lookup_insert_ne by done.
  destruct (d !! k) as [v|] eqn:Hk; [|done].
  destruct (Ht k v Hk) as (ty' & Hin' & Hv).
  apply (elem_of_list_to_map (M := gmap string)) in Hin, Hin'; try done.
  by simplify_eq.
Qed.

Lemma conforms_required (s : tool_schema) (d : pydict) user_id k :
  conforms s d → k ∈ sch_required s →
  is_Some ((<["user_id" := PStr user_id]> d) !! k).
Proof.
  intros [_ Hq] Hk. rewrite Forall_forall in Hq.
  destruct (decide (k = "user_id")) as [->|Hne].
  - rewrite lookup_insert_eq. by eexists.
  - rewrite lookup_insert_ne by done. by destruct (Hq k Hk).
Qed.

Lemma arg_str_typed (kwargs : pydict) k :
  typed kwargs k JString → is_Some (kwargs !! k) →
  ∃ s, arg_str kwargs k = inr s.
Proof.
  unfold typed, arg_str. intros Ht [v Hv]. rewrite Hv in *.
  destruct v; try done. by eexists.
Qed.

Lemma arg_str_default_typed (kwargs : pydict) k dflt :
  typed kwargs k JString → ∃ s, arg_str_default kwargs k dflt = inr s.
Proof.
  unfold typed, arg_str_default. destruct (kwargs !! k) as [[]|]; try done;
    by eexists.
Qed.

Lemma arg_opt_str_typed (kwargs : pydict) k :
  typed kwargs k JString → ∃ o, arg_opt_str kwargs k = inr o.
Proof.
  unfold typed, arg_opt_str. destruct (kwargs !! k) as [[]|]; try done;
    by eexists.
Qed.

Lemma arg_opt_str_list_typed (kwargs : pydict) k :
  typed kwargs k JArrayOfString → ∃ o, arg_opt_str_list kwargs k = inr o.
Proof.
  unfold typed, arg_opt_str_list.
  destruct (kwargs !! k) as [[| | | |l|]|]; try done; try by eexists.
  simpl. intros Hl.
  destruct (mapM_is_Some_2 as_str l) as [ss ->]; [|by eexists].
  apply Is_true_true_2, forallb_True in Hl.
  eapply Forall_impl; [exact Hl|]. intros x Hx. simpl.
  by apply bool_decide_unpack in Hx.
Qed.

Lemma arg_int_default_typed (kwargs : pydict) k dflt :
  typed kwargs k JInteger → ∃ z, arg_int_default kwargs k dflt = inr z.
Proof.
  unfold typed, arg_int_default. destruct (kwargs !! k) as [[]|]; try done;
    by eexists.
Qed.

Lemma arg_user_id (d : pydict) user_id :
  arg_str (<["user_id" := PStr user_id]> d) "user_id" = inr user_id.
Proof. apply arg_str_lookup, lookup_insert_eq. Qed.

(** The next argument is bound. *)
Ltac bound H :=
  apply outcome_bind, outcome_lift;
  let a := fresh "a" in destruct H as [a ->].

Ltac in_catalogue :=
  repeat first [apply list_elem_of_here | apply list_elem_of_further].

(** The tool runs and returns. *)
Ltac tool_returns :=
  tool_spec; intros ? ? [(? & -> & _) _]; by eexists.

(** X10.  A tool call that names an entry of the catalogue and whose
    payload parses to an object that conforms to that entry reaches the
    tool: binding its arguments raises nothing, and the result of the call
    is the result that the tool returns. *)
Theorem catalogue_calls_reach_the_tool (s : tool_schema) (tool_call : tool_call)
    (d : pydict) (user_id : string) (w : world) :
  s ∈ tools → tc_name tool_call = sch_name s →
  json_loads (tc_arguments tool_call) = inr (PDict d) →
  conforms s d →
  ∃ f result w',
    tool_functions !! tc_name tool_call = Some f
    ∧ call_tool f (<["user_id" := PStr user_id]> d) w = (inr result, w')
    ∧ _execute_tool_call tool_call user_id w = (inr result, w').
Proof.
  intros Hs Hname Hd Hc.
  destruct (catalogue_matches_signatures s Hs) as (f & Hf & Hp & Hr).
  assert (outcome (call_tool f (<["user_id" := PStr user_id]> d))
            (λ r _, ∃ result, r = inr result ∧ True) w) as H.
  { assert ("user_id" ∈ (signature f).1) as Hu by (destruct f; in_catalogue).
    pose proof (check_signature_conforms s f d user_id Hp Hr Hu Hc) as Hcs.
    assert (NoDup (sch_properties s).*1) as Hn.
    { rewrite Hp. by destruct f; apply (bool_decide_unpack _). }
    assert (∀ k ty, (k, ty) ∈ sch_properties s → k ≠ "user_id" →
                    typed (<["user_id" := PStr user_id]> d) k ty) as Ht
      by (intros; by eapply conforms_typed).
    assert (∀ k, k ∈ sch_required s →
                 is_Some ((<["user_id" := PStr user_id]> d) !! k)) as Hq
      by (intros; by eapply conforms_required).
    clear Hc Hd Hname Hf.
    unfold tools in Hs.
    repeat (apply elem_of_cons in Hs as [->|Hs]); [..|by apply elem_of_nil in Hs];
      destruct f; try discriminate; simpl in Hcs; unfold call_tool.
    1: { apply outcome_bind, outcome_lift. rewrite Hcs.
      apply outcome_bind, outcome_lift. rewrite arg_user_id.
      bound (arg_str_typed _ "title" (Ht "title" JString ltac:(in_catalogue) ltac:(done))
               (Hq "title" ltac:(in_catalogue))).
      bound (arg_opt_str_typed _ "description"
               (Ht "description" JString ltac:(in_catalogue) ltac:(done))).
      bound (arg_str_default_typed _ "priority" "Medium"
               (Ht "priority" JString ltac:(in_catalogue) ltac:(done))).
      bound (arg_opt_str_list_typed _ "tags"
               (Ht "tags" JArrayOfString ltac:(in_catalogue) ltac:(done))).
      bound (arg_opt_str_typed _ "due_date"
               (Ht "due_date" JString ltac:(in_catalogue) ltac:(done))).
      tool_returns. }
    1: { apply outcome_bind, outcome_lift. rewrite Hcs.
      apply outcome_bind, outcome_lift. rewrite arg_user_id.
      bound (arg_opt_str_typed _ "status"
               (Ht "status" JString ltac:(in_catalogue) ltac:(done))).
      bound (arg_opt_str_typed _ "priority"
               (Ht "priority" JString ltac:(in_catalogue) ltac:(done))).
      bound (arg_opt_str_list_typed _ "tags"
               (Ht "tags" JArrayOfString ltac:(in_catalogue) ltac:(done))).
      bound (arg_int_default_typed _ "limit" 20
               (Ht "limit" JInteger ltac:(in_catalogue) ltac:(done))).
      tool_returns. }
    1: { apply outcome_bind, outcome_lift. rewrite Hcs.
      apply outcome_bind, outcome_lift. rewrite arg_user_id.
      bound (arg_str_typed _ "task_id"
               (Ht "task_id" JString ltac:(in_catalogue) ltac:(done))
               (Hq "task_id" ltac:(in_catalogue))).
      bound (arg_opt_str_typed _ "title"
               (Ht "title" JString ltac:(in_catalogue) ltac:(done))).
      bound (arg_opt_str_typed _ "description"
               (Ht "description" JString ltac:(in_catalogue) ltac:(done))).
      bound (arg_opt_str_typed _ "status"
               (Ht "status" JString ltac:(in_catalogue) ltac:(done))).
      bound (arg_opt_str_typed _ "priority"
               (Ht "priority" JString ltac:(in_catalogue) ltac:(done))).
      bound (arg_opt_str_list_typed _ "tags"
               (Ht "tags" JArrayOfString ltac:(in_catalogue) ltac:(done))).
      bound (arg_opt_str_typed _ "due_date"
               (Ht "due_date" JString ltac:(in_catalogue) ltac:(done))).
      tool_returns. }
    all: apply outcome_bind, outcome_lift; rewrite Hcs.
    all: apply outcome_bind, outcome_lift; rewrite arg_user_id.
    all: bound (arg_str_typed _ "task_id"
                  (Ht "task_id" JString ltac:(in_catalogue) ltac:(done))
                  (Hq "task_id" ltac:(in_catalogue))).
    all: tool_returns. }
  apply outcome_returns_result in H as (result & w' & E & _).
  exists f, result, w'. split_and!; [by rewrite Hname|done|].
  rewrite (_execute_tool_call_dict _ _ _ _ Hd), Hname, Hf.
  unfold try_except. by rewrite E.
Qed.

(** ** Arguments that are left out *)

Lemma check_signature_insert_optional params required (kwargs : pydict) k v :
  k ∈ params → k ∉ required → kwargs !! k = None →
  check_signature params required (<[k := v]> kwargs)
  = check_signature params required kwargs.
Proof.
  intros Hp Hr Hk. unfold check_signature.
  rewrite (bool_decide_ext (map_Forall (λ k _, k ∈ params) (<[k:=v]> kwargs))
             (map_Forall (λ k _, k ∈ params) kwargs)).
  - rewrite (bool_decide_ext
               (Forall (λ k', is_Some (<[k:=v]> kwargs !! k')) required)
               (Forall (λ k', is_Some (kwargs !! k')) required)); [done|].
    rewrite !Forall_forall. split; intros H k' Hk'.
    + rewrite <- (lookup_insert_ne kwargs k k' v); [by apply H|].
      by intros ->.
    + rewrite lookup_insert_ne; [by apply H|]. by intros ->.
  - rewrite map_Forall_insert by done. split; [by intros [_ ?]|by split].
Qed.

(** X11.  The defaults of the tools: an [add_task] call without a priority
    is the call with the priority "Medium", and a [list_tasks] call
    without a limit is the call with the limit 20, in result and in
    effect. *)
Theorem omitted_arguments_take_their_defaults (kwargs : pydict) (w : world) :
  (kwargs !! "priority" = None →
   call_tool Tool_add_task kwargs w
   = call_tool Tool_add_task (<["priority" := PStr "Medium"]> kwargs) w)
  ∧ (kwargs !! "limit" = None →
     call_tool Tool_list_tasks kwargs w
     = call_tool Tool_list_tasks (<["limit" := PInt 20]> kwargs) w).
Proof.
  split; intros H; unfold call_tool.
  - rewrite check_signature_insert_optional; [|in_catalogue| |done].
    + unfold arg_str, arg_opt_str, arg_str_default, arg_opt_str_list.
      rewrite lookup_insert_eq, H. by rewrite !lookup_insert_ne by done.
    + rewrite !elem_of_cons, elem_of_nil. by intros [|[|]].
  - rewrite check_signature_insert_optional; [|in_catalogue| |done].
    + unfold arg_str, arg_opt_str, arg_int_default, arg_opt_str_list.
      rewrite lookup_insert_eq, H. by rewrite !lookup_insert_ne by done.
    + rewrite !elem_of_cons, elem_of_nil. by intros [|].
Qed.

(** * Further properties of the agent loop *)

(** One pass through the loop makes one model call; it raises only when
    that call fails, and then with the error of the call under the prefix
    "OpenAI API error: ". *)
Lemma run_iteration_outcome current_messages user_id w :
  outcome (run_iteration current_messages user_id)
    (λ r w', llm_calls w' = S (llm_calls w)
             ∧ ∀ e, r = inl e →
                 ∃ e0, chat_completions_create (llm_calls w) current_messages
                       = inl e0
                       ∧ e = Exception ("OpenAI API error: " +:+ exn_str e0)
                       ∧ w' = count_llm_call w) w.
Proof.
  unfold run_iteration. step. step. apply outcome_create_completion.
  destruct (chat_completions_create _ _) as [e0|c].
  { step. split; [done|]. intros e [= <-]. by exists e0. }
  destruct (requests_tools c); [|repeat step; by split].
  step. eapply outcome_mono; [apply execute_tool_calls_spec|].
  intros r w' [[ms ->] F]. repeat step. split; [|done].
  by destruct F as (_ & _ & _ & _ & _ & ->).
Qed.

(** X12.  [run] makes at most [max_iterations] model calls, whatever the
    model answers and whatever the tools and the storage do; and when it
    raises, it raises [Exception] with a message that begins with "OpenAI
    API error: ". *)
Theorem run_is_bounded (messages : list chat_entry) (user_id : string)
    (max_iterations : Z) (w : world) :
  ∃ r w',
    run messages user_id max_iterations w = (r, w')
    ∧ (llm_calls w ≤ llm_calls w' ≤ llm_calls w + Z.to_nat max_iterations)%nat
    ∧ ∀ e, r = inl e → ∃ msg, e = Exception ("OpenAI API error: " +:+ msg).
Proof.
  enough (outcome (run messages user_id max_iterations)
            (λ r w',
               (llm_calls w ≤ llm_calls w'
                ≤ llm_calls w + Z.to_nat max_iterations)%nat
               ∧ ∀ e, r = inl e →
                   ∃ msg, e = Exception ("OpenAI API error: " +:+ msg)) w)
    as [H].
  { destruct (run _ _ _ w) as [r w']. by exists r, w'. }
  unfold run. generalize (Z.to_nat max_iterations) as n. intros n.
  revert messages w. induction n as [|n IH]; intros ms w; simpl.
  - step. split; [lia|done].
  - step. eapply outcome_mono; [apply run_iteration_outcome|].
    intros r w1 [E1 He].
    destruct r as [e|[ms'|text]].
    + split; [lia|]. intros ? [= <-].
      destruct (He e eq_refl) as (e0 & _ & -> & _). by eexists.
    + eapply outcome_mono; [apply IH|].
      intros r w2 [E2 H2]. split; [lia|done].
    + step. split; [lia|done].
Qed.

Lemma run_iteration_returns current_messages user_id c w :
  chat_completions_create (llm_calls w) current_messages = inr c →
  requests_tools c = false →
  run_iteration current_messages user_id w
  = (inr (Return (final_response c)), count_llm_call w).
Proof.
  intros Hc Ht. unfold run_iteration, try_except, bind, create_completion.
  by rewrite Hc, Ht.
Qed.

Lemma run_iteration_raises current_messages user_id e w :
  chat_completions_create (llm_calls w) current_messages = inl e →
  run_iteration current_messages user_id w
  = (inl (Exception ("OpenAI API error: " +:+ exn_str e)), count_llm_call w).
Proof.
  intros Hc. unfold run_iteration, try_except, bind, create_completion.
  by rewrite Hc.
Qed.

(** X13.  When the model answers the first call without asking for a tool,
    [run] returns after that one call with the content of the answer, or
    with the fixed apology when the content is missing or empty, and the
    store is untouched. An empty list of tool calls counts as none. *)
Theorem run_returns_a_plain_reply (messages : list chat_entry)
    (user_id : string) (max_iterations : Z) (c : completion) (w : world) :
  0 < max_iterations →
  chat_completions_create (llm_calls w) messages = inr c →
  requests_tools c = false →
  run messages user_id max_iterations w
  = (inr (final_response c), count_llm_call w)
  ∧ (cm_content c = None ∨ cm_content c = Some "" →
     final_response c = NO_CONTENT_REPLY)
  ∧ (∀ text, cm_content c = Some text → text ≠ "" → final_response c = text).
Proof.
  intros Hm Hc Ht. split_and!.
  - unfold run.
    destruct (Z.to_nat max_iterations) as [|n] eqn:En; [lia|].
    cbn [run_loop]. unfold bind.
    by rewrite (run_iteration_returns _ _ _ _ Hc Ht).
  - unfold final_response. by intros [->| ->].
  - unfold final_response. intros text -> Hne. by destruct text.
Qed.

(** X14.  When the first model call fails, [run] raises [Exception] with
    the error of the call under the prefix "OpenAI API error: "; no tool
    has run and the store is untouched. *)
Theorem run_reports_a_model_failure (messages : list chat_entry)
    (user_id : string) (max_iterations : Z) (e : exn) (w : world) :
  0 < max_iterations →
  chat_completions_create (llm_calls w) messages = inl e →
  run messages user_id max_iterations w
  = (inl (Exception ("OpenAI API error: " +:+ exn_str e)), count_llm_call w).
Proof.
  intros Hm Hc. unfold run.
  destruct (Z.to_nat max_iterations) as [|n] eqn:En; [lia|].
  cbn [run_loop]. unfold bind.
  by rewrite (run_iteration_raises _ _ _ _ Hc).
Qed.

Lemma tool_calls_answered tool_calls user_id current_messages w :
  ∃ results w',
    execute_tool_calls tool_calls user_id current_messages w
    = (inr (current_messages
            ++ zip_with ToolEntry (tc_id <$> tool_calls) (json_dumps <$> results)),
       w')
    ∧ length results = length tool_calls
    ∧ Forall structured results
    ∧ llm_calls w' = llm_calls w.
Proof.
  revert current_messages w.
  induction tool_calls as [|tc tcs IH]; intros ms w; simpl.
  - exists [], w. by rewrite app_nil_r.
  - unfold bind.
    pose proof (outcome_elim _ _ _ (_execute_tool_call_spec tc user_id w)) as H.
    destruct (_execute_tool_call tc user_id w) as [r w1]. simpl in H.
    destruct H as [(d & -> & Hd) (_ & _ & _ & _ & _ & Hn1)].
    destruct (IH (ms ++ [ToolEntry (tc_id tc) (json_dumps d)]) w1)
      as (results & w' & -> & Hl & Hs & Hn).
    exists (d :: results), w'. split_and!.
    + by rewrite <- app_assoc.
    + simpl. by rewrite Hl.
    + by constructor.
    + congruence.
Qed.

(** X15.  The loop over the tool calls of one completion answers each of
    them: the working context grows by one tool entry per requested call,
    in the order of the calls, each under the id of its call and holding
    the serialized result, which is a structured result. *)
Theorem every_tool_call_is_answered (tool_calls : list tool_call)
    (user_id : string) (current_messages : list chat_entry) (w : world) :
  ∃ results w',
    execute_tool_calls tool_calls user_id current_messages w
    = (inr (current_messages
            ++ zip_with ToolEntry (tc_id <$> tool_calls) (json_dumps <$> results)),
       w')
    ∧ length results = length tool_calls
    ∧ Forall structured results.
Proof.
  destruct (tool_calls_answered tool_calls user_id current_messages w)
    as (results & w' & E & Hl & Hs & _).
  by exists results, w'.
Qed.

(** X16.  When the model asks for tools at the first call, [run] runs them
    and calls the model again with the working context grown by the
    request of the model and one tool entry per call, in order, each under
    the id of its call with the serialized result; when the model then
    answers without asking for a tool, [run] returns that answer after two
    model calls. *)
Theorem run_feeds_tool_results_back (messages : list chat_entry)
    (user_id : string) (max_iterations : Z) (c1 : completion)
    (tool_calls : list tool_call) (w : world) :
  1 < max_iterations →
  chat_completions_create (llm_calls w) messages = inr c1 →
  cm_tool_calls c1 = Some tool_calls → tool_calls ≠ [] →
  ∃ results w1,
    length results = length tool_calls
    ∧ Forall structured results
    ∧ llm_calls w1 = S (llm_calls w)
    ∧ ∀ c2,
        chat_completions_create (S (llm_calls w))
          (messages
           ++ [AssistantEntry (default "" (cm_content c1)) (Some tool_calls)]
           ++ zip_with ToolEntry (tc_id <$> tool_calls) (json_dumps <$> results))
        = inr c2 →
        requests_tools c2 = false →
        run messages user_id max_iterations w
        = (inr (final_response c2), count_llm_call w1).
Proof.
  intros Hm Hc Ht Hne.
  assert (requests_tools c1 = true) as Hr.
  { unfold requests_tools. rewrite Ht. by destruct tool_calls. }
  destruct (tool_calls_answered tool_calls user_id
              (messages ++ [AssistantEntry (default "" (cm_content c1))
                              (Some tool_calls)])
              (count_llm_call w)) as (results & w1 & E & Hl & Hs & Hn).
  exists results, w1. split_and!; [done|done|done|].
  intros c2 Hc2 Hr2. unfold run.
  destruct (Z.to_nat max_iterations) as [|[|n]] eqn:En; [lia|lia|].
  cbn [run_loop]. unfold bind at 1.
  unfold run_iteration at 1. unfold try_except, bind at 1, create_completion.
  rewrite Hc. cbn [fst snd]. rewrite Hr, Ht.
  change (default [] (Some tool_calls)) with tool_calls.
  unfold bind at 1. rewrite E. unfold ret at 1. unfold bind at 1.
  rewrite (run_iteration_returns _ _ c2); [done| |done].
  rewrite Hn, <- Hc2. by rewrite <- app_assoc.
Qed.

(** * Further properties of the chat request handler *)

Lemma outcome_any {A} (m : M A) w : outcome m (λ _ _, True) w.
Proof. by constructor. Qed.

Lemma outcome_of_eq {A} (m : M A) (Q : exn + A → world → Prop) w r w' :
  m w = (r, w') → Q r w' → outcome m Q w.
Proof. intros E H. constructor. by rewrite E. Qed.

(** ** The errors of the endpoint *)

(** X17.  Whatever goes wrong, the endpoint answers with one of three
    fixed errors: 404 "Conversation not found or access denied", 500 "AI
    service is currently unavailable. Please try again later." or 500 "An
    unexpected error occurred. Please try again.". No text of an internal
    error, of the storage or of the model, reaches the client. *)
Theorem chat_errors_are_fixed (request : ChatMessageRequest)
    (current_user : User) (w : world) :
  ∃ r w',
    post_chat_message request current_user w = (r, w')
    ∧ ∀ e, r = inl e →
        e = CONVERSATION_NOT_FOUND ∨ e = AI_UNAVAILABLE ∨ e = UNEXPECTED_ERROR.
Proof.
  enough (outcome (post_chat_message request current_user)
            (λ r _, ∀ e, r = inl e →
               e = CONVERSATION_NOT_FOUND ∨ e = AI_UNAVAILABLE
               ∨ e = UNEXPECTED_ERROR) w) as [H].
  { destruct (post_chat_message _ _ w) as [r w']. by exists r, w'. }
  unfold post_chat_message, send_chat_message.
  repeat first
    [ lazymatch goal with
      | |- outcome (run _ _ _) _ _ =>
          eapply outcome_mono; [apply outcome_any|]; intros [?|?] ? _
      end
    | chat_step | crunch_step ].
  all: intros ? [= <-].
  all: repeat match goal with
         | H : context [match conversations ?w !! ?i with _ => _ end] |- _ =>
             destruct (conversations w !! i) eqn:?
         end; simplify_eq.
  all: try match goal with
         | H : is_HTTPException _ = true |- _ => by simpl in H
         end.
  all: unfold CONVERSATION_NOT_FOUND, AI_UNAVAILABLE, UNEXPECTED_ERROR; auto.
Qed.

(** ** Conversations of other users *)

(** X18.  A request that names a conversation which is not stored, or
    which belongs to somebody else, by an id that the id column can hold
    (a signed 32-bit integer), is answered 404 "Conversation not found or
    access denied", the same in both cases; nothing is stored and the
    model is not called.  (An id outside that range makes the lookup of
    the program fail, which this embedding, with its unbounded ids, does
    not show.) *)
Theorem foreign_conversation_is_not_found (request : ChatMessageRequest)
    (current_user : User) (id : Z) (w : world) :
  req_conversation_id request = Some id → id ≠ 0 →
  - 2 ^ 31 ≤ id < 2 ^ 31 →
  db_fault_at (tick w) = false →
  (∀ c, conversations w !! id = Some c → conv_user_id c ≠ usr_id current_user) →
  post_chat_message request current_user w
  = (inl CONVERSATION_NOT_FOUND, next_tick w).
Proof.
  intros Hid Hz _ Hf Hc.
  unfold post_chat_message, send_chat_message, try_except, bind,
    get_or_create_conversation.
  rewrite Hid, bool_decide_eq_false_2 by done.
  unfold select_conversation, bind, db_roundtrip. rewrite Hf.
  cbn [conversations next_tick].
  destruct (conversations w !! id) as [c|]; [|done].
  destruct (decide _) as [Ho|]; [|done]. by destruct (Hc c).
Qed.

(** ** A missing API key *)

(** X19.  When no API key is configured, no chat request is answered:
    every request ends in 404 "Conversation not found or access denied" or
    in 500 "An unexpected error occurred. Please try again.", the model is
    not called, and tasks, messages and conversations stay as they were. *)
Theorem chat_without_api_key (request : ChatMessageRequest)
    (current_user : User) (w : world) :
  truthy_opt configured_api_key = false →
  ∃ e w',
    post_chat_message request current_user w = (inl e, w')
    ∧ (e = CONVERSATION_NOT_FOUND ∨ e = UNEXPECTED_ERROR)
    ∧ tasks w' = tasks w
    ∧ messages w' = messages w
    ∧ conversations w' = conversations w
    ∧ llm_calls w' = llm_calls w.
Proof.
  intros Hk.
  enough (outcome (post_chat_message request current_user)
            (λ r w', (∃ e, r = inl e
                           ∧ (e = CONVERSATION_NOT_FOUND ∨ e = UNEXPECTED_ERROR))
                     ∧ tasks w' = tasks w
                     ∧ messages w' = messages w
                     ∧ conversations w' = conversations w
                     ∧ llm_calls w' = llm_calls w) w) as [H].
  { destruct (post_chat_message _ _ w) as [r w']. simpl in H.
    destruct H as [(e & -> & He) H]. by exists e, w'. }
  unfold post_chat_message, send_chat_message.
  repeat first
    [ lazymatch goal with
      | H : truthy_opt configured_api_key = true |- _ => congruence
      end
    | chat_step | crunch_step ].
  all: try match goal with
         | H : is_HTTPException _ = true |- _ => by simpl in H
         end.
  all: unfold CONVERSATION_NOT_FOUND, UNEXPECTED_ERROR.
  all: split; [eexists; split; [done|auto]|done].
Qed.

(** ** A request that is answered *)

(** X20.  With reliable storage and an API key, a request whose
    conversation is there for the caller (its own conversation, or a new
    one when the request names none or names the id 0) is answered as soon
    as the model replies without asking for a tool. The model is called
    once, with the system prompt, the last twenty messages of the
    conversation and the new message; the response carries the id of the
    conversation and the reply of the model, or the fixed apology for an
    empty reply. The conversation is stored under that id for the caller,
    the message of the user and the reply are appended to the messages, in
    that order, and the tasks are untouched. *)
Theorem chat_request_is_answered (request : ChatMessageRequest)
    (current_user : User) (cid : Z) (c : completion) (w : world) :
  storage_reliable →
  truthy_opt configured_api_key = true →
  serves request (usr_id current_user) w cid →
  chat_completions_create (llm_calls w)
    (message_array (history_window cid w) (req_message request)) = inr c →
  requests_tools c = false →
  ∃ w' conversation t1 t2,
    post_chat_message request current_user w
    = (inr {| resp_conversation_id := cid; resp_response := final_response c |}, w')
    ∧ conversations w' = <[cid := conversation]> (conversations w)
    ∧ conv_user_id conversation = usr_id current_user
    ∧ messages w'
      = messages w
        ++ [mkMessage (Some (message_seq w + 1)) cid "user" (req_message request) t1;
            mkMessage (Some (message_seq w + 1 + 1)) cid "assistant"
              (final_response c) t2]
    ∧ tasks w' = tasks w
    ∧ llm_calls w' = S (llm_calls w).
Proof.
  intros R Hk Hs Hc Ht.
  enough (outcome (post_chat_message request current_user)
            (λ r w', r = inr {| resp_conversation_id := cid;
                                resp_response := final_response c |}
               ∧ ∃ conversation t1 t2,
                   conversations w' = <[cid := conversation]> (conversations w)
                   ∧ conv_user_id conversation = usr_id current_user
                   ∧ messages w'
                     = messages w
                       ++ [mkMessage (Some (message_seq w + 1)) cid "user"
                             (req_message request) t1;
                           mkMessage (Some (message_seq w + 1 + 1)) cid "assistant"
                             (final_response c) t2]
                   ∧ tasks w' = tasks w
                   ∧ llm_calls w' = S (llm_calls w)) w) as [H].
  { destruct (post_chat_message _ _ w) as [r w']. simpl in H.
    destruct H as (-> & conversation & t1 & t2 & H).
    by exists w', conversation, t1, t2. }
  unfold message_array, history_window, conversation_rows in Hc.
  unfold post_chat_message, send_chat_message, get_or_create_conversation.
  revert Hs. unfold serves.
  destruct (req_conversation_id request) as [i|]; [case_bool_decide|].
  all: intros Hs.
  1: destruct Hs as [-> Hn].
  2: destruct Hs as [-> (c0 & Hc0 & Ho)].
  3: destruct Hs as [-> Hn].
  all: repeat first
    [ reliable_contra
    | lazymatch goal with
      | |- outcome (run _ _ _) _ _ =>
          eapply (outcome_of_eq _ _ _ (inr (final_response c)) (count_llm_call _));
          [ unfold run; change (Z.to_nat 5) with 5%nat; cbn [run_loop];
            unfold bind; rewrite (run_iteration_returns _ _ c); [done| |done];
            rewrite <- Hc; simpl_world;
            cbn [session_messages omap list_omap]; rewrite app_nil_r;
            reflexivity
          | ]
      | H : 20 < 0 |- _ => done
      | H : truthy_opt configured_api_key = false |- _ => congruence
      | |- _ => first [chat_step | crunch_step]
      end ].
  all: simpl_world; simplify_eq; try done.
  all: repeat match goal with
         | E : conversations ?w0 !! ?i = Some _,
           H : context [match conversations ?w0 !! ?i with _ => _ end] |- _ =>
             rewrite E in H
         end.
  all: repeat case_decide; simplify_eq; try done.
  all: split; [done|]; eexists _, _, _; split_and!; try done.
  all: by rewrite <- app_assoc.
Qed.

(** ** A request that the model fails *)

(** X21.  With reliable storage and an API key, when the conversation is
    there for the caller and the model call fails, the request is answered
    500 "AI service is currently unavailable. Please try again later.":
    the error of the model is not passed on, the model was called once,
    and tasks, messages and conversations are as they were. *)
Theorem model_failure_is_service_unavailable (request : ChatMessageRequest)
    (current_user : User) (cid : Z) (e : exn) (w : world) :
  storage_reliable →
  truthy_opt configured_api_key = true →
  serves request (usr_id current_user) w cid →
  chat_completions_create (llm_calls w)
    (message_array (history_window cid w) (req_message request)) = inl e →
  ∃ w',
    post_chat_message request current_user w = (inl AI_UNAVAILABLE, w')
    ∧ conversations w' = conversations w
    ∧ messages w' = messages w
    ∧ tasks w' = tasks w
    ∧ llm_calls w' = S (llm_calls w).
Proof.
  intros R Hk Hs Hc.
  enough (outcome (post_chat_message request current_user)
            (λ r w', r = inl AI_UNAVAILABLE
               ∧ conversations w' = conversations w
               ∧ messages w' = messages w
               ∧ tasks w' = tasks w
               ∧ llm_calls w' = S (llm_calls w)) w) as [H].
  { destruct (post_chat_message _ _ w) as [r w']. simpl in H.
    destruct H as (-> & H). by exists w'. }
  unfold message_array, history_window, conversation_rows in Hc.
  unfold post_chat_message, send_chat_message, get_or_create_conversation.
  revert Hs. unfold serves.
  destruct (req_conversation_id request) as [i|]; [case_bool_decide|].
  all: intros Hs.
  1: destruct Hs as [-> Hn].
  2: destruct Hs as [-> (c0 & Hc0 & Ho)].
  3: destruct Hs as [-> Hn].
  all: repeat first
    [ reliable_contra
    | lazymatch goal with
      | |- outcome (run _ _ _) _ _ =>
          eapply (outcome_of_eq _ _ _
                    (inl (Exception ("OpenAI API error: " +:+ exn_str e)))
                    (count_llm_call _));
          [ unfold run; change (Z.to_nat 5) with 5%nat; cbn [run_loop];
            unfold bind; rewrite (run_iteration_raises _ _ e); [done|];
            rewrite <- Hc; simpl_world;
            cbn [session_messages omap list_omap]; rewrite app_nil_r;
            reflexivity
          | ]
      | H : 20 < 0 |- _ => done
      | H : truthy_opt configured_api_key = false |- _ => congruence
      | |- _ => first [chat_step | crunch_step]
      end ].
  all: simpl_world; simplify_eq; try done.
  all: repeat match goal with
         | E : conversations ?w0 !! ?i = Some _,
           H : context [match conversations ?w0 !! ?i with _ => _ end] |- _ =>
             rewrite E in H
         end.
  all: repeat case_decide; simplify_eq; done.
Qed.

(** * Further properties of the message history *)

Lemma insert_desc_perm m sorted : insert_desc m sorted ≡ₚ m :: sorted.
Proof.
  induction sorted as [|x rest IH]; simpl; [done|].
  destruct (msg_created_at x <=? msg_created_at m); [done|].
  rewrite IH. apply Permutation_swap.
Qed.

Lemma order_desc_perm rows : order_by_created_at_desc rows ≡ₚ rows.
Proof.
  induction rows as [|x rest IH]; [done|].
  unfold order_by_created_at_desc in *. simpl.
  by rewrite insert_desc_perm, IH.
Qed.

Lemma insert_desc_sorted m sorted :
  StronglySorted (λ a b, msg_created_at b ≤ msg_created_at a) sorted →
  StronglySorted (λ a b, msg_created_at b ≤ msg_created_at a)
                 (insert_desc m sorted).
Proof.
  induction 1 as [|x rest Hs IH Hx]; simpl.
  - repeat constructor.
  - destruct (Z.leb_spec (msg_created_at x) (msg_created_at m)).
    + constructor; [by constructor|]. constructor; [done|].
      eapply Forall_impl; [exact Hx|]. simpl. intros. lia.
    + constructor; [done|]. rewrite insert_desc_perm.
      constructor; [lia|done].
Qed.

Lemma order_desc_sorted rows :
  StronglySorted (λ a b, msg_created_at b ≤ msg_created_at a)
                 (order_by_created_at_desc rows).
Proof.
  induction rows as [|x rest IH]; [constructor|].
  by apply insert_desc_sorted.
Qed.

Lemma StronglySorted_reverse {A} (R : relation A) (l : list A) :
  StronglySorted R l → StronglySorted (flip R) (reverse l).
Proof.
  induction 1 as [|x l Hs IH Hx]; [constructor|].
  rewrite reverse_cons. apply StronglySorted_app_2; [|done|repeat constructor].
  intros x1 x2 H1 ->%list_elem_of_singleton. rewrite elem_of_reverse in H1.
  rewrite Forall_forall in Hx. unfold flip. by apply Hx.
Qed.

(** What a fetch of the messages of a conversation returns. *)
Lemma get_conversation_messages_returns session conversation_id limit w msgs w' :
  get_conversation_messages session conversation_id limit w = (inr msgs, w') →
  0 ≤ limit
  ∧ msgs = reverse (take (Z.to_nat limit)
             (order_by_created_at_desc (visible_rows session conversation_id w)))
  ∧ w' = next_tick w.
Proof.
  unfold get_conversation_messages, bind, db_roundtrip, visible_rows.
  destruct (db_fault_at (tick w)); [done|].
  destruct (Z.ltb_spec limit 0); [done|]. by intros [= <- <-].
Qed.

(** X22.  The messages fetched for a conversation are messages of that
    conversation, taken from the table and from what the session has
    added: none of another conversation, none invented, none twice that is
    there once. There are at most [limit] of them, and all messages of the
    conversation when these are at most [limit]. *)
Theorem fetched_messages_are_of_the_conversation (session : AsyncSession)
    (conversation_id limit : Z) (w w' : world) (msgs : list Message) :
  get_conversation_messages session conversation_id limit w = (inr msgs, w') →
  Forall (λ m, msg_conversation_id m = conversation_id) msgs
  ∧ msgs ⊆+ visible_rows session conversation_id w
  ∧ Z.of_nat (length msgs) ≤ limit
  ∧ (Z.of_nat (length (visible_rows session conversation_id w)) ≤ limit →
     msgs ≡ₚ visible_rows session conversation_id w).
Proof.
  intros (Hl & -> & _)%get_conversation_messages_returns.
  assert (reverse (take (Z.to_nat limit)
            (order_by_created_at_desc (visible_rows session conversation_id w)))
          ⊆+ visible_rows session conversation_id w) as Hsub.
  { rewrite reverse_Permutation.
    etrans; [apply sublist_submseteq, sublist_take|].
    apply Permutation_submseteq, order_desc_perm. }
  split_and!; [|done| |].
  - apply Forall_forall. intros m Hm.
    eapply elem_of_submseteq in Hm; [|exact Hsub].
    unfold visible_rows in Hm. by apply list_elem_of_filter in Hm as [? _].
  - rewrite length_reverse, length_take. lia.
  - intros Hn. rewrite reverse_Permutation, take_ge; [apply order_desc_perm|].
    rewrite order_desc_perm. lia.
Qed.

(** X23.  The messages fetched for a conversation come oldest first, and
    they are the latest ones: no message of the conversation that was left
    out is newer than one that was fetched. *)
Theorem fetched_messages_are_the_latest (session : AsyncSession)
    (conversation_id limit : Z) (w w' : world) (msgs : list Message) :
  get_conversation_messages session conversation_id limit w = (inr msgs, w') →
  StronglySorted (λ a b, msg_created_at a ≤ msg_created_at b) msgs
  ∧ ∀ m m', m ∈ msgs → m' ∈ visible_rows session conversation_id w →
            m' ∉ msgs → msg_created_at m' ≤ msg_created_at m.
Proof.
  intros (Hl & -> & _)%get_conversation_messages_returns.
  pose proof (order_desc_sorted (visible_rows session conversation_id w)) as Hs.
  rewrite <- (take_drop (Z.to_nat limit)) in Hs.
  split.
  - apply (StronglySorted_reverse _ _ (StronglySorted_app_1_l _ _ _ Hs)).
  - intros m m' Hm Hm' Hn.
    rewrite elem_of_reverse in Hm. rewrite elem_of_reverse in Hn.
    rewrite <- order_desc_perm, <- (take_drop (Z.to_nat limit)) in Hm'.
    apply elem_of_app in Hm' as [?|Hd]; [done|].
    exact (StronglySorted_app_1_elem_of _ _ _ _ _ Hs Hm Hd).
Qed.

(** * Further properties of the tags column *)

Lemma split_comma_nonempty s : Str.split_comma s ≠ [].
Proof.
  destruct s as [|c s]; simpl; [done|].
  destruct (Ascii.eqb c ","); [done|]. by destruct (Str.split_comma s).
Qed.

Lemma join_cons_char c t ts :
  Str.join "," (String c t :: ts) = String c (Str.join "," (t :: ts)).
Proof. by destruct ts. Qed.

Lemma join_split_comma s : Str.join "," (Str.split_comma s) = s.
Proof.
  induction s as [|c s IH]; [done|]. cbn [Str.split_comma].
  destruct (Ascii.eqb_spec c ",") as [->|Hc].
  - destruct (Str.split_comma s) as [|t ts] eqn:E;
      [by destruct (split_comma_nonempty s)|].
    change (Str.join "," ("" :: t :: ts)) with (String "," (Str.join "," (t :: ts))).
    by rewrite IH.
  - destruct (Str.split_comma s) as [|t ts] eqn:E;
      [by destruct (split_comma_nonempty s)|].
    by rewrite join_cons_char, IH.
Qed.

Lemma split_comma_pieces s :
  Forall (λ tag, Str.has_char "," tag = false) (Str.split_comma s).
Proof.
  induction s as [|c s IH]; cbn [Str.split_comma]; [by repeat constructor|].
  destruct (Ascii.eqb c ",") eqn:Hc; [by constructor|].
  destruct (Str.split_comma s) as [|t ts]; [repeat constructor|].
  - cbn [Str.has_char]. by rewrite Ascii.eqb_sym, Hc.
  - inversion IH as [|?? Ht Hts]; subst. constructor; [|done].
    cbn [Str.has_char]. by rewrite Ascii.eqb_sym, Hc, Ht.
Qed.

(** X24.  The tags that are reported for a stored column can be sent back
    unchanged: none of them contains a comma, and storing them again, as
    [add_task] does or as [update_task] does, gives the column that was
    stored. *)
Theorem reported_tags_store_the_same_column (stored : string) :
  Forall (λ tag, Str.has_char "," tag = false) (tags_out stored)
  ∧ tags_in (Some (tags_out stored)) = stored
  ∧ Str.join "," (tags_out stored) = stored.
Proof.
  unfold tags_out, tags_in. destruct stored as [|c s]; [done|].
  rewrite truthy_cons. split_and!.
  - apply split_comma_pieces.
  - destruct (Str.split_comma (String c s)) as [|t ts] eqn:E;
      [by destruct (split_comma_nonempty (String c s))|].
    rewrite <- E. apply join_split_comma.
  - apply join_split_comma.
Qed.

(** * What the agent leaves alone *)

(** X25.  Neither a tool call nor a whole run of the agent writes to the
    chat tables: messages, conversations and both id sequences are after
    it as they were before it, whatever the model asks for; and a tool
    call makes no model call. *)
Theorem agent_leaves_the_chat_tables_alone (user_id : string) (w : world) :
  (∀ tool_call,
     let w' := (_execute_tool_call tool_call user_id w).2 in
     messages w' = messages w
     ∧ conversations w' = conversations w
     ∧ conversation_seq w' = conversation_seq w
     ∧ message_seq w' = message_seq w
     ∧ llm_calls w' = llm_calls w)
  ∧ (∀ messages_in max_iterations,
       let w' := (run messages_in user_id max_iterations w).2 in
       messages w' = messages w
       ∧ conversations w' = conversations w
       ∧ conversation_seq w' = conversation_seq w
       ∧ message_seq w' = message_seq w).
Proof.
  split.
  - intros tool_call.
    pose proof (outcome_elim _ _ _ (_execute_tool_call_spec tool_call user_id w))
      as [_ (_ & H)]. exact H.
  - intros messages_in max_iterations.
    pose proof (outcome_elim _ _ _ (run_spec messages_in user_id max_iterations w))
      as (_ & H). exact H.
Qed.

End Core.


(** * The claims on the sample environment *)

(** C1, as stated, fails: [update_task] called without any field on a
    task of another user reports the validation error, not "Task not
    found or access denied". *)
Lemma update_task_without_fields_is_a_validation_error :
  tasks Sample.w_tasks !! "t1" = Some Sample.alice_task
  ∧ task_user_id Sample.alice_task = "alice"
  ∧ "bob" ≠ "alice"
  ∧ ∃ w', update_task Sample.clock Sample.reliable Sample.no_date Sample.iso
            "bob" "t1" None None None None None None Sample.w_tasks
          = (inr (failure "At least one field must be provided to update"), w')
          ∧ failure "At least one field must be provided to update" !! "error"
            ≠ Some (PStr NOT_FOUND).
Proof.
  split_and!; [reflexivity|reflexivity|discriminate|].
  eexists. split; [vm_compute; reflexivity|]. rewrite failure_error. discriminate.
Qed.

Lemma sample_storage_reliable : storage_reliable Sample.reliable.
Proof. intros n. reflexivity. Defined.

(** C1, as amended, applies: bob's calls on alice's task are denied. *)
Lemma cross_user_calls_denied_witness :
  denied (complete_task Sample.clock Sample.reliable Sample.iso "bob" "t1")
         Sample.w_tasks
  ∧ denied (delete_task Sample.reliable "bob" "t1") Sample.w_tasks
  ∧ denied (update_task Sample.clock Sample.reliable Sample.no_date Sample.iso
              "bob" "t1" (Some "Mine now") None None None None None)
           Sample.w_tasks.
Proof.
  destruct (cross_user_calls_denied Sample.clock Sample.reliable Sample.no_date
              Sample.iso "alice" "bob" "t1" Sample.alice_task Sample.w_tasks)
    as (_ & _ & H & _); [reflexivity|reflexivity|discriminate|].
  destruct (H sample_storage_reliable) as [(Hc & Hd & Hu) _].
  split_and!; [exact Hc|exact Hd|apply Hu; reflexivity].
Defined.

(** C2 applies: a payload that names mallory as the user is dispatched
    exactly as the payload without a user, and the task it creates
    belongs to alice, the caller. *)
Lemma injected_user_id_witness :
  _execute_tool_call Sample.clock Sample.uuids Sample.reliable Sample.no_date
    Sample.iso Sample.contains Sample.loads
    (mkToolCall "call-1" "add_task" "milk-for-mallory") "alice" Sample.w_tasks
  = _execute_tool_call Sample.clock Sample.uuids Sample.reliable Sample.no_date
      Sample.iso Sample.contains Sample.loads
      (mkToolCall "call-1" "add_task" "milk") "alice" Sample.w_tasks
  ∧ task_user_id
      <$> tasks (_execute_tool_call Sample.clock Sample.uuids Sample.reliable
                   Sample.no_date Sample.iso Sample.contains Sample.loads
                   (mkToolCall "call-1" "add_task" "milk-for-mallory") "alice"
                   Sample.w_tasks).2 !! Sample.uuids 0
    = Some "alice".
Proof.
  split; [|vm_compute; reflexivity].
  eapply (injected_user_id_is_the_caller Sample.clock Sample.uuids Sample.reliable
            Sample.no_date Sample.iso Sample.contains Sample.loads Sample.dumps
            Sample.model_lists
            (mkToolCall "call-1" "add_task" "milk") "alice" Sample.w_tasks);
    [reflexivity|reflexivity|reflexivity|reflexivity|vm_compute; reflexivity].
Defined.

(** C3 applies: against the model that always asks for a listing, [run]
    gives up after five model calls. *)
Lemma run_stops_at_the_iteration_cap_witness :
  ∃ w', run Sample.clock Sample.uuids Sample.reliable Sample.no_date Sample.iso
          Sample.contains Sample.loads Sample.dumps Sample.model_lists
          [Entry "user" "Show me my tasks"] "alice" 5 Sample.w_tasks
        = (inr FALLBACK_REPLY, w')
        ∧ llm_calls w' = 5%nat.
Proof.
  apply (run_stops_at_the_iteration_cap Sample.clock Sample.uuids Sample.reliable
           Sample.no_date Sample.iso Sample.contains Sample.loads Sample.dumps
           Sample.model_lists [Entry "user" "Show me my tasks"] "alice"
           Sample.w_tasks).
  intros n messages. eexists. split; reflexivity.
Defined.

(** C4 applies: with the model out of reach, the request into alice's
    conversation fails as "AI service unavailable" and no message is
    stored. *)
Lemma chat_request_is_atomic_witness :
  (post_chat_message Sample.clock Sample.uuids Sample.reliable Sample.no_date
     Sample.iso Sample.contains Sample.loads Sample.dumps Sample.model_down
     Sample.api_key Sample.prompt
     (mkChatMessageRequest (Some 1) "Add a task to buy milk") (mkUser "alice")
     Sample.w_conversation).1
  = inl (HTTPException 500
           "AI service is currently unavailable. Please try again later.")
  ∧ messages
      (post_chat_message Sample.clock Sample.uuids Sample.reliable Sample.no_date
         Sample.iso Sample.contains Sample.loads Sample.dumps Sample.model_down
         Sample.api_key Sample.prompt
         (mkChatMessageRequest (Some 1) "Add a task to buy milk") (mkUser "alice")
         Sample.w_conversation).2
    = messages Sample.w_conversation.
Proof.
  split; [vm_compute; reflexivity|].
  apply (chat_request_is_atomic Sample.clock Sample.uuids Sample.reliable
           Sample.no_date Sample.iso Sample.contains Sample.loads Sample.dumps
           Sample.model_down Sample.api_key Sample.prompt
           (mkChatMessageRequest (Some 1) "Add a task to buy milk")
           (mkUser "alice") Sample.w_conversation _
           (inl (HTTPException 500
                   "AI service is currently unavailable. Please try again later."))).
  vm_compute. reflexivity.
Defined.

(** C5.  The user message is not persisted before the Agent Loop is
    invoked, although [store_message] is documented to persist
    immediately: alice sends a message to her conversation 1 while the
    model cannot be reached.  The request is answered with status 500,
    the AI service being unavailable; afterwards her conversation is
    still stored but her message is not. *)
Lemma user_message_is_not_stored_when_the_agent_fails :
  ∃ w',
    post_chat_message Sample.clock Sample.uuids Sample.reliable Sample.no_date
      Sample.iso Sample.contains Sample.loads Sample.dumps Sample.model_down
      Sample.api_key Sample.prompt
      (mkChatMessageRequest (Some 1) "Add a task to buy milk") (mkUser "alice")
      Sample.w_conversation
    = (inl (HTTPException 500
              "AI service is currently unavailable. Please try again later."),
       w')
    ∧ conversations w' !! 1 = Some Sample.alice_conversation
    ∧ messages w' = [].
Proof. eexists. split_and!; vm_compute; reflexivity. Qed.

(** C6 applies: of the three messages of conversation 1, the last two
    are fetched, oldest first; the message of conversation 2 that lies
    between them in time is not among them. *)
Lemma last_messages_are_the_tail_of_history_witness :
  ∃ w', get_conversation_messages Sample.reliable [] 1 2 Sample.w_history
        = (inr [Sample.m2; Sample.m4], w').
Proof.
  destruct (last_messages_are_the_tail_of_history Sample.reliable 1 2
              Sample.w_history) as [[w' E] _].
  - exact sample_storage_reliable.
  - vm_compute. repeat constructor.
  - vm_compute. lia.
  - exists w'. exact E.
Defined.

(** C8, as stated, fails: the second call stores another [updated_at]
    than the first, so the state after two calls is not the state after
    one. *)
Lemma complete_task_twice_changes_updated_at :
  ∃ d1 w1 d2 w2 r1 r2,
    complete_task Sample.clock Sample.reliable Sample.iso "alice" "t1"
      Sample.w_tasks = (inr d1, w1)
    ∧ complete_task Sample.clock Sample.reliable Sample.iso "alice" "t1" w1
      = (inr d2, w2)
    ∧ d1 !! "success" = Some (PBool true)
    ∧ d2 !! "success" = Some (PBool true)
    ∧ tasks w1 !! "t1" = Some r1
    ∧ tasks w2 !! "t1" = Some r2
    ∧ task_updated_at r1 = 1
    ∧ task_updated_at r2 = 6
    ∧ r1 ≠ r2.
Proof.
  do 6 eexists. split_and!; try (vm_compute; reflexivity). discriminate.
Qed.

(** C8, as amended, applies to alice's task. *)
Lemma complete_task_twice_witness :
  ∃ d1 w1 d2 w2 t1 t2,
    complete_task Sample.clock Sample.reliable Sample.iso "alice" "t1"
      Sample.w_tasks = (inr d1, w1)
    ∧ complete_task Sample.clock Sample.reliable Sample.iso "alice" "t1" w1
      = (inr d2, w2)
    ∧ d1 !! "success" = Some (PBool true)
    ∧ d2 !! "success" = Some (PBool true)
    ∧ tasks w1 !! "t1" = Some t1
    ∧ task_completed t1 = true ∧ task_status t1 = "done"
    ∧ t2 = with_updated_at t1 (task_updated_at t2)
    ∧ tasks w2 = <["t1" := t2]> (tasks w1)
    ∧ (task_updated_at t2 = task_updated_at t1 → tasks w2 = tasks w1)
    ∧ task_updated_at t1 = Sample.clock (S (tick Sample.w_tasks))
    ∧ task_updated_at t2 = Sample.clock (S (tick w1)).
Proof.
  apply (complete_task_twice Sample.clock Sample.reliable Sample.iso
           "alice" "t1" Sample.alice_task Sample.w_tasks);
    [exact sample_storage_reliable|reflexivity|reflexivity].
Defined.

(** C9 applies: alice sets her finished task back to "ready"; the call
    succeeds and the stored row is completed and ready at once. *)
Lemma update_status_and_completed_witness :
  ∃ d w' t',
    update_task Sample.clock Sample.reliable Sample.no_date Sample.iso
      "alice" "t2" None None (Some "ready") None None None Sample.w_tasks
    = (inr d, w')
    ∧ d !! "success" = Some (PBool true)
    ∧ tasks w' !! "t2" = Some t'
    ∧ task_status t' = "ready"
    ∧ task_completed t' = true.
Proof.
  eexists _, _.
  edestruct (update_status_and_completed Sample.clock Sample.reliable
               Sample.no_date Sample.iso "alice" "t2" None None (Some "ready")
               None None None Sample.w_tasks)
    as (t & t' & Ht & _ & Ht' & Hs & _ & Hk & _);
    [vm_compute; reflexivity|vm_compute; reflexivity|].
  exists t'. vm_compute in Ht. injection Ht as <-.
  split_and!; [reflexivity|vm_compute; reflexivity|exact Ht'|exact Hs|].
  apply Hk. reflexivity.
Defined.

(** C10, as stated, fails: the list of one empty tag contains no comma,
    and is reported as the empty list. *)
Lemma single_empty_tag_is_dropped :
  Forall (λ tag, Str.has_char "," tag = false) [""]
  ∧ ∃ d data w',
      add_task Sample.clock Sample.uuids Sample.reliable Sample.no_date
        Sample.iso "alice" "Buy milk" None "Medium" (Some [""]) None
        Sample.w_tasks = (inr d, w')
      ∧ d !! "success" = Some (PBool true)
      ∧ d !! "data" = Some (PDict data)
      ∧ data !! "tags" = Some (PList []).
Proof.
  split; [by repeat constructor|].
  do 3 eexists. split_and!; vm_compute; reflexivity.
Qed.

(** C10, as amended, applies: two plain tags come back as they went in,
    and a tag with a comma comes back as two. *)
Lemma tags_are_joined_and_split_witness :
  (∃ d data w',
     add_task Sample.clock Sample.uuids Sample.reliable Sample.no_date
       Sample.iso "alice" "Buy milk" None "Medium" (Some ["home"; "shop"]) None
       Sample.w_tasks = (inr d, w')
     ∧ d !! "data" = Some (PDict data)
     ∧ data !! "tags" = Some (PList [PStr "home"; PStr "shop"]))
  ∧ (∃ d data w',
       add_task Sample.clock Sample.uuids Sample.reliable Sample.no_date
         Sample.iso "alice" "Buy milk" None "Medium" (Some ["a,b"]) None
         Sample.w_tasks = (inr d, w')
       ∧ d !! "data" = Some (PDict data)
       ∧ data !! "tags" = Some (PList [PStr "a"; PStr "b"])).
Proof.
  destruct (tags_are_joined_and_split Sample.clock Sample.uuids Sample.reliable
              Sample.no_date Sample.iso Sample.contains) as (Hadd & Hfree & Hab & _).
  split.
  - edestruct (Hadd "alice" "Buy milk" None "Medium" (Some ["home"; "shop"]) None
                 Sample.w_tasks) as (data & Hd & Ht);
      [vm_compute; reflexivity|vm_compute; reflexivity|].
    eexists _, data, _. split_and!; [vm_compute; reflexivity|exact Hd|].
    rewrite Ht, Hfree; [reflexivity|by repeat constructor|discriminate].
  - edestruct (Hadd "alice" "Buy milk" None "Medium" (Some ["a,b"]) None
                 Sample.w_tasks) as (data & Hd & Ht);
      [vm_compute; reflexivity|vm_compute; reflexivity|].
    eexists _, data, _. split_and!; [vm_compute; reflexivity|exact Hd|].
    by rewrite Ht, Hab.
Defined.

(** * The further properties on the sample environment *)

(** [len] counts characters, not bytes: a title of 101 euro signs, which
    are 303 bytes in UTF-8, has length 101 and passes the validation of
    [add_task]; one of 201 does not. *)
Lemma len_counts_characters :
  Str.len (String.concat "" (replicate 101 "€")) = 101
  ∧ String.length (String.concat "" (replicate 101 "€")) = 303%nat
  ∧ add_arguments_valid Sample.no_date
      (String.concat "" (replicate 101 "€")) None "Medium" None = true
  ∧ add_arguments_valid Sample.no_date
      (String.concat "" (replicate 201 "€")) None "Medium" None = false.
Proof. split_and!; vm_compute; reflexivity. Qed.

(** X1 applies: a task without a title, an update to the empty title and a
    listing with the limit 0 are rejected, and nothing is consulted. *)
Lemma validation_comes_before_the_store_witness :
  (∃ error,
     add_task Sample.clock Sample.uuids Sample.reliable Sample.no_date Sample.iso
       "alice" "" None "Medium" None None Sample.w_tasks
     = (inr (failure error), Sample.w_tasks))
  ∧ (∃ error,
       update_task Sample.clock Sample.reliable Sample.no_date Sample.iso
         "alice" "t1" (Some "") None None None None None Sample.w_tasks
       = (inr (failure error), Sample.w_tasks))
  ∧ (∃ error,
       list_tasks Sample.reliable Sample.iso Sample.contains
         "alice" None None None 0 Sample.w_tasks
       = (inr (failure error), Sample.w_tasks)).
Proof.
  destruct (validation_comes_before_the_store Sample.clock Sample.uuids
              Sample.reliable Sample.no_date Sample.iso Sample.contains
              "alice" Sample.w_tasks) as (Ha & Hu & Hl).
  split_and!.
  - apply Ha. reflexivity.
  - apply Hu. reflexivity.
  - apply Hl. reflexivity.
Defined.

(** X2 applies: alice adds a third task, without a due date. *)
Lemma add_task_creates_the_row_witness :
  ∃ d w' t,
    add_task Sample.clock Sample.uuids Sample.reliable Sample.no_date Sample.iso
      "alice" "Buy bread" None "High" (Some ["shop"]) None Sample.w_tasks
    = (inr d, w')
    ∧ d !! "success" = Some (PBool true)
    ∧ tasks w' = <[Sample.uuids (tick Sample.w_tasks) := t]> (tasks Sample.w_tasks)
    ∧ task_user_id t = "alice"
    ∧ task_title t = "Buy bread"
    ∧ task_description t = None
    ∧ task_priority t = "High"
    ∧ task_tags t = tags_in (Some ["shop"])
    ∧ task_due_date t = None
    ∧ task_completed t = false
    ∧ task_status t = "ready".
Proof.
  apply (add_task_creates_the_row Sample.clock Sample.uuids Sample.reliable
           Sample.no_date Sample.iso "alice" "Buy bread" None "High"
           (Some ["shop"]) None Sample.w_tasks);
    [exact sample_storage_reliable|reflexivity|reflexivity
    |vm_compute; reflexivity].
Defined.

(** X3 applies: the refresh after the commit fails, alice is told that the
    task could not be created, and the task is there. *)
Lemma add_task_can_fail_after_the_write_witness :
  ∃ w' t,
    add_task Sample.clock Sample.uuids Sample.refresh_fails Sample.no_date
      Sample.iso "alice" "Buy bread" None "High" None None Sample.w_tasks
    = (inr (failure "Failed to create task: connection failure"), w')
    ∧ tasks w' = <[Sample.uuids (tick Sample.w_tasks) := t]> (tasks Sample.w_tasks)
    ∧ task_user_id t = "alice"
    ∧ task_title t = "Buy bread".
Proof.
  apply (add_task_can_fail_after_the_write Sample.clock Sample.uuids
           Sample.refresh_fails Sample.no_date Sample.iso "alice" "Buy bread"
           None "High" None None Sample.w_tasks);
    [reflexivity|vm_compute; reflexivity|reflexivity|reflexivity].
Defined.

(** X5 applies: alice lists her completed tasks. *)
Lemma list_tasks_lists_rows_of_the_caller_witness :
  ∃ rows w',
    list_tasks Sample.reliable Sample.iso Sample.contains
      "alice" (Some "completed") None None 20 Sample.w_tasks
    = (inr (dict [("success", PBool true);
                  ("data", PList (listed_task Sample.iso <$> rows));
                  ("count", PInt (Z.of_nat (length rows)))]), w')
    ∧ Z.of_nat (length rows) ≤ 20
    ∧ NoDup rows.*1
    ∧ ∀ id t, (id, t) ∈ rows →
        tasks Sample.w_tasks !! id = Some t
        ∧ task_user_id t = "alice"
        ∧ (Some "completed" = Some "completed" → task_completed t = true)
        ∧ (Some "completed" = Some "pending" → task_completed t = false)
        ∧ (∀ p, None = Some p → p ≠ "" → task_priority t = p).
Proof.
  apply (list_tasks_lists_rows_of_the_caller Sample.reliable Sample.iso
           Sample.contains "alice" (Some "completed") None None 20
           Sample.w_tasks);
    [exact sample_storage_reliable|reflexivity].
Defined.

(** X6 applies: the task that alice adds, without a due date, is in her
    next listing, which counts three tasks. *)
Lemma added_task_is_listed_witness :
  ∃ d1 w1 d2 w2 rows t,
    add_task Sample.clock Sample.uuids Sample.reliable Sample.no_date Sample.iso
      "alice" "Buy bread" None "High" None None Sample.w_tasks = (inr d1, w1)
    ∧ list_tasks Sample.reliable Sample.iso Sample.contains
        "alice" None None None 20 w1 = (inr d2, w2)
    ∧ d2 !! "success" = Some (PBool true)
    ∧ d2 !! "data" = Some (PList (listed_task Sample.iso <$> rows))
    ∧ (Sample.uuids (tick Sample.w_tasks), t) ∈ rows
    ∧ task_title t = "Buy bread"
    ∧ d2 !! "count"
      = Some (PInt (1 + Z.of_nat (length (owned_rows "alice"
                                            (tasks Sample.w_tasks))))).
Proof.
  apply (added_task_is_listed Sample.clock Sample.uuids Sample.reliable
           Sample.no_date Sample.iso Sample.contains "alice" "Buy bread" None
           "High" None None 20 Sample.w_tasks);
    [exact sample_storage_reliable|reflexivity|reflexivity
    |vm_compute; reflexivity|].
  split; by vm_compute.
Defined.

(** X7 applies: alice deletes her task. *)
Lemma delete_task_removes_the_row_witness :
  ∃ d w',
    delete_task Sample.reliable "alice" "t1" Sample.w_tasks = (inr d, w')
    ∧ d !! "success" = Some (PBool true)
    ∧ d !! "data" = Some (PDict (dict [("id", PStr "t1");
                                       ("title", PStr "Buy milk");
                                       ("deleted", PBool true)]))
    ∧ tasks w' = delete "t1" (tasks Sample.w_tasks)
    ∧ ∀ anyone,
        denied (delete_task Sample.reliable anyone "t1") w'
        ∧ denied (complete_task Sample.clock Sample.reliable Sample.iso anyone "t1")
                 w'.
Proof.
  apply (delete_task_removes_the_row Sample.clock Sample.reliable Sample.iso
           "alice" "t1" Sample.alice_task Sample.w_tasks);
    [exact sample_storage_reliable|reflexivity|reflexivity].
Defined.

(** X8 applies: alice renames her open task and sets it to "done": the
    title and the status are the new ones, [completed] is set, and the
    priority, the tags and the missing due date are as they were. *)
Lemma update_task_keeps_what_is_not_supplied_witness :
  ∃ d w' t',
    update_task Sample.clock Sample.reliable Sample.no_date Sample.iso
      "alice" "t1" (Some "Buy oat milk") None (Some "done") None None None
      Sample.w_tasks
    = (inr d, w')
    ∧ d !! "success" = Some (PBool true)
    ∧ tasks w' = <["t1" := t']> (tasks Sample.w_tasks)
    ∧ task_title t' = "Buy oat milk"
    ∧ task_status t' = "done"
    ∧ task_completed t' = true
    ∧ task_priority t' = "Medium"
    ∧ task_tags t' = ""
    ∧ task_due_date t' = None
    ∧ task_user_id t' = "alice".
Proof.
  destruct (update_task_keeps_what_is_not_supplied Sample.clock Sample.reliable
              Sample.no_date Sample.iso "alice" "t1" (Some "Buy oat milk")
              None (Some "done") None None Sample.alice_task Sample.w_tasks)
    as (d & w' & t' & E & Hs & W & Ht & _ & Hst & Hc & Hp & Hg & Hd & Hu & _);
    [exact sample_storage_reliable|reflexivity|reflexivity|reflexivity|].
  exists d, w', t'. split_and!; [exact E|exact Hs|exact W|exact Ht|exact Hst
                                 |exact Hc|exact Hp|exact Hg|exact Hd|exact Hu].
Defined.

(** X9 applies: an [add_task] call without a title, and a call whose
    payload does not parse. *)
Lemma malformed_tool_call_touches_nothing_witness :
  (∃ error,
     _execute_tool_call Sample.clock Sample.uuids Sample.reliable Sample.no_date
       Sample.iso Sample.contains Sample.loads
       (mkToolCall "call-1" "add_task" "{}") "alice" Sample.w_tasks
     = (inr (failure error), Sample.w_tasks))
  ∧ (∃ error,
       _execute_tool_call Sample.clock Sample.uuids Sample.reliable Sample.no_date
         Sample.iso Sample.contains Sample.loads
         (mkToolCall "call-2" "add_task" "{") "alice" Sample.w_tasks
       = (inr (failure error), Sample.w_tasks)).
Proof.
  split.
  - apply (malformed_tool_call_touches_nothing Sample.clock Sample.uuids
             Sample.reliable Sample.no_date Sample.iso Sample.contains
             Sample.loads (mkToolCall "call-1" "add_task" "{}") "alice"
             Sample.w_tasks).
    apply (MissingArgument Sample.loads _ ∅ Tool_add_task "title");
      [reflexivity|reflexivity| |discriminate|reflexivity].
    apply list_elem_of_further, list_elem_of_here.
  - apply (malformed_tool_call_touches_nothing Sample.clock Sample.uuids
             Sample.reliable Sample.no_date Sample.iso Sample.contains
             Sample.loads (mkToolCall "call-2" "add_task" "{") "alice"
             Sample.w_tasks).
    by apply (Unparsable Sample.loads _ (JSONDecodeError "Expecting value")).
Defined.

(** X10 applies: the payload with a title conforms to the entry of
    [add_task], and the call reaches the tool. *)
Lemma catalogue_calls_reach_the_tool_witness :
  ∃ f result w',
    tool_functions !! "add_task" = Some f
    ∧ call_tool Sample.clock Sample.uuids Sample.reliable Sample.no_date Sample.iso
        Sample.contains f
        (<["user_id" := PStr "alice"]> (dict [("title", PStr "Buy milk")]))
        Sample.w_tasks
      = (inr result, w')
    ∧ _execute_tool_call Sample.clock Sample.uuids Sample.reliable Sample.no_date
        Sample.iso Sample.contains Sample.loads
        (mkToolCall "call-1" "add_task" "milk") "alice" Sample.w_tasks
      = (inr result, w').
Proof.
  apply (catalogue_calls_reach_the_tool Sample.clock Sample.uuids Sample.reliable
           Sample.no_date Sample.iso Sample.contains Sample.loads
           (mkToolSchema "add_task"
              [("user_id", JString); ("title", JString); ("description", JString);
               ("priority", JString); ("tags", JArrayOfString);
               ("due_date", JString)]
              ["user_id"; "title"])
           (mkToolCall "call-1" "add_task" "milk")
           (dict [("title", PStr "Buy milk")]) "alice" Sample.w_tasks);
    [apply list_elem_of_here|reflexivity|reflexivity|].
  split.
  - apply map_Forall_insert_2; [|apply map_Forall_empty].
    exists JString. split; [|reflexivity].
    apply list_elem_of_further, list_elem_of_here.
  - constructor; [by left|]. constructor; [right; by eexists|constructor].
Defined.

(** X11 applies: an [add_task] call without a priority, and a [list_tasks]
    call without a limit. *)
Lemma omitted_arguments_take_their_defaults_witness :
  call_tool Sample.clock Sample.uuids Sample.reliable Sample.no_date Sample.iso
    Sample.contains Tool_add_task
    (dict [("user_id", PStr "alice"); ("title", PStr "Buy milk")]) Sample.w_tasks
  = call_tool Sample.clock Sample.uuids Sample.reliable Sample.no_date Sample.iso
      Sample.contains Tool_add_task
      (<["priority" := PStr "Medium"]>
         (dict [("user_id", PStr "alice"); ("title", PStr "Buy milk")]))
      Sample.w_tasks
  ∧ call_tool Sample.clock Sample.uuids Sample.reliable Sample.no_date Sample.iso
      Sample.contains Tool_list_tasks
      (dict [("user_id", PStr "alice")]) Sample.w_tasks
    = call_tool Sample.clock Sample.uuids Sample.reliable Sample.no_date Sample.iso
        Sample.contains Tool_list_tasks
        (<["limit" := PInt 20]> (dict [("user_id", PStr "alice")])) Sample.w_tasks.
Proof.
  split.
  - apply (omitted_arguments_take_their_defaults Sample.clock Sample.uuids
             Sample.reliable Sample.no_date Sample.iso Sample.contains
             (dict [("user_id", PStr "alice"); ("title", PStr "Buy milk")])
             Sample.w_tasks).
    reflexivity.
  - apply (omitted_arguments_take_their_defaults Sample.clock Sample.uuids
             Sample.reliable Sample.no_date Sample.iso Sample.contains
             (dict [("user_id", PStr "alice")]) Sample.w_tasks).
    reflexivity.
Defined.

(** X13 applies: the model answers in plain text. *)
Lemma run_returns_a_plain_reply_witness :
  run Sample.clock Sample.uuids Sample.reliable Sample.no_date Sample.iso
    Sample.contains Sample.loads Sample.dumps Sample.model_replies
    [Entry "user" "Show me my tasks"] "alice" 5 Sample.w_tasks
  = (inr "You have two tasks.", count_llm_call Sample.w_tasks).
Proof.
  apply (run_returns_a_plain_reply Sample.clock Sample.uuids Sample.reliable
           Sample.no_date Sample.iso Sample.contains Sample.loads Sample.dumps
           Sample.model_replies [Entry "user" "Show me my tasks"] "alice" 5
           {| cm_content := Some "You have two tasks."; cm_tool_calls := None |}
           Sample.w_tasks);
    [reflexivity|reflexivity|reflexivity].
Defined.

(** X14 applies: the model is out of reach. *)
Lemma run_reports_a_model_failure_witness :
  run Sample.clock Sample.uuids Sample.reliable Sample.no_date Sample.iso
    Sample.contains Sample.loads Sample.dumps Sample.model_down
    [Entry "user" "Show me my tasks"] "alice" 5 Sample.w_tasks
  = (inl (Exception "OpenAI API error: Connection error."),
     count_llm_call Sample.w_tasks).
Proof.
  apply (run_reports_a_model_failure Sample.clock Sample.uuids Sample.reliable
           Sample.no_date Sample.iso Sample.contains Sample.loads Sample.dumps
           Sample.model_down [Entry "user" "Show me my tasks"] "alice" 5
           (APIError "Connection error.") Sample.w_tasks);
    [reflexivity|reflexivity].
Defined.

(** X16 applies: the model asks for a listing and then answers: the answer
    is returned after two model calls. *)
Lemma run_feeds_tool_results_back_witness :
  ∃ w1,
    run Sample.clock Sample.uuids Sample.reliable Sample.no_date Sample.iso
      Sample.contains Sample.loads Sample.dumps Sample.model_lists_once
      [Entry "user" "Show me my tasks"] "alice" 5 Sample.w_tasks
    = (inr "You have two tasks.", count_llm_call w1)
    ∧ llm_calls w1 = 1%nat.
Proof.
  destruct (run_feeds_tool_results_back Sample.clock Sample.uuids Sample.reliable
              Sample.no_date Sample.iso Sample.contains Sample.loads Sample.dumps
              Sample.model_lists_once [Entry "user" "Show me my tasks"] "alice" 5
              {| cm_content := None;
                 cm_tool_calls := Some [mkToolCall "call-1" "list_tasks" "{}"] |}
              [mkToolCall "call-1" "list_tasks" "{}"] Sample.w_tasks)
    as (results & w1 & _ & _ & Hn & H);
    [reflexivity|reflexivity|reflexivity|discriminate|].
  exists w1. split; [|exact Hn].
  apply (H {| cm_content := Some "You have two tasks."; cm_tool_calls := None |});
    reflexivity.
Defined.

(** X18 applies: bob asks for alice's conversation. *)
Lemma foreign_conversation_is_not_found_witness :
  post_chat_message Sample.clock Sample.uuids Sample.reliable Sample.no_date
    Sample.iso Sample.contains Sample.loads Sample.dumps Sample.model_replies
    Sample.api_key Sample.prompt
    (mkChatMessageRequest (Some 1) "Show me my tasks") (mkUser "bob")
    Sample.w_conversation
  = (inl CONVERSATION_NOT_FOUND, next_tick Sample.w_conversation).
Proof.
  apply (foreign_conversation_is_not_found Sample.clock Sample.uuids
           Sample.reliable Sample.no_date Sample.iso Sample.contains Sample.loads
           Sample.dumps Sample.model_replies Sample.api_key Sample.prompt
           (mkChatMessageRequest (Some 1) "Show me my tasks") (mkUser "bob") 1
           Sample.w_conversation);
    [reflexivity|discriminate|lia|reflexivity|].
  intros c H. vm_compute in H. injection H as <-. discriminate.
Defined.

(** X19 applies: no API key is configured. *)
Lemma chat_without_api_key_witness :
  ∃ e w',
    post_chat_message Sample.clock Sample.uuids Sample.reliable Sample.no_date
      Sample.iso Sample.contains Sample.loads Sample.dumps Sample.model_replies
      Sample.no_api_key Sample.prompt
      (mkChatMessageRequest (Some 1) "Show me my tasks") (mkUser "alice")
      Sample.w_conversation
    = (inl e, w')
    ∧ (e = CONVERSATION_NOT_FOUND ∨ e = UNEXPECTED_ERROR)
    ∧ tasks w' = tasks Sample.w_conversation
    ∧ messages w' = messages Sample.w_conversation
    ∧ conversations w' = conversations Sample.w_conversation
    ∧ llm_calls w' = llm_calls Sample.w_conversation.
Proof.
  apply (chat_without_api_key Sample.clock Sample.uuids Sample.reliable
           Sample.no_date Sample.iso Sample.contains Sample.loads Sample.dumps
           Sample.model_replies Sample.no_api_key Sample.prompt
           (mkChatMessageRequest (Some 1) "Show me my tasks") (mkUser "alice")
           Sample.w_conversation).
  reflexivity.
Defined.

(** X20 applies: alice starts a conversation and is answered. *)
Lemma chat_request_is_answered_witness :
  ∃ w' conversation t1 t2,
    post_chat_message Sample.clock Sample.uuids Sample.reliable Sample.no_date
      Sample.iso Sample.contains Sample.loads Sample.dumps Sample.model_replies
      Sample.api_key Sample.prompt
      (mkChatMessageRequest None "Show me my tasks") (mkUser "alice")
      Sample.w_conversation
    = (inr {| resp_conversation_id := 2;
              resp_response := "You have two tasks." |}, w')
    ∧ conversations w' = <[2 := conversation]> (conversations Sample.w_conversation)
    ∧ conv_user_id conversation = "alice"
    ∧ messages w'
      = [mkMessage (Some 1) 2 "user" "Show me my tasks" t1;
         mkMessage (Some 2) 2 "assistant" "You have two tasks." t2]
    ∧ tasks w' = tasks Sample.w_conversation
    ∧ llm_calls w' = 1%nat.
Proof.
  apply (chat_request_is_answered Sample.clock Sample.uuids Sample.reliable
           Sample.no_date Sample.iso Sample.contains Sample.loads Sample.dumps
           Sample.model_replies Sample.api_key Sample.prompt
           (mkChatMessageRequest None "Show me my tasks") (mkUser "alice") 2
           {| cm_content := Some "You have two tasks."; cm_tool_calls := None |}
           Sample.w_conversation);
    [exact sample_storage_reliable|reflexivity| |reflexivity|reflexivity].
  split; [reflexivity|vm_compute; reflexivity].
Defined.

(** X21 applies: alice writes into her conversation while the model is out
    of reach. *)
Lemma model_failure_is_service_unavailable_witness :
  ∃ w',
    post_chat_message Sample.clock Sample.uuids Sample.reliable Sample.no_date
      Sample.iso Sample.contains Sample.loads Sample.dumps Sample.model_down
      Sample.api_key Sample.prompt
      (mkChatMessageRequest (Some 1) "Show me my tasks") (mkUser "alice")
      Sample.w_conversation
    = (inl AI_UNAVAILABLE, w')
    ∧ conversations w' = conversations Sample.w_conversation
    ∧ messages w' = messages Sample.w_conversation
    ∧ tasks w' = tasks Sample.w_conversation
    ∧ llm_calls w' = 1%nat.
Proof.
  apply (model_failure_is_service_unavailable Sample.clock Sample.uuids
           Sample.reliable Sample.no_date Sample.iso Sample.contains Sample.loads
           Sample.dumps Sample.model_down Sample.api_key Sample.prompt
           (mkChatMessageRequest (Some 1) "Show me my tasks") (mkUser "alice") 1
           (APIError "Connection error.") Sample.w_conversation);
    [exact sample_storage_reliable|reflexivity| |reflexivity].
  split; [reflexivity|]. exists Sample.alice_conversation.
  split; [vm_compute; reflexivity|reflexivity].
Defined.

(** X22 applies: the two messages fetched for conversation 1 are of
    conversation 1. *)
Lemma fetched_messages_are_of_the_conversation_witness :
  Forall (λ m, msg_conversation_id m = 1) [Sample.m2; Sample.m4]
  ∧ [Sample.m2; Sample.m4] ⊆+ visible_rows [] 1 Sample.w_history
  ∧ Z.of_nat (length [Sample.m2; Sample.m4]) ≤ 2
  ∧ (Z.of_nat (length (visible_rows [] 1 Sample.w_history)) ≤ 2 →
     [Sample.m2; Sample.m4] ≡ₚ visible_rows [] 1 Sample.w_history).
Proof.
  apply (fetched_messages_are_of_the_conversation Sample.reliable [] 1 2
           Sample.w_history (next_tick Sample.w_history) [Sample.m2; Sample.m4]).
  vm_compute. reflexivity.
Defined.

(** X23 applies: they come oldest first, and the message that was left out
    is older than both. *)
Lemma fetched_messages_are_the_latest_witness :
  StronglySorted (λ a b, msg_created_at a ≤ msg_created_at b)
                 [Sample.m2; Sample.m4]
  ∧ ∀ m m', m ∈ [Sample.m2; Sample.m4] →
            m' ∈ visible_rows [] 1 Sample.w_history →
            m' ∉ [Sample.m2; Sample.m4] → msg_created_at m' ≤ msg_created_at m.
Proof.
  apply (fetched_messages_are_the_latest Sample.reliable [] 1 2
           Sample.w_history (next_tick Sample.w_history) [Sample.m2; Sample.m4]).
  vm_compute. reflexivity.
Defined.
